(** * Otterscan SDK client: retry dispatcher and pagination traversals

    A shallow embedding of [src/otterscan-client.ts].  Every [async] method of
    [OtterscanClient] becomes an interaction tree over the events of the
    underlying ethers provider ([provider.send], [provider.getTransaction])
    and of the timer ([setTimeout]); a rejected promise is the left summand of
    the tree's result.  The [while] and [for] loops of the source are
    [ITree.iter] loops, so no fuel is needed to define them.

    The meaning of a tree is the set of its finite runs, [Runs t tr r]: the
    client ends with [r] after the exchanges [tr] with its environment, whose
    answers are arbitrary.  [exec] runs a tree against an environment given
    as a function, so that every example of this file is computed.

    Conventions of the embedding:
    - a JavaScript [number] is an integer or [NaN] (the block numbers, page
      indices and option values of this client, inside the safe-integer
      range; fractions and infinities are not represented);
    - the TypeScript annotations are trusted, as the source trusts them with
      [result as T]: a response to a call issued at type [T] is a value of
      [T] or a thrown [Error];
    - a default value of a parameter ([pageSize = 25], [blockTag = 'latest'],
      ...) is supplied by the caller;
    - the promises of [Promise.allSettled] run one after the other, in the
      order of the array.

    The first part of the file holds the definitions, the second part the
    lemmas and the theorems about them. *)

From Stdlib Require Import ZArith List String Ascii Bool Lia Permutation Sorted.
From Stdlib Require Import DecimalString Program.Equality.
From ITree Require Import ITree Eq.Shallow.
Import ListNotations.
Set Warnings "-register-all".
Import ITreeNotations.
Local Open Scope string_scope.
Local Open Scope Z_scope.
Local Open Scope list_scope.
Local Open Scope itree_scope.

(** ** JavaScript numbers and strings *)

Module Js.

(** The values of type [number] the client computes with. *)
Inductive number : Type :=
| Num (z : Z)
| NaN.

(** [a < b], [a >= b]: every comparison with [NaN] is false. *)
Definition ltb (a b : number) : bool :=
  match a, b with
  | Num x, Num y => x <? y
  | _, _ => false
  end.

Definition geb (a b : number) : bool :=
  match a, b with
  | Num x, Num y => y <=? x
  | _, _ => false
  end.

Definition leb (a b : number) : bool :=
  match a, b with
  | Num x, Num y => x <=? y
  | _, _ => false
  end.

(** [a - b] and [a + b]. *)
Definition sub (a b : number) : number :=
  match a, b with
  | Num x, Num y => Num (x - y)
  | _, _ => NaN
  end.

Definition add (a b : number) : number :=
  match a, b with
  | Num x, Num y => Num (x + y)
  | _, _ => NaN
  end.

(** Truthiness of a number: [0] and [NaN] are falsy. *)
Definition truthy (a : number) : bool :=
  match a with
  | Num z => negb (z =? 0)
  | NaN => false
  end.

(** [a || d] where [a] is an optional number ([undefined] is falsy). *)
Definition or_default (a : option number) (d : number) : number :=
  match a with
  | Some n => if truthy n then n else d
  | None => d
  end.

(** [String(n)], the conversion a template literal applies. *)
Definition toString10 (n : number) : string :=
  match n with
  | Num z => NilZero.string_of_int (Z.to_int z)
  | NaN => "NaN"
  end.

(** The digit of a value below sixteen, in lower case as [toString(16)]
    prints it. *)
Definition hex_digit (d : Z) : ascii :=
  if d <? 10 then ascii_of_N (Z.to_N (48 + d)) else ascii_of_N (Z.to_N (87 + d)).

(** [hex_digits fuel n rest] puts the hexadecimal digits of [n >= 0] in front
    of [rest]; [fuel] bounds the number of digits. *)
Fixpoint hex_digits (fuel : nat) (n : Z) (rest : string) : string :=
  match fuel with
  | O => rest
  | S fuel' =>
      let rest' := String (hex_digit (n mod 16)) rest in
      if n / 16 =? 0 then rest' else hex_digits fuel' (n / 16) rest'
  end.

Definition hex_of_nonneg (n : Z) : string :=
  hex_digits (S (Z.to_nat (Z.log2 n))) n "".

(** [n.toString(16)]. *)
Definition toString16 (n : number) : string :=
  match n with
  | Num z => if z <? 0 then ("-" ++ hex_of_nonneg (- z))%string else hex_of_nonneg z
  | NaN => "NaN"
  end.

(** The value of a character as a digit of radix sixteen. *)
Definition digit_value (c : ascii) : option Z :=
  let n := Z.of_N (N_of_ascii c) in
  if (48 <=? n) && (n <=? 57) then Some (n - 48)
  else if (97 <=? n) && (n <=? 102) then Some (n - 87)
  else if (65 <=? n) && (n <=? 70) then Some (n - 55)
  else None.

(** The longest prefix of hexadecimal digits, as a value; [seen] records
    whether the prefix is non-empty. *)
Fixpoint parse_digits (s : string) (acc : Z) (seen : bool) : Z * bool :=
  match s with
  | EmptyString => (acc, seen)
  | String c s' =>
      match digit_value c with
      | Some d => parse_digits s' (16 * acc + d) true
      | None => (acc, seen)
      end
  end.

Definition is_white_space (c : ascii) : bool :=
  let n := N_of_ascii c in
  (((9 <=? n) && (n <=? 13)) || (n =? 32))%N.

Fixpoint trim_start (s : string) : string :=
  match s with
  | String c s' => if is_white_space c then trim_start s' else s
  | EmptyString => s
  end.

Definition strip_sign (s : string) : Z * string :=
  match s with
  | String "-" s' => (-1, s')
  | String "+" s' => (1, s')
  | _ => (1, s)
  end.

Definition strip_0x (s : string) : string :=
  match s with
  | String "0" (String "x" s') => s'
  | String "0" (String "X" s') => s'
  | _ => s
  end.

(** [parseInt(s, 16)]: leading white space, an optional sign and an optional
    [0x] are skipped, then the longest run of hexadecimal digits is read;
    without a digit the result is [NaN]. *)
Definition parseInt16 (s : string) : number :=
  let (sign, s1) := strip_sign (trim_start s) in
  let (v, seen) := parse_digits (strip_0x s1) 0 false in
  if seen then Num (sign * v) else NaN.

End Js.

Import Js.

(** ** Data model: the interfaces of the source *)

(** A value of type [any], as it occurs in parameter lists and access
    lists. *)
Inductive Json : Type :=
| JNull
| JBool (b : bool)
| JNumber (n : number)
| JString (s : string)
| JArray (items : list Json)
| JObject (fields : list (string * Json)).

(** A thrown [Error]; only its [message] is read by the client. *)
Record Error : Type := mkError { message : string }.

Inductive OperationType : Type :=
| CREATE | CREATE2 | CALL | CALLCODE | DELEGATECALL | STATICCALL | SELFDESTRUCT.

Record InternalOperation : Type := {
  io_type : OperationType;
  io_from : string;
  io_to : string;
  io_value : string;
  io_gas : option string;
  io_gasUsed : option string;
  io_input : option string;
  io_output : option string;
  io_error : option string
}.

Record TransactionDetails : Type := {
  hash : string;
  blockNumber : string;
  blockHash : string;
  transactionIndex : string;
  tx_from : string;
  tx_to : option string;
  value : string;
  gas : string;
  gasPrice : string;
  gasUsed : string;
  input : string;
  nonce : string;
  status : string;
  tx_type : string;
  maxFeePerGas : option string;
  maxPriorityFeePerGas : option string;
  accessList : option (list Json)
}.

Record Issuance : Type := {
  blockReward : string;
  uncleReward : string;
  issuance_total : string
}.

Record BlockDetails : Type := {
  bd_number : string;
  bd_hash : string;
  bd_parentHash : string;
  bd_nonce : string;
  bd_sha3Uncles : string;
  bd_logsBloom : string;
  bd_transactionsRoot : string;
  bd_stateRoot : string;
  bd_receiptsRoot : string;
  bd_miner : string;
  bd_difficulty : string;
  bd_totalDifficulty : string;
  bd_extraData : string;
  bd_size : string;
  bd_gasLimit : string;
  bd_gasUsed : string;
  bd_timestamp : string;
  bd_transactions : list string + list TransactionDetails;
  bd_uncles : list string;
  bd_issuance : Issuance;
  bd_totalFees : string;
  bd_feeRecipient : string;
  bd_transactionCount : number
}.

Record ContractCreator : Type := {
  cc_hash : string;
  cc_creator : string
}.

Record BasicTransactionResponse : Type := {
  btr_hash : string;
  btr_blockNumber : option number;
  btr_blockHash : option string;
  btr_from : string;
  btr_to : option string;
  btr_value : Z;
  btr_gasLimit : Z;
  btr_gasPrice : option Z;
  btr_maxFeePerGas : option Z;
  btr_maxPriorityFeePerGas : option Z;
  btr_nonce : number;
  btr_type : number;
  btr_data : string
}.

Inductive TraceOperation : Type :=
| mkTraceOperation
    (to_type to_from to_to to_gas to_gasUsed to_input to_output to_value : string)
    (to_error : option string)
    (to_calls : option (list TraceOperation)).

Record LogEntry : Type := {
  log_address : string;
  log_topics : list string;
  log_data : string;
  log_blockNumber : string;
  log_blockHash : string;
  log_transactionHash : string;
  log_transactionIndex : string;
  log_logIndex : string;
  log_removed : bool
}.

Record TransactionReceipt : Type := {
  rc_blockHash : string;
  rc_blockNumber : string;
  rc_contractAddress : option string;
  rc_cumulativeGasUsed : string;
  rc_from : string;
  rc_gasUsed : string;
  rc_logs : list LogEntry;
  rc_logsBloom : string;
  rc_status : string;
  rc_to : option string;
  rc_transactionHash : string;
  rc_transactionIndex : string;
  rc_type : string
}.

(** [BlockTransactionPage] and [AddressTransactionPage] have the same
    fields. *)
Record Page : Type := {
  txs : list TransactionDetails;
  receipts : list TransactionReceipt;
  firstPage : bool;
  lastPage : bool
}.

Definition BlockTransactionPage : Type := Page.
Definition AddressTransactionPage : Type := Page.

(** [string | number], the type of block and nonce arguments. *)
Inductive StringOrNumber : Type :=
| Str (s : string)
| Number (n : number).

Record OtterscanClientOptions : Type := {
  opt_timeout : option number;
  opt_retries : option number;
  opt_retryDelay : option number
}.

(** [Required<OtterscanClientOptions>]. *)
Record Options : Type := {
  timeout : number;
  retries : number;
  retryDelay : number
}.

Record OtterscanClient : Type := {
  provider : string;
  requestId : number;
  options : Options
}.

(** ** Events of the provider and of the timer *)

(** The result types [T] at which the client instantiates
    [makeRpcCall<T>]. *)
Inductive ResultType : Type :=
| TNumber
| TBoolean
| TString
| TNullableString
| TInternalOperations
| TTraceOperation
| TBlockDetails
| TPage
| TContractCreator.

Definition denote (t : ResultType) : Type :=
  match t with
  | TNumber => number
  | TBoolean => bool
  | TString => string
  | TNullableString => option string
  | TInternalOperations => list InternalOperation
  | TTraceOperation => TraceOperation
  | TBlockDetails => BlockDetails
  | TPage => Page
  | TContractCreator => ContractCreator
  end.

(** What awaiting each external promise can give back: the settled value of
    [provider.send(method, params)] and of [provider.getTransaction(hash)],
    and the expiry of [setTimeout(resolve, ms)]. *)
Variant rpcE : Type -> Type :=
| ProviderSend (t : ResultType) (method : string) (params : list Json)
  : rpcE (Error + denote t)
| ProviderGetTransaction (txHash : string)
  : rpcE (Error + option BasicTransactionResponse)
| SetTimeout (ms : number) : rpcE unit.

(** An [async] function returning [Promise<T>]: the tree ends with the
    rejection reason or with the fulfilled value. *)
Definition Promise (T : Type) : Type := itree rpcE (Error + T).

Definition resolve {T} (v : T) : Promise T := Ret (inr v).
Definition throw {T} (e : Error) : Promise T := Ret (inl e).

(** [const x = await p; k x]: a rejection of [p] leaves the function. *)
Definition await {T U} (p : Promise T) (k : T -> Promise U) : Promise U :=
  ITree.bind p (fun r => match r with
                         | inl e => throw e
                         | inr v => k v
                         end).

Notation "x <~ p ;; k" :=
  (await p (fun x => k))
  (at level 61, p at next level, right associativity, only parsing) : itree_scope.
Notation "' q <~ p ;; k" :=
  (await p (fun x_ => match x_ with q => k end))
  (at level 61, p at next level, q pattern, right associativity, only parsing)
  : itree_scope.

(** [try { return await p } catch (e) { h e }]. *)
Definition try_catch {T} (p : Promise T) (h : Error -> Promise T) : Promise T :=
  ITree.bind p (fun r => match r with
                         | inl e => h e
                         | inr v => resolve v
                         end).

(** The outcome of one promise given to [Promise.allSettled]: [inl] is
    [{status: 'rejected', reason}], [inr] is [{status: 'fulfilled', value}]. *)
Definition PromiseSettledResult (T : Type) : Type := (Error + T)%type.

(** [Promise.allSettled([p1, p2])] and [Promise.allSettled([p1, p2, p3])].
    The promises are started in the order of the array and none of them
    reads what another one receives, so the outcome of each depends only on
    the answers to its own requests; the model lets them run one after the
    other, which is one of the schedules of the event loop.  The combined
    promise never rejects. *)
Definition allSettled2 {A B} (p1 : Promise A) (p2 : Promise B)
  : Promise (PromiseSettledResult A * PromiseSettledResult B) :=
  ITree.bind p1 (fun r1 =>
  ITree.bind p2 (fun r2 =>
  resolve (r1, r2))).

Definition allSettled3 {A B C} (p1 : Promise A) (p2 : Promise B) (p3 : Promise C)
  : Promise (PromiseSettledResult A * PromiseSettledResult B * PromiseSettledResult C) :=
  ITree.bind p1 (fun r1 =>
  ITree.bind p2 (fun r2 =>
  ITree.bind p3 (fun r3 =>
  resolve (r1, r2, r3)))).

(** [Array.prototype.sort(cmp)]: the sort is stable and, for a consistent
    comparator, its result is determined by that; the model is the stable
    insertion sort.  An element moves behind its neighbour when the
    comparator is positive ([NaN] counts as [+0]). *)
Definition cmp_positive (n : number) : bool :=
  match n with
  | Num z => 0 <? z
  | NaN => false
  end.

Fixpoint sort_insert {A} (cmp : A -> A -> number) (x : A) (l : list A) : list A :=
  match l with
  | [] => [x]
  | y :: l' => if cmp_positive (cmp x y) then y :: sort_insert cmp x l' else x :: l
  end.

Definition Array_sort {A} (cmp : A -> A -> number) (l : list A) : list A :=
  fold_right (sort_insert cmp) [] l.

(** ** The client *)

(** [new OtterscanClient(rpcUrl, options)]. *)
Definition new_OtterscanClient (rpcUrl : string) (o : OtterscanClientOptions)
  : OtterscanClient :=
  {| provider := rpcUrl;
     requestId := Num 1;
     options := {| timeout := or_default (opt_timeout o) (Num 30000);
                   retries := or_default (opt_retries o) (Num 3);
                   retryDelay := or_default (opt_retryDelay o) (Num 1000) |} |}.

(** The default [options = {}]. *)
Definition no_options : OtterscanClientOptions :=
  {| opt_timeout := None; opt_retries := None; opt_retryDelay := None |}.

Section Client.

Variable this : OtterscanClient.

(** One turn of the [for] loop of [makeRpcCall]; the loop state is
    [(attempt, lastError)].  [inl] goes round the loop again, [inr] leaves
    the function, by [return] or by the final [throw]. *)
Definition makeRpcCall_body (t : ResultType) (method : string) (params : list Json)
    (st : number * Error)
  : itree rpcE (number * Error + (Error + denote t)) :=
  let '(attempt, lastError) := st in
  if ltb attempt (retries (options this)) then
    r <- ITree.trigger (ProviderSend t method params) ;;
    match r with
    | inr result => Ret (inr (inr result))
    | inl error =>
        (if ltb attempt (sub (retries (options this)) (Num 1))
         then ITree.trigger (SetTimeout (retryDelay (options this)))
         else Ret tt) ;;
        Ret (inl (add attempt (Num 1), error))
    end
  else
    Ret (inr (inl (mkError ("RPC call failed after "
                            ++ toString10 (retries (options this))
                            ++ " attempts: " ++ message lastError)%string))).

Definition makeRpcCall (t : ResultType) (method : string) (params : list Json)
  : Promise (denote t) :=
  ITree.iter (makeRpcCall_body t method params) (Num 0, mkError "Unknown error").

(** [typeof b === 'number' ? `0x${b.toString(16)}` : b]. *)
Definition hexParam (b : StringOrNumber) : string :=
  match b with
  | Number n => ("0x" ++ toString16 n)%string
  | Str s => s
  end.

Definition getApiLevel : Promise number :=
  makeRpcCall TNumber "ots_getApiLevel" [].

Definition getInternalOperations (txHash : string) : Promise (list InternalOperation) :=
  makeRpcCall TInternalOperations "ots_getInternalOperations" [JString txHash].

Definition hasCode (address : string) (blockTag : StringOrNumber) : Promise bool :=
  let blockParam := hexParam blockTag in
  makeRpcCall TBoolean "ots_hasCode" [JString address; JString blockParam].

Definition traceTransaction (txHash : string) : Promise TraceOperation :=
  makeRpcCall TTraceOperation "ots_traceTransaction" [JString txHash].

Definition getTransactionError (txHash : string) : Promise string :=
  makeRpcCall TString "ots_getTransactionError" [JString txHash].

Definition getBlockDetails (blockNumber : StringOrNumber) : Promise BlockDetails :=
  let blockParam := hexParam blockNumber in
  makeRpcCall TBlockDetails "ots_getBlockDetails" [JString blockParam].

Definition getBlockTransactions (blockNumber : StringOrNumber)
    (pageNumber pageSize : number) : Promise BlockTransactionPage :=
  let blockParam := hexParam blockNumber in
  makeRpcCall TPage "ots_getBlockTransactions"
    [JString blockParam; JNumber pageNumber; JNumber pageSize].

Definition searchTransactionsBefore (address : string) (blockNumber : StringOrNumber)
    (pageSize : number) : Promise AddressTransactionPage :=
  let blockParam := hexParam blockNumber in
  makeRpcCall TPage "ots_searchTransactionsBefore"
    [JString address; JString blockParam; JNumber pageSize].

Definition searchTransactionsAfter (address : string) (blockNumber : StringOrNumber)
    (pageSize : number) : Promise AddressTransactionPage :=
  let blockParam := hexParam blockNumber in
  makeRpcCall TPage "ots_searchTransactionsAfter"
    [JString address; JString blockParam; JNumber pageSize].

Definition getTransactionBySenderAndNonce (sender : string) (nonce : StringOrNumber)
  : Promise (option string) :=
  let nonceParam := hexParam nonce in
  makeRpcCall TNullableString "ots_getTransactionBySenderAndNonce"
    [JString sender; JString nonceParam].

Definition getContractCreator (contractAddress : string) : Promise ContractCreator :=
  makeRpcCall TContractCreator "ots_getContractCreator" [JString contractAddress].

(** The lower bound the filter of [getAllTransactionsForAddress] compares
    with. *)
Definition fromBlockNum (fromBlock : StringOrNumber) : number :=
  match fromBlock with
  | Str s => if String.eqb s "earliest" then Num 0 else parseInt16 s
  | Number n => n
  end.

Definition inRequestedRange (fromBlock : StringOrNumber) (tx : TransactionDetails) : bool :=
  let txBlockNum := parseInt16 (blockNumber tx) in
  geb txBlockNum (fromBlockNum fromBlock).

(** One turn of the [while (hasMore)] loop of
    [getAllTransactionsForAddress]; the loop state is
    [(allTransactions, currentBlock)].  [inr] leaves the loop: with the
    aggregate when [hasMore] became false, with the error when the page
    request was rejected. *)
Definition getAllTransactionsForAddress_body (address : string)
    (fromBlock : StringOrNumber) (pageSize : number)
    (st : list TransactionDetails * string)
  : itree rpcE (list TransactionDetails * string + (Error + list TransactionDetails)) :=
  let '(allTransactions, currentBlock) := st in
  r <- searchTransactionsBefore address (Str currentBlock) pageSize ;;
  match r with
  | inl e => Ret (inr (inl e))
  | inr page =>
      if (List.length (txs page) =? 0)%nat then Ret (inr (inr allTransactions))
      else
        let filteredTxs := filter (inRequestedRange fromBlock) (txs page) in
        let allTransactions := allTransactions ++ filteredTxs in
        if firstPage page || (List.length filteredTxs <? List.length (txs page))%nat
        then Ret (inr (inr allTransactions))
        else
          match nth_error (txs page) (List.length (txs page) - 1) with
          | None => Ret (inr (inl (mkError
              "Cannot read properties of undefined (reading 'blockNumber')")))
          | Some earliestTx =>
              let earliestBlockNum := parseInt16 (blockNumber earliestTx) in
              let currentBlock := ("0x" ++ toString16 (sub earliestBlockNum (Num 1)))%string in
              Ret (inl (allTransactions, currentBlock))
          end
  end.

Definition compareBlockNumber (a b : TransactionDetails) : number :=
  sub (parseInt16 (blockNumber a)) (parseInt16 (blockNumber b)).

Definition getAllTransactionsForAddress (address : string)
    (fromBlock toBlock : StringOrNumber) (pageSize : number)
  : Promise (list TransactionDetails) :=
  let currentBlock := hexParam toBlock in
  allTransactions <~
    ITree.iter (getAllTransactionsForAddress_body address fromBlock pageSize)
               ([], currentBlock) ;;
  resolve (Array_sort compareBlockNumber allTransactions).

Record TransactionAnalysis : Type := {
  ta_trace : option TraceOperation;
  ta_internalOps : list InternalOperation;
  ta_error : option string
}.

Definition getTransactionAnalysis (txHash : string) : Promise TransactionAnalysis :=
  '(trace, internalOps, error) <~
    allSettled3
      (traceTransaction txHash)
      (getInternalOperations txHash)
      (try_catch (v <~ getTransactionError txHash ;; resolve (Some v))
                 (fun _ => resolve None)) ;;
  resolve {| ta_trace := match trace with inr v => Some v | inl _ => None end;
             ta_internalOps := match internalOps with inr v => v | inl _ => [] end;
             ta_error := match error with inr v => v | inl _ => None end |}.

Record BlockWithTransactions : Type := {
  bwt_block : BlockDetails;
  bwt_transactions : list TransactionDetails
}.

(** One turn of the [while (hasMore)] loop of [getBlockWithTransactions];
    the loop state is [(allTransactions, pageNumber)]. *)
Definition getBlockWithTransactions_body (blockNumber : StringOrNumber)
    (st : list TransactionDetails * number)
  : itree rpcE (list TransactionDetails * number + (Error + list TransactionDetails)) :=
  let '(allTransactions, pageNumber) := st in
  r <- getBlockTransactions blockNumber pageNumber (Num 100) ;;
  match r with
  | inl e => Ret (inr (inl e))
  | inr page =>
      let allTransactions := allTransactions ++ txs page in
      if lastPage page then Ret (inr (inr allTransactions))
      else Ret (inl (allTransactions, add pageNumber (Num 1)))
  end.

Definition getBlockWithTransactions (blockNumber : StringOrNumber)
  : Promise BlockWithTransactions :=
  blockDetails <~ getBlockDetails blockNumber ;;
  allTransactions <~
    ITree.iter (getBlockWithTransactions_body blockNumber) ([], Num 0) ;;
  resolve {| bwt_block := blockDetails; bwt_transactions := allTransactions |}.

Definition isContract (address : string) (blockNumber : StringOrNumber) : Promise bool :=
  try_catch (hasCode address blockNumber) (fun _ => resolve false).

Record ContractDeployment : Type := {
  cd_creator : ContractCreator;
  cd_transaction : option BasicTransactionResponse;
  cd_trace : option TraceOperation
}.

Definition getContractDeployment (contractAddress : string) : Promise ContractDeployment :=
  creator <~ getContractCreator contractAddress ;;
  '(transaction, trace) <~
    allSettled2
      (ITree.trigger (ProviderGetTransaction (cc_hash creator)))
      (traceTransaction (cc_hash creator)) ;;
  resolve {| cd_creator := creator;
             cd_transaction := match transaction with inr v => v | inl _ => None end;
             cd_trace := match trace with inr v => Some v | inl _ => None end |}.

Definition getProvider : string := provider this.

End Client.

(** ** Runs of the client against the answers of its environment *)

(** One exchange with the environment: the event the client raised and the
    answer it got back. *)
Inductive Entry : Type :=
| Answer {X : Type} (e : rpcE X) (x : X).

(** [Runs t tr r]: the program [t] ends with [r] after the exchanges [tr],
    in this order.  The events of [tr] are the ones [t] raises; the answers
    are the environment's, and can be any value of the event's type. *)
Inductive RunsF {R : Type} : itree' rpcE R -> list Entry -> R -> Prop :=
| RunsRet (r : R) : RunsF (RetF r) [] r
| RunsTau (t : itree rpcE R) tr r :
    RunsF (observe t) tr r -> RunsF (TauF t) tr r
| RunsVis {X} (e : rpcE X) (k : X -> itree rpcE R) (x : X) tr r :
    RunsF (observe (k x)) tr r -> RunsF (VisF e k) (Answer e x :: tr) r.

Definition Runs {R : Type} (t : itree rpcE R) (tr : list Entry) (r : R) : Prop :=
  RunsF (observe t) tr r.

(** The environment as a function: the answer to an event, given the
    exchanges so far. *)
Definition Oracle : Type := list Entry -> forall X, rpcE X -> X.

(** The run of [t] against an oracle, for at most [fuel] steps of the
    tree. *)
Fixpoint exec {R : Type} (fuel : nat) (o : Oracle) (hist : list Entry)
    (t : itree rpcE R) : option (list Entry * R) :=
  match fuel with
  | O => None
  | S fuel' =>
      match observe t with
      | RetF r => Some ([], r)
      | TauF t' => exec fuel' o hist t'
      | VisF e k =>
          let x := o hist _ e in
          match exec fuel' o (hist ++ [Answer e x]) (k x) with
          | Some (tr, r) => Some (Answer e x :: tr, r)
          | None => None
          end
      end
  end.

(** ** Reading a list of exchanges *)

(** Whether the exchange is a call of [provider.send]. *)
Definition is_send (en : Entry) : bool :=
  match en with
  | Answer e _ =>
      match e with
      | ProviderSend _ _ _ => true
      | _ => false
      end
  end.

(** The rejection reason, when the exchange is a provider call that was
    rejected. *)
Definition failure_of (en : Entry) : option Error :=
  match en with
  | @Answer X e x =>
      match e in rpcE X return X -> option Error with
      | ProviderSend _ _ _ => fun x => match x with inl err => Some err | inr _ => None end
      | ProviderGetTransaction _ =>
          fun x => match x with inl err => Some err | inr _ => None end
      | SetTimeout _ => fun _ => None
      end x
  end.

(** Whether the exchange is a provider call that was fulfilled. *)
Definition fulfilled (en : Entry) : bool :=
  match en with
  | @Answer X e x =>
      match e in rpcE X return X -> bool with
      | ProviderSend _ _ _ => fun x => match x with inl _ => false | inr _ => true end
      | ProviderGetTransaction _ =>
          fun x => match x with inl _ => false | inr _ => true end
      | SetTimeout _ => fun _ => false
      end x
  end.

(** The number of times the transport was invoked. *)
Definition send_count (tr : list Entry) : nat := List.length (filter is_send tr).

(** The rejection reasons observed, in order. *)
Definition failures (tr : list Entry) : list Error :=
  flat_map (fun en => match failure_of en with Some e => [e] | None => [] end) tr.

(** The page of a fulfilled page request, with the method and parameters it
    answers. *)
Definition page_of (en : Entry) : option (string * list Json * Page) :=
  match en with
  | @Answer X e x =>
      match e in rpcE X return X -> option (string * list Json * Page) with
      | ProviderSend t m ps =>
          match t return Error + denote t -> option (string * list Json * Page) with
          | TPage => fun x => match x with
                              | inr p => Some (m, ps, p)
                              | inl _ => None
                              end
          | _ => fun _ => None
          end
      | _ => fun _ => None
      end x
  end.

(** The pages the server delivered, in order. *)
Definition fetched_pages (tr : list Entry) : list Page :=
  flat_map (fun en => match page_of en with
                      | Some (_, _, p) => [p]
                      | None => []
                      end) tr.

(** ** The exchanges of a call that fails *)

Section FailedCall.

Variable this : OtterscanClient.
Variable t : ResultType.
Variable method : string.
Variable params : list Json.

(** The exchanges of a call whose attempts fail with [errors], one after the
    other: a delay follows each failure but the last. *)
Fixpoint failed_attempts (errors : list Error) : list Entry :=
  match errors with
  | [] => []
  | e :: rest =>
      Answer (ProviderSend t method params) (inl e)
        :: match rest with
           | [] => []
           | _ :: _ => Answer (SetTimeout (retryDelay (options this))) tt
                         :: failed_attempts rest
           end
  end.

Definition exhausted (lastError : Error) : Error :=
  mkError ("RPC call failed after " ++ toString10 (retries (options this))
           ++ " attempts: " ++ message lastError).

End FailedCall.

(** ** Properties of records, pages and servers *)

(** The block number the client reads off a record. *)
Definition blockNum (tx : TransactionDetails) : number := parseInt16 (blockNumber tx).

(** [a] is not above [b]; both block numbers are numeric. *)
Definition block_le (a b : TransactionDetails) : Prop :=
  leb (blockNum a) (blockNum b) = true.

Definition numeric_block (tx : TransactionDetails) : Prop :=
  exists z, blockNum tx = Num z.

(** The records of a page that pass the range filter. *)
Definition kept (fromBlock : StringOrNumber) (page : Page) : list TransactionDetails :=
  filter (inRequestedRange fromBlock) (txs page).

(** The contract of [ots_searchTransactionsBefore] the client relies on: the
    records of a page are not above the block the request names.  (The server
    resolves [latest] itself; a cursor that names no block, such as [0x-1],
    has nothing before it.) *)
Definition before_cursor (cursor : string) (page : Page) : Prop :=
  cursor = "latest" \/
  forall tx, In tx (txs page) -> leb (blockNum tx) (parseInt16 cursor) = true.

Definition honours_cursor (en : Entry) : Prop :=
  forall address cursor pageSize page,
    page_of en = Some ("ots_searchTransactionsBefore",
                       [JString address; JString cursor; JNumber pageSize], page) ->
    before_cursor cursor page.

(** The order in which the server lists a page: newest block first. *)
Definition descending (page : Page) : Prop :=
  StronglySorted (fun a b => block_le b a) (txs page).

(** The successive page requests of the forward traversal, from page index
    [i] on: each element pairs the exchanges of one request with the page it
    delivered. *)
Fixpoint page_fetches (this : OtterscanClient) (blockNumber : StringOrNumber) (i : Z)
    (l : list (list Entry * Page)) : Prop :=
  match l with
  | [] => True
  | (tr, p) :: rest =>
      Runs (getBlockTransactions this blockNumber (Num i) (Num 100)) tr (inr p) /\
      page_fetches this blockNumber (i + 1) rest
  end.

(** Every page reports [lastPage = false] except the last one. *)
Fixpoint last_flagged (pages : list Page) : Prop :=
  match pages with
  | [] => False
  | p :: rest =>
      match rest with
      | [] => lastPage p = true
      | _ :: _ => lastPage p = false /\ last_flagged rest
      end
  end.

(** [Halts o hist t tr r]: against the oracle [o], after the exchanges
    [hist], the program [t] ends with [r] after the exchanges [tr]. *)
Definition Halts {R : Type} (o : Oracle) (hist : list Entry) (t : itree rpcE R)
    (tr : list Entry) (r : R) : Prop :=
  exists fuel, exec fuel o hist t = Some (tr, r).

(** ** The exchanges a program begins with *)

(** [Begins t tr]: the program [t] goes through the exchanges [tr], in this
    order, whether or not it ends after them. *)
Inductive BeginsF {R : Type} : itree' rpcE R -> list Entry -> Prop :=
| BeginsNil (ot : itree' rpcE R) : BeginsF ot []
| BeginsTau (t : itree rpcE R) tr :
    BeginsF (observe t) tr -> BeginsF (TauF t) tr
| BeginsVis {X} (e : rpcE X) (k : X -> itree rpcE R) (x : X) tr :
    BeginsF (observe (k x)) tr -> BeginsF (VisF e k) (Answer e x :: tr).

Definition Begins {R : Type} (t : itree rpcE R) (tr : list Entry) : Prop :=
  BeginsF (observe t) tr.

(** ** The pages of the backward traversal *)

(** The page ends the backward traversal: it is empty, or flagged as the
    first page, or the filter dropped at least one of its records. *)
Definition page_stops (fromBlock : StringOrNumber) (page : Page) : Prop :=
  txs page = [] \/ firstPage page = true \/
  (List.length (kept fromBlock page) < List.length (txs page))%nat.

(** The page sends the backward traversal on: it has records, is not
    flagged as the first page, and lost no record to the filter. *)
Definition page_goes_on (fromBlock : StringOrNumber) (page : Page) : Prop :=
  txs page <> [] /\ firstPage page = false /\ kept fromBlock page = txs page.

(** [backward_turns this address fromBlock pageSize cur l cur']: from the
    cursor [cur], the successive requests of the traversal deliver the pages
    of [l], each paired with the exchanges of its request; every one of
    them sends the traversal on, the cursor of a request being one below the
    block of the last record of the page before; [cur'] is the cursor after
    the last of them. *)
Inductive backward_turns (this : OtterscanClient) (address : string)
    (fromBlock : StringOrNumber) (pageSize : number)
  : string -> list (list Entry * Page) -> string -> Prop :=
| backward_turns_nil cur : backward_turns this address fromBlock pageSize cur [] cur
| backward_turns_cons cur tr page front earliestTx rest cur' :
    Runs (searchTransactionsBefore this address (Str cur) pageSize) tr (inr page) ->
    page_goes_on fromBlock page ->
    txs page = front ++ [earliestTx] ->
    backward_turns this address fromBlock pageSize
      ("0x" ++ toString16 (sub (blockNum earliestTx) (Num 1)))%string rest cur' ->
    backward_turns this address fromBlock pageSize cur ((tr, page) :: rest) cur'.

(** ** Clients, records and servers of the examples *)

(** A client with the default options: three attempts, one second apart. *)
Definition default_client : OtterscanClient :=
  new_OtterscanClient "http://localhost:8545" no_options.

(** A record of which only the hash and the block number matter. *)
Definition mkTx (h b : string) : TransactionDetails :=
  {| hash := h; blockNumber := b; blockHash := ""; transactionIndex := "0x0";
     tx_from := ""; tx_to := None; value := "0x0"; gas := "0x0"; gasPrice := "0x0";
     gasUsed := "0x0"; input := "0x"; nonce := "0x0"; status := "0x1";
     tx_type := "0x0"; maxFeePerGas := None; maxPriorityFeePerGas := None;
     accessList := None |}.

Definition mkPage (l : list TransactionDetails) (first last : bool) : Page :=
  {| txs := l; receipts := []; firstPage := first; lastPage := last |}.

Definition tx180 : TransactionDetails := mkTx "0xa180" "0xb4".
Definition tx150 : TransactionDetails := mkTx "0xa150" "0x96".
Definition tx140 : TransactionDetails := mkTx "0xa140" "0x8c".
Definition tx90 : TransactionDetails := mkTx "0xa090" "0x5a".
Definition tx500 : TransactionDetails := mkTx "0xa500" "0x1f4".

(** The history of the example of the specification: asked for the
    transactions before block 200 the server lists blocks 180 and 150, asked
    for those before block 149 it lists blocks 140 and 90; neither page is
    flagged as the first one. *)
Definition history_server : Oracle :=
  fun _ X e =>
    match e in rpcE X return X with
    | ProviderSend t m ps =>
        match t return Error + denote t with
        | TPage =>
            match ps with
            | [_; JString cursor; _] =>
                if String.eqb cursor "0xc8" then inr (mkPage [tx180; tx150] false false)
                else if String.eqb cursor "0x95" then inr (mkPage [tx140; tx90] false false)
                else inr (mkPage [] true false)
            | _ => inl (mkError "invalid params")
            end
        | _ => inl (mkError "method not found")
        end
    | ProviderGetTransaction _ => inl (mkError "method not found")
    | SetTimeout _ => tt
    end.

Definition history_exchanges : list Entry :=
  [ Answer (ProviderSend TPage "ots_searchTransactionsBefore"
              [JString "0xabc"; JString "0xc8"; JNumber (Num 2)])
           (inr (mkPage [tx180; tx150] false false));
    Answer (ProviderSend TPage "ots_searchTransactionsBefore"
              [JString "0xabc"; JString "0x95"; JNumber (Num 2)])
           (inr (mkPage [tx140; tx90] false false)) ].

Definition block_18500000 : BlockDetails :=
  {| bd_number := "0x11a49a0"; bd_hash := "0xb10c"; bd_parentHash := "";
     bd_nonce := "0x0"; bd_sha3Uncles := ""; bd_logsBloom := "";
     bd_transactionsRoot := ""; bd_stateRoot := ""; bd_receiptsRoot := "";
     bd_miner := ""; bd_difficulty := "0x0"; bd_totalDifficulty := "0x0";
     bd_extraData := "0x"; bd_size := "0x0"; bd_gasLimit := "0x0";
     bd_gasUsed := "0x0"; bd_timestamp := "0x0"; bd_transactions := inl [];
     bd_uncles := [];
     bd_issuance := {| blockReward := "0x0"; uncleReward := "0x0";
                       issuance_total := "0x0" |};
     bd_totalFees := "0x0"; bd_feeRecipient := ""; bd_transactionCount := Num 3 |}.

Definition txA : TransactionDetails := mkTx "0xaa" "0x11a49a0".
Definition txB : TransactionDetails := mkTx "0xbb" "0x11a49a0".
Definition txC : TransactionDetails := mkTx "0xcc" "0x11a49a0".

(** A block served in two pages. *)
Definition block_server : Oracle :=
  fun _ X e =>
    match e in rpcE X return X with
    | ProviderSend t m ps =>
        match t return Error + denote t with
        | TBlockDetails => inr block_18500000
        | TPage =>
            match ps with
            | [_; JNumber (Num 0); _] => inr (mkPage [txB; txA] true false)
            | [_; JNumber (Num 1); _] => inr (mkPage [txC] false true)
            | _ => inl (mkError "no such page")
            end
        | _ => inl (mkError "method not found")
        end
    | ProviderGetTransaction _ => inl (mkError "method not found")
    | SetTimeout _ => tt
    end.

Definition block_exchange (pageNumber : Z) (page : Page) : Entry :=
  Answer (ProviderSend TPage "ots_getBlockTransactions"
            [JString "0x11a49a0"; JNumber (Num pageNumber); JNumber (Num 100)])
         (inr page).

(** A node that refuses every request. *)
Definition node_down : Oracle :=
  fun _ X e =>
    match e in rpcE X return X with
    | ProviderSend t m ps => inl (mkError "connection refused")
    | ProviderGetTransaction _ => inl (mkError "connection refused")
    | SetTimeout _ => tt
    end.

(** ** Further readings of a list of exchanges *)

(** Whether the exchange is the expiry of a timer. *)
Definition is_delay (en : Entry) : bool :=
  match en with
  | Answer e _ =>
      match e with
      | SetTimeout _ => true
      | _ => false
      end
  end.

(** The number of times the client waited. *)
Definition delay_count (tr : list Entry) : nat := List.length (filter is_delay tr).

(** Whether the exchange is a call of [provider.getTransaction]. *)
Definition is_getTransaction (en : Entry) : bool :=
  match en with
  | Answer e _ =>
      match e with
      | ProviderGetTransaction _ => true
      | _ => false
      end
  end.

(** The exchange is a request of the backward traversal of [address] with
    page size [pageSize], for the page before some cursor, or the delay
    before the request is sent again. *)
Definition backward_exchange (this : OtterscanClient) (address : string)
    (pageSize : number) (en : Entry) : Prop :=
  (exists cursor x,
      en = Answer (ProviderSend TPage "ots_searchTransactionsBefore"
                     [JString address; JString cursor; JNumber pageSize]) x) \/
  en = Answer (SetTimeout (retryDelay (options this))) tt.



Section RetriedCall.

Variable this : OtterscanClient.
Variable t : ResultType.
Variable method : string.
Variable params : list Json.

(** The exchanges of the attempts that fail with [errors] when one more
    attempt is still to come: a delay follows each of the failures. *)
Fixpoint retried_attempts (errors : list Error) : list Entry :=
  match errors with
  | [] => []
  | e :: rest =>
      Answer (ProviderSend t method params) (inl e)
        :: Answer (SetTimeout (retryDelay (options this))) tt
        :: retried_attempts rest
  end.

End RetriedCall.

(** Whether the record is of block [b]. *)
Definition in_block (b : Z) (tx : TransactionDetails) : bool :=
  match blockNum tx with
  | Num z => z =? b
  | NaN => false
  end.

(** ** Servers as oracles *)

(** The answer of the exchange is one the oracle gives to the event, after
    some list of exchanges. *)
Definition from_oracle (o : Oracle) (en : Entry) : Prop :=
  match en with
  | @Answer X e x => exists hist, x = o hist X e
  end.

(** A server that keeps to the cursor of [ots_searchTransactionsBefore],
    at every moment and for every address and page size. *)
Definition cursor_honest (o : Oracle) : Prop :=
  forall hist address cursor pageSize page,
    o hist _ (ProviderSend TPage "ots_searchTransactionsBefore"
                [JString address; JString cursor; JNumber pageSize]) = inr page ->
    before_cursor cursor page.

(** A server that never comes to the first page: whatever page of the
    history is asked for, it delivers a page that has records, all of them
    at or above [fromBlock], and that is not flagged as the first one. *)
Definition never_first (fromBlock : StringOrNumber) (o : Oracle) : Prop :=
  forall hist params, exists page,
    o hist _ (ProviderSend TPage "ots_searchTransactionsBefore" params) = inr page /\
    txs page <> [] /\ firstPage page = false /\ kept fromBlock page = txs page.

(** A server that delivers the details of every block and never flags a
    page of a block as the last one. *)
Definition never_last (o : Oracle) : Prop :=
  (forall hist params, exists blockDetails,
      o hist _ (ProviderSend TBlockDetails "ots_getBlockDetails" params)
      = inr blockDetails) /\
  (forall hist params, exists page,
      o hist _ (ProviderSend TPage "ots_getBlockTransactions" params) = inr page /\
      lastPage page = false).

(** A server whose pages of a block, from the index [K] on, are flagged as
    the last one. *)
Definition last_from (K : Z) (o : Oracle) : Prop :=
  forall hist block i pageSize page,
    K <= i ->
    o hist _ (ProviderSend TPage "ots_getBlockTransactions"
                [JString block; JNumber (Num i); JNumber pageSize]) = inr page ->
    lastPage page = true.

(** ** Further servers of the examples *)



(** A node that knows who created a contract and can trace the creation,
    but no longer has the transaction itself. *)
Definition pruned_server : Oracle :=
  fun _ X e =>
    match e in rpcE X return X with
    | ProviderSend t m ps =>
        match t return Error + denote t with
        | TContractCreator => inr {| cc_hash := "0x7a"; cc_creator := "0xdeb" |}
        | TTraceOperation =>
            inr (mkTraceOperation "CREATE" "0xdeb" "0xc0de" "0x0" "0x0" "0x" "0x" "0x0"
                   None None)
        | _ => inl (mkError "method not found")
        end
    | ProviderGetTransaction _ => inl (mkError "transaction not found")
    | SetTimeout _ => tt
    end.

(** A second record of block 140. *)
Definition tx140b : TransactionDetails := mkTx "0xb140" "0x8c".

(** A server that delivers one page of the history and is out of reach
    from then on. *)
Definition dropping_server : Oracle :=
  fun hist X e =>
    match e in rpcE X return X with
    | ProviderSend t m ps =>
        match t return Error + denote t with
        | TPage =>
            match hist with
            | [] => inr (mkPage [tx180; tx150] false false)
            | _ :: _ => inl (mkError "connection lost")
            end
        | _ => inl (mkError "method not found")
        end
    | ProviderGetTransaction _ => inl (mkError "method not found")
    | SetTimeout _ => tt
    end.

(** A server whose only page of the history holds two records of block
    140 after the record of block 150. *)
Definition same_block_server : Oracle :=
  fun _ X e =>
    match e in rpcE X return X with
    | ProviderSend t m ps =>
        match t return Error + denote t with
        | TPage => inr (mkPage [tx150; tx140b; tx140] true false)
        | _ => inl (mkError "method not found")
        end
    | ProviderGetTransaction _ => inl (mkError "method not found")
    | SetTimeout _ => tt
    end.

(** A server that answers every request for a page of the history with the
    same page, the record of block 150, never flagged as the first page. *)
Definition looping_server : Oracle :=
  fun _ X e =>
    match e in rpcE X return X with
    | ProviderSend t m ps =>
        match t return Error + denote t with
        | TPage => inr (mkPage [tx150] false false)
        | _ => inl (mkError "method not found")
        end
    | ProviderGetTransaction _ => inl (mkError "method not found")
    | SetTimeout _ => tt
    end.

(** A server that answers every request for a page of a block with the
    same page, never flagged as the last one. *)
Definition endless_block_server : Oracle :=
  fun _ X e =>
    match e in rpcE X return X with
    | ProviderSend t m ps =>
        match t return Error + denote t with
        | TBlockDetails => inr block_18500000
        | TPage => inr (mkPage [txA] true false)
        | _ => inl (mkError "method not found")
        end
    | ProviderGetTransaction _ => inl (mkError "method not found")
    | SetTimeout _ => tt
    end.

(** * Lemmas and theorems *)

Example parseInt16_b4 : parseInt16 "0xb4" = Num 180.
Proof. reflexivity. Qed.

Example toString16_179 : toString16 (Num 179) = "b3".
Proof. reflexivity. Qed.

Section RunsFacts.

Context {R : Type}.

Lemma Runs_ret (r : R) : Runs (Ret r) [] r.
Proof. constructor. Qed.

Lemma Runs_ret_inv (r r' : R) tr : Runs (Ret r) tr r' -> tr = [] /\ r' = r.
Proof. unfold Runs; cbn; intros H; inversion H; auto. Qed.

Lemma Runs_tau (t : itree rpcE R) tr r : Runs t tr r -> Runs (Tau t) tr r.
Proof. intros H; constructor; exact H. Qed.

Lemma Runs_tau_inv (t : itree rpcE R) tr r : Runs (Tau t) tr r -> Runs t tr r.
Proof. unfold Runs; cbn; intros H; inversion H; auto. Qed.

Lemma Runs_vis {X} (e : rpcE X) (k : X -> itree rpcE R) x tr r :
  Runs (k x) tr r -> Runs (Vis e k) (Answer e x :: tr) r.
Proof. intros H; constructor; exact H. Qed.

Lemma Runs_vis_inv {X} (e : rpcE X) (k : X -> itree rpcE R) tr r :
  Runs (Vis e k) tr r ->
  exists x tr', tr = Answer e x :: tr' /\ Runs (k x) tr' r.
Proof.
  unfold Runs; cbn; intros H.
  dependent destruction H.
  eauto.
Qed.

Lemma Runs_observe (t u : itree rpcE R) tr r :
  observe t = observe u -> Runs t tr r -> Runs u tr r.
Proof. unfold Runs; intros ->; auto. Qed.

(** The same exchanges lead to the same result. *)
Lemma RunsF_result_unique (ot : itree' rpcE R) tr r r' :
  RunsF ot tr r -> RunsF ot tr r' -> r = r'.
Proof.
  induction 1; intros H'.
  - inversion H'; auto.
  - inversion H'; subst; auto.
  - dependent destruction H'; auto.
Qed.

(** A run that has ended has no continuation: the exchanges of a run are
    never a proper prefix of the exchanges of another run. *)
Lemma RunsF_prefix_unique (ot : itree' rpcE R) tr1 r1 :
  RunsF ot tr1 r1 -> forall tr2 r2, RunsF ot (tr1 ++ tr2) r2 -> tr2 = [] /\ r1 = r2.
Proof.
  induction 1 as [r|t tr r H IH|X e k x tr r H IH]; intros tr2 r2 H'.
  - inversion H'; auto.
  - inversion H'; subst; auto.
  - cbn [app] in H'; dependent destruction H'; auto.
Qed.

Lemma exec_sound fuel (o : Oracle) : forall hist (t : itree rpcE R) tr r,
  exec fuel o hist t = Some (tr, r) -> Runs t tr r.
Proof.
  induction fuel as [|fuel IH]; cbn; intros hist t tr r H; [discriminate|].
  unfold Runs.
  destruct (observe t) as [r0|t'|X e k].
  - inversion H; subst; constructor.
  - constructor; eapply IH; eauto.
  - destruct (exec fuel o _ (k (o hist X e))) as [[tr' r']|] eqn:E; [|discriminate].
    inversion H; subst.
    constructor; eapply IH; eauto.
Qed.

End RunsFacts.

Lemma Runs_trigger {X} (e : rpcE X) (x : X) : Runs (ITree.trigger e) [Answer e x] x.
Proof. unfold Runs; cbn; constructor; cbn; constructor. Qed.

Lemma Runs_trigger_inv {X} (e : rpcE X) tr (x : X) :
  Runs (ITree.trigger e) tr x -> tr = [Answer e x].
Proof.
  intros H.
  apply (@Runs_vis_inv X X e (fun y => Ret y)) in H.
  destruct H as (y & tr' & -> & H).
  apply Runs_ret_inv in H; destruct H as [-> ->]; reflexivity.
Qed.

Section RunsBind.

Context {T U : Type}.

Lemma Runs_bind (t : itree rpcE T) (k : T -> itree rpcE U) tr1 tr2 x r :
  Runs t tr1 x -> Runs (k x) tr2 r -> Runs (ITree.bind t k) (tr1 ++ tr2) r.
Proof.
  unfold Runs; intros H; revert k tr2 r.
  remember (observe t) as ot eqn:Eo; revert t Eo.
  induction H as [x|t' tr1 x H IH|X e h y tr1 x H IH]; intros t Eo k tr2 r Hk;
    rewrite observe_bind, <- Eo; cbn.
  - exact Hk.
  - constructor; eapply IH; eauto.
  - constructor; eapply IH; eauto.
Qed.

Lemma Runs_bind_inv (t : itree rpcE T) (k : T -> itree rpcE U) tr r :
  Runs (ITree.bind t k) tr r ->
  exists tr1 tr2 x, tr = tr1 ++ tr2 /\ Runs t tr1 x /\ Runs (k x) tr2 r.
Proof.
  unfold Runs; intros H.
  remember (observe (ITree.bind t k)) as ot eqn:Eo; revert t Eo.
  induction H as [r|t' tr r H IH|X e h y tr r H IH]; intros t Eo;
    rewrite observe_bind in Eo; destruct (observe t) as [x|t0|Y e0 h0] eqn:Et;
    cbn in Eo; try discriminate.
  - exists [], [], x; rewrite <- Eo; repeat split; constructor.
  - exists [], tr, x; rewrite <- Eo; repeat split; constructor; exact H.
  - inversion Eo; subst t'.
    destruct (IH t0 eq_refl) as (tr1 & tr2 & x & -> & H1 & H2).
    exists tr1, tr2, x; repeat split; auto; constructor; exact H1.
  - exists [], (Answer e y :: tr), x; rewrite <- Eo; repeat split;
      constructor; exact H.
  - dependent destruction Eo.
    destruct (IH (h0 y) eq_refl) as (tr1 & tr2 & x & -> & H1 & H2).
    exists (Answer e0 y :: tr1), tr2, x; repeat split; auto; constructor; exact H1.
Qed.

End RunsBind.

Lemma Runs_trigger_bind {X U} (e : rpcE X) (k : X -> itree rpcE U) x tr r :
  Runs (k x) tr r -> Runs (ITree.bind (ITree.trigger e) k) (Answer e x :: tr) r.
Proof. intros H; apply (Runs_bind _ _ _ _ _ _ (Runs_trigger e x) H). Qed.

Lemma Runs_ret_bind {T U} (x : T) (k : T -> itree rpcE U) tr r :
  Runs (k x) tr r -> Runs (ITree.bind (Ret x) k) tr r.
Proof. intros H; apply (Runs_bind _ _ _ _ _ _ (Runs_ret x) H). Qed.

Section RunsIter.

Context {I R : Type} (body : I -> itree rpcE (I + R)).

Lemma Runs_iter_again i i' tr1 tr2 r :
  Runs (body i) tr1 (inl i') -> Runs (ITree.iter body i') tr2 r ->
  Runs (ITree.iter body i) (tr1 ++ tr2) r.
Proof.
  intros H1 H2.
  eapply Runs_observe; [symmetry; apply (unfold_aloop_ body i)|].
  eapply Runs_bind; [exact H1|]; cbn.
  apply Runs_tau; exact H2.
Qed.

Lemma Runs_iter_stop i tr r :
  Runs (body i) tr (inr r) -> Runs (ITree.iter body i) tr r.
Proof.
  intros H.
  eapply Runs_observe; [symmetry; apply (unfold_aloop_ body i)|].
  rewrite <- (app_nil_r tr).
  eapply Runs_bind; [exact H|]; cbn.
  apply Runs_ret.
Qed.

Lemma Runs_iter_inv i tr r :
  Runs (ITree.iter body i) tr r ->
  (Runs (body i) tr (inr r)) \/
  (exists tr1 tr2 i', tr = tr1 ++ tr2 /\ Runs (body i) tr1 (inl i') /\
                      Runs (ITree.iter body i') tr2 r).
Proof.
  intros H.
  eapply Runs_observe in H; [|apply (unfold_aloop_ body i)].
  apply Runs_bind_inv in H; destruct H as (tr1 & tr2 & [i'|r'] & -> & H1 & H2).
  - right; exists tr1, tr2, i'; repeat split; auto.
    apply Runs_tau_inv; exact H2.
  - left; apply Runs_ret_inv in H2; destruct H2 as [-> ->].
    rewrite app_nil_r; exact H1.
Qed.

(** Induction on the turns of a loop that ends. *)
Lemma Runs_iter_ind (P : I -> list Entry -> R -> Prop) :
  (forall i tr r, Runs (body i) tr (inr r) -> P i tr r) ->
  (forall i i' tr1 tr2 r,
      Runs (body i) tr1 (inl i') -> Runs (ITree.iter body i') tr2 r ->
      P i' tr2 r -> P i (tr1 ++ tr2) r) ->
  forall i tr r, Runs (ITree.iter body i) tr r -> P i tr r.
Proof.
  intros Hstop Hagain.
  pose (K := fun lr : I + R =>
               match lr with
               | inl l => Tau (ITree.iter body l)
               | inr r => Ret r
               end).
  assert (G : forall (ot : itree' rpcE R) tr r, RunsF ot tr r ->
            forall t : itree rpcE (I + R), ot = observe (ITree.bind t K) ->
            exists tr1 tr2 lr, tr = tr1 ++ tr2 /\ Runs t tr1 lr /\
              match lr with
              | inr r' => r' = r /\ tr2 = []
              | inl i' => Runs (ITree.iter body i') tr2 r /\ P i' tr2 r
              end).
  { assert (Close : forall i tr r,
              (exists tr1 tr2 lr, tr = tr1 ++ tr2 /\ Runs (body i) tr1 lr /\
                 match lr with
                 | inr r' => r' = r /\ tr2 = []
                 | inl i' => Runs (ITree.iter body i') tr2 r /\ P i' tr2 r
                 end) -> P i tr r).
    { intros i tr r (tr1 & tr2 & [i'|r'] & -> & H1 & H2).
      - destruct H2 as [H2 H3]; eapply Hagain; eauto.
      - destruct H2 as [-> ->]; rewrite app_nil_r; apply Hstop; exact H1. }
    induction 1 as [r|t' tr r H IH|X e h y tr r H IH]; intros t Eo;
      rewrite observe_bind in Eo; destruct (observe t) as [[i'|r']|t0|Y e0 h0] eqn:Et;
      cbn in Eo; try discriminate.
    - inversion Eo; subst r'.
      exists [], [], (inr r); repeat split; unfold Runs; rewrite Et; constructor.
    - inversion Eo; subst t'.
      exists [], tr, (inl i'); repeat split.
      + unfold Runs; rewrite Et; constructor.
      + exact H.
      + apply Close, IH. apply (unfold_aloop_ body i').
    - inversion Eo; subst t'.
      destruct (IH t0 eq_refl) as (tr1 & tr2 & lr & -> & H1 & H2).
      exists tr1, tr2, lr; repeat split; auto.
      unfold Runs; rewrite Et; constructor; exact H1.
    - dependent destruction Eo.
      destruct (IH (h0 y) eq_refl) as (tr1 & tr2 & lr & -> & H1 & H2).
      exists (Answer e0 y :: tr1), tr2, lr; repeat split; auto.
      unfold Runs; rewrite Et; constructor; exact H1. }
  intros i tr r H.
  destruct (G _ _ _ H (body i) (observing_observe (unfold_aloop_ body i)))
    as (tr1 & tr2 & [i'|r'] & -> & H1 & H2).
  - destruct H2 as [H2 H3]; eapply Hagain; eauto.
  - destruct H2 as [-> ->]; rewrite app_nil_r; apply Hstop; exact H1.
Qed.

End RunsIter.

Ltac runs_inv :=
  repeat match goal with
    | H : Runs (ITree.bind _ _) _ _ |- _ =>
        let tr1 := fresh "tr" in
        let tr2 := fresh "tr" in
        let x := fresh "x" in
        let E := fresh "Etr" in
        apply Runs_bind_inv in H; destruct H as (tr1 & tr2 & x & E & ? & ?);
        try subst
    | H : Runs (Ret _) _ _ |- _ =>
        apply Runs_ret_inv in H; destruct H as [? ?]; try subst
    | H : Runs (Tau _) _ _ |- _ => apply Runs_tau_inv in H
    | H : Runs (ITree.trigger _) _ _ |- _ => apply Runs_trigger_inv in H; try subst
    | H : inl _ = inl _ |- _ => inversion H; clear H; try subst
    | H : inr _ = inr _ |- _ => inversion H; clear H; try subst
    | H : inl _ = inr _ |- _ => discriminate H
    | H : inr _ = inl _ |- _ => discriminate H
    end.

(** ** The dispatcher: [makeRpcCall] *)

Section Dispatcher.

Variable this : OtterscanClient.
Variable t : ResultType.
Variable method : string.
Variable params : list Json.

Lemma send_count_failed_attempts errors :
  send_count (failed_attempts this t method params errors) = List.length errors.
Proof.
  induction errors as [|e rest IH]; [reflexivity|].
  destruct rest as [|e' rest]; [reflexivity|].
  unfold send_count in *; cbn in *; rewrite IH; reflexivity.
Qed.

Lemma failures_failed_attempts errors :
  failures (failed_attempts this t method params errors) = errors.
Proof.
  induction errors as [|e rest IH]; [reflexivity|].
  destruct rest as [|e' rest]; [reflexivity|].
  unfold failures in *; cbn in *; rewrite IH; reflexivity.
Qed.

Lemma last_nonempty_default {A} (y : A) l d d' : last (y :: l) d = last (y :: l) d'.
Proof.
  revert y; induction l as [|z l IH]; intros y; [reflexivity|].
  change (last (z :: l) d = last (z :: l) d'); apply IH.
Qed.

Lemma last_cons_nonempty {A} (x y : A) l d : last (x :: y :: l) d = last (y :: l) x.
Proof.
  change (last (y :: l) d = last (y :: l) x); apply last_nonempty_default.
Qed.

Section Attempts.

Variable N : Z.
Hypothesis retries_N : retries (options this) = Num N.

Lemma makeRpcCall_body_eq a lastError :
  makeRpcCall_body this t method params (Num a, lastError) =
  if a <? N then
    r <- ITree.trigger (ProviderSend t method params) ;;
    match r with
    | inr result => Ret (inr (inr result))
    | inl error =>
        (if a <? N - 1
         then ITree.trigger (SetTimeout (retryDelay (options this)))
         else Ret tt) ;;
        Ret (inl (Num (a + 1), error))
    end
  else Ret (inr (inl (exhausted this lastError))).
Proof. unfold makeRpcCall_body, exhausted; rewrite retries_N; reflexivity. Qed.

(** From attempt [a], with [N - a] attempts left that all fail. *)
Lemma makeRpcCall_all_fail errors : forall a lastError,
  0 <= a -> Z.of_nat (List.length errors) = N - a ->
  Runs (ITree.iter (makeRpcCall_body this t method params) (Num a, lastError))
       (failed_attempts this t method params errors)
       (inl (exhausted this (last errors lastError))).
Proof.
  induction errors as [|e rest IH]; intros a lastError Ha Hlen.
  - apply Runs_iter_stop; rewrite makeRpcCall_body_eq; cbn in Hlen.
    replace (a <? N) with false by (symmetry; apply Z.ltb_ge; lia).
    apply Runs_ret.
  - cbn [List.length] in Hlen.
    change (failed_attempts this t method params (e :: rest)) with
      (Answer (ProviderSend t method params) (inl e)
         :: match rest with
            | [] => []
            | _ :: _ => Answer (SetTimeout (retryDelay (options this))) tt
                          :: failed_attempts this t method params rest
            end).
    assert (Hturn : Runs (makeRpcCall_body this t method params (Num a, lastError))
              (Answer (ProviderSend t method params) (inl e)
                 :: match rest with
                    | [] => []
                    | _ :: _ => [Answer (SetTimeout (retryDelay (options this))) tt]
                    end)
              (inl (Num (a + 1), e))).
    { rewrite makeRpcCall_body_eq.
      replace (a <? N) with true by (symmetry; apply Z.ltb_lt; lia).
      apply Runs_trigger_bind.
      destruct rest as [|e' rest].
      - replace (a <? N - 1) with false by (symmetry; apply Z.ltb_ge; cbn in Hlen; lia).
        apply Runs_ret_bind, Runs_ret.
      - replace (a <? N - 1) with true
          by (symmetry; apply Z.ltb_lt; cbn [List.length] in Hlen; lia).
        apply Runs_trigger_bind, Runs_ret. }
    assert (Hrest := IH (a + 1) e ltac:(lia) ltac:(lia)).
    destruct rest as [|e' rest].
    + apply (Runs_iter_again _ _ _ _ _ _ Hturn Hrest).
    + rewrite last_cons_nonempty.
      apply (Runs_iter_again _ _ _ _ _ _ Hturn Hrest).
Qed.

(** Conversely, a run from attempt [a] in which no call is fulfilled makes
    all the attempts that are left. *)
Lemma makeRpcCall_no_success_inv : forall st tr r,
  Runs (ITree.iter (makeRpcCall_body this t method params) st) tr r ->
  forall a lastError, st = (Num a, lastError) -> 0 <= a <= N ->
  forallb (fun en => negb (fulfilled en)) tr = true ->
  exists errors,
    Z.of_nat (List.length errors) = N - a /\
    tr = failed_attempts this t method params errors /\
    r = inl (exhausted this (last errors lastError)).
Proof.
  intros st tr r H.
  pattern st, tr, r.
  revert st tr r H; apply Runs_iter_ind.
  - intros st tr r H a lastError -> Ha Hno.
    rewrite makeRpcCall_body_eq in H.
    destruct (Z.ltb_spec a N) as [Hlt|Hge].
    + runs_inv. destruct x as [e|v]; runs_inv; discriminate.
    + runs_inv. exists []; cbn; repeat split; auto; lia.
  - intros st st' tr1 tr2 r H1 H2 IH a lastError -> Ha Hno.
    rewrite makeRpcCall_body_eq in H1.
    destruct (Z.ltb_spec a N) as [Hlt|Hge]; [|runs_inv].
    runs_inv. destruct x as [e|v]; runs_inv.
    rewrite app_nil_r in Hno |- *.
    cbn [app forallb] in Hno; apply andb_prop in Hno; destruct Hno as [_ Hno].
    rewrite forallb_app in Hno; apply andb_prop in Hno; destruct Hno as [_ Hno].
    destruct (Z.ltb_spec a (N - 1)) as [Hlt'|Hge']; runs_inv;
      repeat match goal with u : unit |- _ => destruct u end;
      destruct (IH (a + 1) e eq_refl ltac:(lia) Hno) as (errors & Hlen & -> & ->);
      exists (e :: errors); cbn [List.length]; (split; [lia|]);
      (destruct errors as [|e' errors]; [|rewrite last_cons_nonempty]);
      cbn [List.length] in Hlen; try lia; split; reflexivity.
Qed.

End Attempts.

End Dispatcher.

(** ** Claims about the dispatcher *)

(** C1. Retry bound: for a dispatcher configured with [maxAttempts = N],
    [N >= 1], a call whose every attempt fails invokes the transport exactly
    [N] times and raises one terminal failure after the [N]th attempt; the
    failure reports the attempt count and the message of the last failure
    observed, the earlier ones are dropped.  First half: whatever [N] errors
    the transport throws, the call runs through the [N] attempts, with a
    delay after each but the last, and rejects with that message.  Second
    half: every run in which no attempt is fulfilled has this shape. *)
Theorem C1_retry_bound (this : OtterscanClient) (t : ResultType) (method : string)
    (params : list Json) (N : Z) :
  retries (options this) = Num N ->
  1 <= N ->
  (forall errors : list Error,
      Z.of_nat (List.length errors) = N ->
      Runs (makeRpcCall this t method params)
           (failed_attempts this t method params errors)
           (inl (mkError ("RPC call failed after " ++ toString10 (Num N)
                          ++ " attempts: "
                          ++ message (last errors (mkError "Unknown error"))))))
  /\
  (forall tr r,
      Runs (makeRpcCall this t method params) tr r ->
      forallb (fun en => negb (fulfilled en)) tr = true ->
      send_count tr = Z.to_nat N /\
      tr = failed_attempts this t method params (failures tr) /\
      exists earlier lastError,
        failures tr = earlier ++ [lastError] /\
        r = inl (mkError ("RPC call failed after " ++ toString10 (Num N)
                          ++ " attempts: " ++ message lastError))).
Proof.
  intros HN Hpos; split.
  - intros errors Hlen.
    pose proof (@makeRpcCall_all_fail this t method params N HN errors 0
                  (mkError "Unknown error") (Z.le_refl 0)) as H.
    unfold exhausted in H; rewrite HN in H.
    apply H; lia.
  - intros tr r H Hno.
    destruct (@makeRpcCall_no_success_inv this t method params N HN _ tr r H
                0 _ eq_refl ltac:(lia) Hno) as (errors & Hlen & -> & ->).
    rewrite send_count_failed_attempts, failures_failed_attempts.
    repeat split; [lia|].
    destruct errors as [|e errors] using rev_ind; [cbn in Hlen; lia|].
    exists errors, e; split; [reflexivity|].
    unfold exhausted; rewrite HN, last_last; reflexivity.
Qed.

Lemma C1_retry_bound_witness :
  retries (options default_client) = Num 3 /\
  1 <= 3 /\
  Runs (makeRpcCall default_client TNumber "ots_getApiLevel" [])
       [ Answer (ProviderSend TNumber "ots_getApiLevel" []) (inl (mkError "timeout"));
         Answer (SetTimeout (Num 1000)) tt;
         Answer (ProviderSend TNumber "ots_getApiLevel" []) (inl (mkError "reset"));
         Answer (SetTimeout (Num 1000)) tt;
         Answer (ProviderSend TNumber "ots_getApiLevel" []) (inl (mkError "refused")) ]
       (inl (mkError "RPC call failed after 3 attempts: refused")).
Proof.
  split; [reflexivity|]; split; [lia|].
  exact (proj1 (@C1_retry_bound default_client TNumber "ots_getApiLevel" []
                  3 eq_refl ltac:(lia))
           [mkError "timeout"; mkError "reset"; mkError "refused"] eq_refl).
Defined.

(** ** Hexadecimal cursors read back *)

Lemma digit_value_hex_digit d : 0 <= d < 16 -> digit_value (hex_digit d) = Some d.
Proof.
  intros Hd.
  assert (D : d = 0 \/ d = 1 \/ d = 2 \/ d = 3 \/ d = 4 \/ d = 5 \/ d = 6 \/ d = 7 \/
              d = 8 \/ d = 9 \/ d = 10 \/ d = 11 \/ d = 12 \/ d = 13 \/ d = 14 \/ d = 15)
    by lia.
  repeat (destruct D as [->|D]; [reflexivity|]); subst; reflexivity.
Qed.

Lemma parse_hex_digits fuel : forall n rest seen,
  0 <= n < 2 ^ Z.of_nat (S fuel) ->
  parse_digits (hex_digits (S fuel) n rest) 0 seen = parse_digits rest n true.
Proof.
  induction fuel as [|fuel IH]; intros n rest seen Hn.
  - cbn [hex_digits].
    assert (Hq : n / 16 = 0) by (apply Z.div_small; change (2 ^ Z.of_nat 1) with 2 in Hn; lia).
    rewrite Hq; cbn [Z.eqb parse_digits].
    rewrite digit_value_hex_digit by (apply Z.mod_pos_bound; lia).
    rewrite Z.mod_small by (change (2 ^ Z.of_nat 1) with 2 in Hn; lia).
    reflexivity.
  - change (hex_digits (S (S fuel)) n rest) with
      (if n / 16 =? 0 then String (hex_digit (n mod 16)) rest
       else hex_digits (S fuel) (n / 16) (String (hex_digit (n mod 16)) rest)).
    destruct (Z.eqb_spec (n / 16) 0) as [Hq|Hq].
    + cbn [parse_digits]. rewrite digit_value_hex_digit by (apply Z.mod_pos_bound; lia).
      rewrite (Z.div_mod n 16) at 2 by lia. rewrite Hq.
      f_equal; lia.
    + rewrite IH.
      * cbn [parse_digits]. rewrite digit_value_hex_digit by (apply Z.mod_pos_bound; lia).
        rewrite (Z.div_mod n 16) at 3 by lia. reflexivity.
      * split; [apply Z.div_pos; lia|].
        apply Z.div_lt_upper_bound; [lia|].
        rewrite (Nat2Z.inj_succ (S fuel)), Z.pow_succ_r in Hn by lia. lia.
Qed.

Lemma parse_hex_of_nonneg n : 0 <= n -> parse_digits (hex_of_nonneg n) 0 false = (n, true).
Proof.
  intros Hn; unfold hex_of_nonneg.
  rewrite parse_hex_digits; [reflexivity|].
  split; [exact Hn|].
  rewrite Nat2Z.inj_succ, Z2Nat.id by apply Z.log2_nonneg.
  destruct (Z.eq_dec n 0) as [->|Hne]; [reflexivity|].
  apply Z.log2_spec; lia.
Qed.

(** Round trip of the cursor encoding: [parseInt(`0x${n.toString(16)}`, 16)]
    gives [n] back when [n] is a non-negative integer, and [NaN] otherwise
    (the strings [0x-1] and [0xNaN] have no digit after the prefix). *)
Lemma parseInt16_hexParam (n : number) :
  parseInt16 (hexParam (Number n)) =
  match n with
  | Num z => if z <? 0 then NaN else Num z
  | NaN => NaN
  end.
Proof.
  destruct n as [z|]; [|reflexivity].
  unfold hexParam, toString16.
  destruct (Z.ltb_spec z 0) as [Hneg|Hpos]; [reflexivity|].
  change (parseInt16 ("0x" ++ hex_of_nonneg z))
    with (let (v, seen) := parse_digits (hex_of_nonneg z) 0 false in
          if seen then Num (1 * v) else NaN).
  rewrite parse_hex_of_nonneg by exact Hpos.
  f_equal; lia.
Qed.

Lemma hexParam_not_latest n : hexParam (Number n) <> "latest".
Proof. unfold hexParam; cbn; discriminate. Qed.

(** ** The final sort *)

Lemma sort_insert_perm {A} (cmp : A -> A -> number) x l :
  Permutation (sort_insert cmp x l) (x :: l).
Proof.
  induction l as [|y l IH]; cbn; [reflexivity|].
  destruct (cmp_positive (cmp x y)); [|reflexivity].
  rewrite IH; apply perm_swap.
Qed.

Lemma Array_sort_perm {A} (cmp : A -> A -> number) l : Permutation (Array_sort cmp l) l.
Proof.
  induction l as [|x l IH]; cbn; [reflexivity|].
  rewrite sort_insert_perm; constructor; exact IH.
Qed.

Lemma Array_sort_In {A} (cmp : A -> A -> number) l x : In x (Array_sort cmp l) <-> In x l.
Proof.
  split; apply Permutation_in; [|symmetry]; apply Array_sort_perm.
Qed.

Lemma sort_insert_sorted x l :
  numeric_block x -> Forall numeric_block l ->
  StronglySorted block_le l ->
  StronglySorted block_le (sort_insert compareBlockNumber x l).
Proof.
  intros [bx Hx] Hl Hs; induction Hs as [|y l Hs IH Hy]; cbn.
  - repeat constructor.
  - inversion Hl as [|? ? [b Hb] Hl']; subst.
    unfold compareBlockNumber. fold (blockNum x) (blockNum y). rewrite Hx, Hb; cbn.
    destruct (Z.ltb_spec 0 (bx - b)) as [Hgt|Hle].
    + constructor; [apply IH; exact Hl'|].
      eapply Permutation_Forall; [symmetry; apply sort_insert_perm|].
      constructor; [|exact Hy].
      unfold block_le; rewrite Hx, Hb; cbn; apply Z.leb_le; lia.
    + constructor; [constructor; assumption|].
      constructor; [unfold block_le; rewrite Hx, Hb; cbn; apply Z.leb_le; lia|].
      rewrite Forall_forall in Hy, Hl' |- *; intros z Hz.
      specialize (Hy z Hz); destruct (Hl' z Hz) as [bz Hbz].
      unfold block_le in *; rewrite Hx, Hb, Hbz in *; cbn in *.
      apply Z.leb_le; apply Z.leb_le in Hy; lia.
Qed.

Lemma Array_sort_sorted l :
  Forall numeric_block l -> StronglySorted block_le (Array_sort compareBlockNumber l).
Proof.
  induction 1 as [|x l Hx Hl IH]; cbn; [constructor|].
  apply sort_insert_sorted; auto.
  eapply Permutation_Forall; [symmetry; apply Array_sort_perm|exact Hl].
Qed.

Set Implicit Arguments.
Unset Strict Implicit.

(** ** What a call of the dispatcher leaves in the list of exchanges *)

Lemma fetched_pages_app tr1 tr2 :
  fetched_pages (tr1 ++ tr2) = fetched_pages tr1 ++ fetched_pages tr2.
Proof. apply flat_map_app. Qed.

Lemma page_of_fulfilled en x : page_of en = Some x -> fulfilled en = true.
Proof.
  destruct en as [X e y]; destruct e as [t m ps| |]; cbn; try discriminate.
  destruct t; try discriminate; destruct y; [discriminate|reflexivity].
Qed.

Lemma fetched_pages_fulfilled tr : fetched_pages (filter fulfilled tr) = fetched_pages tr.
Proof.
  induction tr as [|en tr IH]; [reflexivity|]; cbn [filter].
  change (fetched_pages (en :: tr)) with
    (match page_of en with Some (_, _, p) => [p] | None => [] end ++ fetched_pages tr).
  destruct (fulfilled en) eqn:Ef.
  - change (fetched_pages (en :: filter fulfilled tr)) with
      (match page_of en with Some (_, _, p) => [p] | None => [] end
         ++ fetched_pages (filter fulfilled tr)).
    rewrite IH; reflexivity.
  - destruct (page_of en) as [x|] eqn:Ep; [|exact IH].
    apply page_of_fulfilled in Ep; congruence.
Qed.

Section DispatcherOutcome.

Variable this : OtterscanClient.
Variable t : ResultType.
Variable method : string.
Variable params : list Json.

(** The exchanges of one call are attempts of this call and delays; the
    only fulfilled attempt, if any, is the last exchange and carries the
    value the call returns. *)
Lemma makeRpcCall_outcome tr r :
  Runs (makeRpcCall this t method params) tr r ->
  Forall (fun en => (exists x, en = Answer (ProviderSend t method params) x) \/
                    en = Answer (SetTimeout (retryDelay (options this))) tt) tr /\
  filter fulfilled tr = match r with
                        | inr v => [Answer (ProviderSend t method params) (inr v)]
                        | inl _ => []
                        end.
Proof.
  unfold makeRpcCall.
  generalize (Num 0, mkError "Unknown error") as st.
  intros st H; pattern st, tr, r; revert st tr r H; apply Runs_iter_ind.
  - intros [attempt lastError] tr r H; unfold makeRpcCall_body in H.
    destruct (ltb attempt (retries (options this))); runs_inv.
    + destruct x as [e|v]; runs_inv.
      split; [repeat constructor; eauto|reflexivity].
    + split; [constructor|reflexivity].
  - intros [attempt lastError] st' tr1 tr2 r H1 H2 [IH1 IH2]; unfold makeRpcCall_body in H1.
    destruct (ltb attempt (retries (options this))); runs_inv.
    destruct x as [e|v]; runs_inv.
    rewrite app_nil_r, filter_app, IH2.
    destruct (ltb attempt (sub (retries (options this)) (Num 1))); runs_inv;
      repeat match goal with u : unit |- _ => destruct u end;
      (split; [|reflexivity]);
      (apply Forall_app; split; [|exact IH1]).
    + constructor; [left; eauto|].
      constructor; [right; reflexivity|constructor].
    + constructor; [left; eauto|constructor].
Qed.

(** A call makes an attempt before anything else, or makes none at all. *)
Lemma makeRpcCall_first_exchange tr r :
  Runs (makeRpcCall this t method params) tr r ->
  if ltb (Num 0) (retries (options this))
  then exists x rest, tr = Answer (ProviderSend t method params) x :: rest
  else tr = [] /\ exists e, r = inl e.
Proof.
  unfold makeRpcCall; intros H.
  apply Runs_iter_inv in H.
  destruct H as [H|(tr1 & tr2 & st' & -> & H & _)]; unfold makeRpcCall_body in H;
    destruct (ltb (Num 0) (retries (options this))); runs_inv; eauto;
    destruct x as [e|v]; runs_inv; cbn [app]; eauto.
Qed.

End DispatcherOutcome.

Lemma makeRpcCall_page this method params tr r :
  Runs (makeRpcCall this TPage method params) tr r ->
  fetched_pages tr = match r with inr p => [p] | inl _ => [] end /\
  forall p, r = inr p -> In (Answer (ProviderSend TPage method params) (inr p)) tr.
Proof.
  intros H; apply makeRpcCall_outcome in H; destruct H as [_ H].
  rewrite <- fetched_pages_fulfilled, H.
  split; [destruct r; reflexivity|].
  intros p ->.
  assert (Hin : In (Answer (ProviderSend TPage method params) (inr p)) (filter fulfilled tr))
    by (rewrite H; left; reflexivity).
  apply filter_In in Hin; tauto.
Qed.

(** ** The backward traversal, turn by turn *)

Lemma filter_length_all {A} (f : A -> bool) l :
  (List.length l <= List.length (filter f l))%nat -> filter f l = l.
Proof.
  induction l as [|x l IH]; cbn; [reflexivity|].
  destruct (f x); cbn; intros H.
  - f_equal; apply IH; lia.
  - pose proof (filter_length_le f l); lia.
Qed.

Lemma nth_error_last_app {A} (l : list A) x :
  nth_error l (List.length l - 1) = Some x -> exists front, l = front ++ [x].
Proof.
  intros H; destruct l as [|y l] using rev_ind; [discriminate|].
  rewrite length_app in H; cbn in H.
  replace (List.length l + 1 - 1)%nat with (List.length l) in H by lia.
  rewrite nth_error_app2, Nat.sub_diag in H by lia.
  inversion H; subst; eauto.
Qed.

Ltac unfold_async H :=
  unfold allSettled2, allSettled3, await, try_catch, resolve, throw in H.

Ltac runs_cases :=
  runs_inv;
  repeat match goal with
    | H : Runs (match ?x with _ => _ end) _ _ |- _ => destruct x; runs_inv
    end.

Section Backward.

Variable this : OtterscanClient.
Variable address : string.
Variable fromBlock : StringOrNumber.
Variable pageSize : number.

Local Notation "'body'" :=
  (getAllTransactionsForAddress_body this address fromBlock pageSize).
Local Notation "'request' cur" :=
  (searchTransactionsBefore this address (Str cur) pageSize) (at level 10, cur at level 9).

(** One turn: the page request, then one of the four ways the source
    goes on. *)
Lemma backward_turn_inv acc cur tr res :
  Runs (body (acc, cur)) tr res ->
  exists rp, Runs (request cur) tr rp /\
    match rp with
    | inl e => res = inr (inl e)
    | inr page =>
        (txs page = [] /\ res = inr (inr acc)) \/
        (txs page <> [] /\
         (firstPage page = true \/
          (List.length (kept fromBlock page) < List.length (txs page))%nat) /\
         res = inr (inr (acc ++ kept fromBlock page))) \/
        (txs page <> [] /\ firstPage page = false /\
         kept fromBlock page = txs page /\
         exists front earliestTx,
           txs page = front ++ [earliestTx] /\
           res = inl (acc ++ txs page,
                      ("0x" ++ toString16 (sub (blockNum earliestTx) (Num 1)))%string))
    end.
Proof.
  unfold getAllTransactionsForAddress_body; intros H; runs_inv.
  destruct x as [e|page]; runs_inv.
  { exists (inl e); rewrite app_nil_r; split; [assumption|reflexivity]. }
  fold (kept fromBlock page) in *.
  destruct (Nat.eqb_spec (List.length (txs page)) 0) as [Hempty|Hne]; runs_inv.
  { exists (inr page); rewrite app_nil_r; split; [assumption|].
    left; split; [|reflexivity].
    destruct (txs page); [reflexivity|discriminate]. }
  assert (Hne' : txs page <> []) by (intros E; rewrite E in Hne; apply Hne; reflexivity).
  destruct (firstPage page) eqn:Ef; cbn [orb] in *; runs_inv.
  { exists (inr page); rewrite app_nil_r; split; [assumption|].
    right; left; repeat split; auto. }
  destruct (Nat.ltb_spec (List.length (kept fromBlock page)) (List.length (txs page)))
    as [Hlt|Hge]; runs_inv.
  { exists (inr page); rewrite app_nil_r; split; [assumption|].
    right; left; repeat split; auto. }
  assert (Hall : kept fromBlock page = txs page) by (apply filter_length_all; exact Hge).
  destruct (nth_error (txs page) (List.length (txs page) - 1)) as [earliestTx|] eqn:En;
    runs_inv.
  - destruct (nth_error_last_app En) as [front Hfront].
    exists (inr page); rewrite app_nil_r; split; [assumption|].
    right; right; repeat split; auto.
    exists front, earliestTx; split; [exact Hfront|].
    rewrite Hall; reflexivity.
  - apply nth_error_None in En.
    destruct (txs page); [congruence|cbn in En; lia].
Qed.

(** The three ways a turn goes on after a fulfilled page request. *)
Lemma backward_turn_empty acc cur tr page :
  Runs (request cur) tr (inr page) -> txs page = [] ->
  Runs (body (acc, cur)) tr (inr (inr acc)).
Proof.
  intros H Hempty; unfold getAllTransactionsForAddress_body.
  rewrite <- (app_nil_r tr); eapply Runs_bind; [exact H|]; cbn beta iota.
  rewrite Hempty; apply Runs_ret.
Qed.

Lemma backward_turn_stop acc cur tr page :
  Runs (request cur) tr (inr page) ->
  firstPage page = true \/
  (List.length (kept fromBlock page) < List.length (txs page))%nat ->
  Runs (body (acc, cur)) tr (inr (inr (acc ++ kept fromBlock page))).
Proof.
  intros H Hstop; unfold getAllTransactionsForAddress_body.
  rewrite <- (app_nil_r tr); eapply Runs_bind; [exact H|]; cbn beta iota.
  fold (kept fromBlock page).
  destruct (Nat.eqb_spec (List.length (txs page)) 0) as [Hempty|Hne].
  - assert (E : txs page = []) by (destruct (txs page); [reflexivity|discriminate]).
    unfold kept; rewrite E, app_nil_r; apply Runs_ret.
  - destruct (firstPage page); cbn [orb]; [apply Runs_ret|].
    destruct Hstop as [Hf|Hlt]; [discriminate|].
    apply Nat.ltb_lt in Hlt; rewrite Hlt; apply Runs_ret.
Qed.

Lemma backward_turn_again acc cur tr page front earliestTx :
  Runs (request cur) tr (inr page) ->
  firstPage page = false ->
  kept fromBlock page = txs page ->
  txs page = front ++ [earliestTx] ->
  Runs (body (acc, cur)) tr
       (inl (acc ++ txs page,
             ("0x" ++ toString16 (sub (blockNum earliestTx) (Num 1)))%string)).
Proof.
  intros H Hf Hall Hlast; unfold getAllTransactionsForAddress_body.
  rewrite <- (app_nil_r tr); eapply Runs_bind; [exact H|]; cbn beta iota.
  fold (kept fromBlock page); rewrite Hall, Hf, Nat.ltb_irrefl; cbn [orb].
  assert (Hlen : List.length (txs page) = S (List.length front))
    by (rewrite Hlast, length_app; cbn; lia).
  assert (Hnth : nth_error (txs page) (List.length (txs page) - 1) = Some earliestTx).
  { rewrite Hlen, Hlast; cbn [Nat.sub]; rewrite Nat.sub_0_r.
    rewrite nth_error_app2, Nat.sub_diag by lia; reflexivity. }
  rewrite Hnth, Hlen; cbn [Nat.eqb].
  apply Runs_ret.
Qed.


Lemma request_page cur tr rp :
  Runs (request cur) tr rp ->
  fetched_pages tr = match rp with inr p => [p] | inl _ => [] end /\
  (Forall honours_cursor tr -> forall p, rp = inr p -> before_cursor cur p).
Proof.
  unfold searchTransactionsBefore; cbn [hexParam]; intros H.
  destruct (makeRpcCall_page H) as [Hp Hin]; split; [exact Hp|].
  intros Hh p ->.
  rewrite Forall_forall in Hh.
  apply (Hh _ (Hin p eq_refl) address cur pageSize p); reflexivity.
Qed.

(** The loop appends to the aggregate, page by page, the records of the
    delivered pages that pass the filter. *)
Lemma backward_loop_result st tr r :
  Runs (ITree.iter body st) tr r ->
  forall res, r = inr res ->
  res = fst st ++ flat_map (kept fromBlock) (fetched_pages tr).
Proof.
  intros H; pattern st, tr, r; revert st tr r H; apply Runs_iter_ind.
  - intros [acc cur] tr r H res ->; cbn [fst].
    apply backward_turn_inv in H; destruct H as (rp & Hreq & Hres).
    destruct (request_page Hreq) as [Hp _]; rewrite Hp.
    destruct rp as [e|page]; [discriminate|].
    cbn [flat_map]; rewrite app_nil_r.
    destruct Hres as [[Hempty Hres]|[(_ & _ & Hres)|(_ & _ & _ & front & tx & _ & Hres)]];
      inversion Hres; subst; auto.
    unfold kept; rewrite Hempty, app_nil_r; reflexivity.
  - intros [acc cur] st' tr1 tr2 r H1 H2 IH res ->; cbn [fst].
    apply backward_turn_inv in H1; destruct H1 as (rp & Hreq & Hres).
    destruct (request_page Hreq) as [Hp _].
    rewrite fetched_pages_app, flat_map_app, Hp.
    destruct rp as [e|page]; [discriminate|].
    destruct Hres as [[_ Hres]|[(_ & _ & Hres)|(_ & _ & Hall & front & tx & _ & Hres)]];
      try discriminate.
    inversion Hres; subst st'.
    rewrite (IH res eq_refl); cbn [fst flat_map]; rewrite Hall, !app_nil_r, app_assoc.
    reflexivity.
Qed.

Lemma kept_In page tx :
  In tx (kept fromBlock page) ->
  In tx (txs page) /\ geb (blockNum tx) (fromBlockNum fromBlock) = true.
Proof. unfold kept; intros H; apply filter_In in H; exact H. Qed.

Lemma geb_numeric a b : geb a b = true -> exists x y, a = Num x /\ b = Num y /\ y <= x.
Proof.
  destruct a as [x|], b as [y|]; cbn; try discriminate.
  intros H; apply Z.leb_le in H; eauto.
Qed.

Lemma leb_numeric a b : leb a b = true -> exists x y, a = Num x /\ b = Num y /\ x <= y.
Proof.
  destruct a as [x|], b as [y|]; cbn; try discriminate.
  intros H; apply Z.leb_le in H; eauto.
Qed.

(** The cursor of the next turn, read back by the server. *)
Lemma next_cursor_value m :
  parseInt16 (String "0" (String "x" (toString16 (sub (Num m) (Num 1))))) =
  if m - 1 <? 0 then NaN else Num (m - 1).
Proof. exact (parseInt16_hexParam (Num (m - 1))). Qed.

Lemma sorted_last_least {A} (R : A -> A -> Prop) front e :
  StronglySorted R (front ++ [e]) -> forall x, In x front -> R x e.
Proof.
  induction front as [|y front IH]; cbn; intros Hs x Hx; [contradiction|].
  inversion Hs as [|? ? Hs' Hy]; subst.
  destruct Hx as [->|Hx]; [|apply IH; assumption].
  rewrite Forall_forall in Hy; apply Hy, in_or_app; right; left; reflexivity.
Qed.

(** With a server that honours the cursor, no delivered record is above the
    cursor the loop starts from. *)
Lemma backward_loop_below st tr r :
  Runs (ITree.iter body st) tr r ->
  Forall honours_cursor tr ->
  snd st <> "latest" ->
  forall page tx, In page (fetched_pages tr) -> In tx (txs page) ->
  leb (blockNum tx) (parseInt16 (snd st)) = true.
Proof.
  intros H; pattern st, tr, r; revert st tr r H; apply Runs_iter_ind.
  - intros [acc cur] tr r H Hh Hcur page tx Hpage Htx; cbn [snd] in *.
    apply backward_turn_inv in H; destruct H as (rp & Hreq & _).
    destruct (request_page Hreq) as [Hp Hb]; rewrite Hp in Hpage.
    destruct rp as [e|page']; [contradiction|].
    destruct Hpage as [<-|[]].
    destruct (Hb Hh _ eq_refl) as [Hl|Hbound]; [contradiction|auto].
  - intros [acc cur] st' tr1 tr2 r H1 H2 IH Hh Hcur page tx Hpage Htx; cbn [snd] in *.
    apply Forall_app in Hh; destruct Hh as [Hh1 Hh2].
    apply backward_turn_inv in H1; destruct H1 as (rp & Hreq & Hres).
    destruct (request_page Hreq) as [Hp Hb].
    rewrite fetched_pages_app, Hp in Hpage.
    destruct rp as [e|page']; [discriminate|].
    destruct (Hb Hh1 _ eq_refl) as [Hl|Hbound]; [contradiction|].
    destruct Hres as [[_ Hres]|[(_ & _ & Hres)|(_ & _ & Hall & front & etx & Hlast & Hres)]];
      try discriminate.
    inversion Hres; subst st'; clear Hres.
    destruct Hpage as [<-|Hpage]; [auto|].
    assert (He : In etx (txs page')) by (rewrite Hlast; apply in_or_app; right; left; reflexivity).
    destruct (leb_numeric (Hbound _ He)) as (m & c & Hm & Hc & Hmc).
    specialize (IH Hh2); cbn [snd] in IH.
    specialize (IH ltac:(discriminate) page tx Hpage Htx).
    rewrite Hm, next_cursor_value in IH.
    destruct (m - 1 <? 0); apply leb_numeric in IH;
      destruct IH as (x & y & Hx & Hy & Hxy); [discriminate|].
    inversion Hy; subst y.
    rewrite Hx, Hc; cbn; apply Z.leb_le; lia.
Qed.

(** With a server that honours the cursor and lists every page newest
    first, the records of a later page are strictly below the records of
    every earlier page. *)
Lemma backward_loop_strict st tr r :
  Runs (ITree.iter body st) tr r ->
  Forall honours_cursor tr ->
  Forall descending (fetched_pages tr) ->
  ForallOrdPairs
    (fun p q => forall x y, In x (txs p) -> In y (txs q) ->
                            ltb (blockNum y) (blockNum x) = true)
    (fetched_pages tr).
Proof.
  intros H; pattern st, tr, r; revert st tr r H; apply Runs_iter_ind.
  - intros [acc cur] tr r H Hh Hd.
    apply backward_turn_inv in H; destruct H as (rp & Hreq & _).
    destruct (request_page Hreq) as [Hp _]; rewrite Hp.
    destruct rp; repeat constructor.
  - intros [acc cur] st' tr1 tr2 r H1 H2 IH Hh Hd.
    apply Forall_app in Hh; destruct Hh as [Hh1 Hh2].
    apply backward_turn_inv in H1; destruct H1 as (rp & Hreq & Hres).
    destruct (request_page Hreq) as [Hp _].
    rewrite fetched_pages_app, Hp in Hd |- *.
    destruct rp as [e|page]; [discriminate|].
    destruct Hres as [[_ Hres]|[(_ & _ & Hres)|(_ & _ & Hall & front & etx & Hlast & Hres)]];
      try discriminate.
    inversion Hres; subst st'; clear Hres.
    cbn [app] in Hd |- *; inversion Hd as [|? ? Hdp Hd']; subst.
    constructor; [|apply IH; assumption].
    rewrite Forall_forall; intros q Hq x y Hx Hy.
    pose proof (backward_loop_below H2 Hh2 ltac:(cbn; discriminate) Hq Hy) as Hbelow.
    cbn [snd] in Hbelow.
    assert (He : In etx (kept fromBlock page))
      by (rewrite Hall, Hlast; apply in_or_app; right; left; reflexivity).
    apply kept_In in He; destruct He as [_ He].
    apply geb_numeric in He; destruct He as (m & f & Hm & _ & _).
    rewrite Hm, next_cursor_value in Hbelow.
    destruct (Z.ltb_spec (m - 1) 0) as [Hneg|Hpos]; apply leb_numeric in Hbelow;
      destruct Hbelow as (by' & c & Hy' & Hc & Hyc); [discriminate|].
    inversion Hc; subst c.
    assert (Hxm : block_le etx x).
    { rewrite Hlast in Hx; apply in_app_or in Hx; destruct Hx as [Hx|[<-|[]]].
      - unfold descending in Hdp; rewrite Hlast in Hdp.
        apply (sorted_last_least Hdp Hx).
      - unfold block_le; rewrite Hm; cbn; apply Z.leb_refl. }
    unfold block_le in Hxm; apply leb_numeric in Hxm.
    destruct Hxm as (m' & bx & Hm' & Hbx & Hle).
    rewrite Hm in Hm'; inversion Hm'; subst m'.
    rewrite Hy', Hbx; cbn; apply Z.ltb_lt; lia.
Qed.

End Backward.

Section BackwardWhole.

Variable this : OtterscanClient.
Variable address : string.
Variable fromBlock toBlock : StringOrNumber.
Variable pageSize : number.

Local Notation "'body'" :=
  (getAllTransactionsForAddress_body this address fromBlock pageSize).

Lemma getAllTransactionsForAddress_inv tr r :
  Runs (getAllTransactionsForAddress this address fromBlock toBlock pageSize) tr r ->
  exists lr, Runs (ITree.iter body ([], hexParam toBlock)) tr lr /\
             r = match lr with
                 | inl e => inl e
                 | inr all => inr (Array_sort compareBlockNumber all)
                 end.
Proof.
  unfold getAllTransactionsForAddress; intros H; unfold_async H; runs_inv.
  exists x; destruct x as [e|all]; runs_inv; rewrite app_nil_r; auto.
Qed.

Lemma getAllTransactionsForAddress_run tr lr :
  Runs (ITree.iter body ([], hexParam toBlock)) tr lr ->
  Runs (getAllTransactionsForAddress this address fromBlock toBlock pageSize) tr
       match lr with
       | inl e => inl e
       | inr all => inr (Array_sort compareBlockNumber all)
       end.
Proof.
  intros H; unfold getAllTransactionsForAddress, await.
  rewrite <- (app_nil_r tr); eapply Runs_bind; [exact H|].
  destruct lr; apply Runs_ret.
Qed.

(** The aggregate is the sorted concatenation of the filtered pages. *)
Lemma getAllTransactionsForAddress_result tr txs :
  Runs (getAllTransactionsForAddress this address fromBlock toBlock pageSize) tr (inr txs) ->
  txs = Array_sort compareBlockNumber (flat_map (kept fromBlock) (fetched_pages tr)) /\
  Runs (ITree.iter body ([], hexParam toBlock)) tr
       (inr (flat_map (kept fromBlock) (fetched_pages tr))).
Proof.
  intros H; apply getAllTransactionsForAddress_inv in H.
  destruct H as ([e|all] & H & Hr); [discriminate|].
  pose proof (backward_loop_result H eq_refl) as Hall; cbn [fst app] in Hall.
  inversion Hr; subst; auto.
Qed.

End BackwardWhole.

(** The example of the specification, run: blocks 140, 150 and 180 come
    back, in this order, after two requests. *)
Example history_example :
  exec 20 history_server []
       (getAllTransactionsForAddress default_client "0xabc"
          (Number (Num 100)) (Number (Num 200)) (Num 2))
  = Some (history_exchanges, inr [tx140; tx150; tx180]).
Proof. vm_compute. reflexivity. Qed.

Lemma history_honours_cursor : Forall honours_cursor history_exchanges.
Proof.
  unfold history_exchanges.
  repeat (apply Forall_cons; [|try apply Forall_nil]);
    intros a c ps p H; cbn in H; inversion H; subst; clear H;
    right; cbn; intros tx Htx;
    repeat (destruct Htx as [<-|Htx]; [reflexivity|]); contradiction.
Qed.

(** ** Claims about the backward traversal *)

(** C2, as the code has it.  Range of the aggregate of the backward
    traversal with numeric bounds.  The lower bound is the client's own
    filter: every record of a returned aggregate is at or above [fromBlock],
    whatever the server answers (first part), and the filter is applied to
    each page before the page is appended, so the aggregate carried by the
    loop is in range after every turn (third part).  The client has no
    filter for the upper bound: the bound comes from the cursor it sends,
    which starts at [toBlock] and only moves down, and holds for a server
    that returns no record above the cursor it is asked for, as step 4 of
    the algorithm takes for granted (second part, hypothesis
    [honours_cursor]). *)
Theorem C2_backward_range (this : OtterscanClient) (address : string) (f t : Z)
    (pageSize : number) (tr : list Entry) (all : list TransactionDetails) :
  Runs (getAllTransactionsForAddress this address (Number (Num f)) (Number (Num t))
          pageSize) tr (inr all) ->
  (forall tx, In tx all -> exists b, blockNum tx = Num b /\ f <= b) /\
  (Forall honours_cursor tr ->
   forall tx, In tx all -> exists b, blockNum tx = Num b /\ f <= b <= t) /\
  (forall acc cur tr1 out,
      (forall tx, In tx acc -> inRequestedRange (Number (Num f)) tx = true) ->
      Runs (getAllTransactionsForAddress_body this address (Number (Num f)) pageSize
              (acc, cur)) tr1 out ->
      forall tx,
        In tx match out with
              | inl (acc', _) => acc'
              | inr (inr res) => res
              | inr (inl _) => []
              end ->
        inRequestedRange (Number (Num f)) tx = true).
Proof.
  intros H.
  destruct (getAllTransactionsForAddress_result H) as [-> Hloop].
  assert (Hlower : forall tx,
             In tx (Array_sort compareBlockNumber
                      (flat_map (kept (Number (Num f))) (fetched_pages tr))) ->
             exists page b, In page (fetched_pages tr) /\ In tx (txs page) /\
                            blockNum tx = Num b /\ f <= b).
  { intros tx Htx.
    apply Array_sort_In, in_flat_map in Htx; destruct Htx as (page & Hpage & Htx).
    apply kept_In in Htx; destruct Htx as [Htx Hlow].
    apply geb_numeric in Hlow; destruct Hlow as (b & f' & Hb & Hf & Hle).
    cbn in Hf; inversion Hf; subst f'.
    exists page, b; auto. }
  split; [|split].
  - intros tx Htx; destruct (Hlower tx Htx) as (page & b & _ & _ & Hb & Hle); eauto.
  - intros Hh tx Htx; destruct (Hlower tx Htx) as (page & b & Hpage & Hin & Hb & Hle).
    exists b; split; [exact Hb|]; split; [exact Hle|].
    pose proof (backward_loop_below Hloop Hh (@hexParam_not_latest (Num t)) Hpage Hin)
      as Hup.
    cbn [snd] in Hup; rewrite parseInt16_hexParam, Hb in Hup.
    destruct (t <? 0); [discriminate|].
    apply Z.leb_le in Hup; exact Hup.
  - intros acc cur tr1 out Hacc Hturn tx Htx.
    apply backward_turn_inv in Hturn; destruct Hturn as (rp & _ & Hout).
    destruct rp as [e|page]; [subst out; contradiction|].
    destruct Hout as [[_ ->]|[(_ & _ & ->)|(_ & _ & Hall & front & etx & _ & ->)]].
    + auto.
    + apply in_app_or in Htx; destruct Htx as [Htx|Htx]; [auto|].
      apply filter_In in Htx; tauto.
    + rewrite <- Hall in Htx.
      apply in_app_or in Htx; destruct Htx as [Htx|Htx]; [auto|].
      apply filter_In in Htx; tauto.
Qed.

Lemma history_run :
  Runs (getAllTransactionsForAddress default_client "0xabc"
          (Number (Num 100)) (Number (Num 200)) (Num 2))
       history_exchanges (inr [tx140; tx150; tx180]).
Proof. eapply exec_sound; exact history_example. Qed.

Lemma C2_backward_range_witness :
  Runs (getAllTransactionsForAddress default_client "0xabc"
          (Number (Num 100)) (Number (Num 200)) (Num 2))
       history_exchanges (inr [tx140; tx150; tx180]) /\
  Forall honours_cursor history_exchanges /\
  forall tx, In tx [tx140; tx150; tx180] ->
             exists b, blockNum tx = Num b /\ 100 <= b <= 200.
Proof.
  split; [exact history_run|]; split; [exact history_honours_cursor|].
  exact (proj1 (proj2 (C2_backward_range history_run)) history_honours_cursor).
Defined.

(** The claim as stated fails when the server does not keep to the cursor:
    asked for the transactions before block 200 it lists a record of block
    500 and flags the page as the first one; the client keeps the record,
    which is above [toBlock]. *)
Lemma C2_counterexample :
  Runs (getAllTransactionsForAddress default_client "0xabc"
          (Number (Num 100)) (Number (Num 200)) (Num 2))
       [ Answer (ProviderSend TPage "ots_searchTransactionsBefore"
                   [JString "0xabc"; JString "0xc8"; JNumber (Num 2)])
                (inr (mkPage [tx500] true false)) ]
       (inr [tx500]) /\
  In tx500 [tx500] /\
  blockNum tx500 = Num 500 /\
  ~ (100 <= 500 <= 200).
Proof.
  split; [|split; [left; reflexivity|split; [reflexivity|lia]]].
  pose (stray_server := (fun _ X e =>
    match e in rpcE X return X with
    | ProviderSend t m ps =>
        match t return Error + denote t with
        | TPage => inr (mkPage [tx500] true false)
        | _ => inl (mkError "method not found")
        end
    | ProviderGetTransaction _ => inl (mkError "method not found")
    | SetTimeout _ => tt
    end) : Oracle).
  apply (@exec_sound _ 20 stray_server []); vm_compute; reflexivity.
Qed.

(** C3, as the code has it.  After a page that does not end the traversal
    the cursor becomes one less than the block number of the LAST record of
    the page ([page.txs[page.txs.length - 1]]), re-encoded in hexadecimal.
    The last record carries the lowest block number of the page when the
    server lists the page newest first; the client does not look for the
    lowest block number itself. *)
Theorem C3_next_cursor (this : OtterscanClient) (address : string)
    (fromBlock : StringOrNumber) (pageSize : number)
    (acc : list TransactionDetails) (cur : string) (tr : list Entry)
    (acc' : list TransactionDetails) (cur' : string) :
  Runs (getAllTransactionsForAddress_body this address fromBlock pageSize (acc, cur))
       tr (inl (acc', cur')) ->
  exists page front earliestTx,
    fetched_pages tr = [page] /\
    txs page = front ++ [earliestTx] /\
    cur' = ("0x" ++ toString16 (sub (blockNum earliestTx) (Num 1)))%string /\
    (descending page -> forall tx, In tx (txs page) -> block_le earliestTx tx).
Proof.
  intros H; apply backward_turn_inv in H; destruct H as (rp & Hreq & Hout).
  destruct (request_page Hreq) as [Hp _].
  destruct rp as [e|page]; [discriminate|].
  destruct Hout as [[_ Hout]|[(_ & _ & Hout)|(_ & _ & Hall & front & etx & Hlast & Hout)]];
    try discriminate.
  inversion Hout; subst; clear Hout.
  exists page, front, etx; repeat split; auto.
  intros Hd tx Htx.
  rewrite Hlast in Htx; apply in_app_or in Htx; destruct Htx as [Htx|[<-|[]]].
  - unfold descending in Hd; rewrite Hlast in Hd.
    apply (sorted_last_least Hd Htx).
  - assert (He : In etx (kept fromBlock page))
      by (rewrite Hall, Hlast; apply in_or_app; right; left; reflexivity).
    apply kept_In in He; destruct He as [_ He].
    apply geb_numeric in He; destruct He as (m & f & Hm & _ & _).
    unfold block_le; rewrite Hm; cbn; apply Z.leb_refl.
Qed.

(** The first turn of the example: after the page with blocks 180 and 150,
    requested before block 200, the cursor is [0x95], block 149. *)
Lemma C3_next_cursor_witness :
  Runs (getAllTransactionsForAddress_body default_client "0xabc" (Number (Num 100))
          (Num 2) ([], "0xc8"))
       [ Answer (ProviderSend TPage "ots_searchTransactionsBefore"
                   [JString "0xabc"; JString "0xc8"; JNumber (Num 2)])
                (inr (mkPage [tx180; tx150] false false)) ]
       (inl ([tx180; tx150], "0x95")) /\
  exists page front earliestTx,
    fetched_pages
      [ Answer (ProviderSend TPage "ots_searchTransactionsBefore"
                  [JString "0xabc"; JString "0xc8"; JNumber (Num 2)])
               (inr (mkPage [tx180; tx150] false false)) ] = [page] /\
    txs page = front ++ [earliestTx] /\
    "0x95" = ("0x" ++ toString16 (sub (blockNum earliestTx) (Num 1)))%string /\
    (descending page -> forall tx, In tx (txs page) -> block_le earliestTx tx).
Proof.
  assert (H : Runs (getAllTransactionsForAddress_body default_client "0xabc"
                      (Number (Num 100)) (Num 2) ([], "0xc8"))
                [ Answer (ProviderSend TPage "ots_searchTransactionsBefore"
                            [JString "0xabc"; JString "0xc8"; JNumber (Num 2)])
                         (inr (mkPage [tx180; tx150] false false)) ]
                (inl ([tx180; tx150], "0x95"))).
  { apply (@exec_sound _ 20 history_server []); vm_compute; reflexivity. }
  split; [exact H|].
  exact (C3_next_cursor H).
Defined.

(** The claim as stated fails on a page that is not listed newest first:
    for the page with blocks 150 and 180, in this order, the lowest block
    number is 150, and the next cursor is [0xb3], block 179, not [0x95],
    block 149. *)
Lemma C3_counterexample :
  Runs (getAllTransactionsForAddress_body default_client "0xabc" (Str "earliest")
          (Num 2) ([], "0xc8"))
       [ Answer (ProviderSend TPage "ots_searchTransactionsBefore"
                   [JString "0xabc"; JString "0xc8"; JNumber (Num 2)])
                (inr (mkPage [tx150; tx180] false false)) ]
       (inl ([tx150; tx180], "0xb3")) /\
  Forall (fun tx => leb (Num 150) (blockNum tx) = true) [tx150; tx180] /\
  blockNum tx150 = Num 150 /\
  "0xb3" <> ("0x" ++ toString16 (sub (Num 150) (Num 1)))%string.
Proof.
  split; [|split; [repeat constructor|split; [reflexivity|discriminate]]].
  pose (unordered_server := (fun _ X e =>
    match e in rpcE X return X with
    | ProviderSend t m ps =>
        match t return Error + denote t with
        | TPage => inr (mkPage [tx150; tx180] false false)
        | _ => inl (mkError "method not found")
        end
    | ProviderGetTransaction _ => inl (mkError "method not found")
    | SetTimeout _ => tt
    end) : Oracle).
  apply (@exec_sound _ 20 unordered_server []); vm_compute; reflexivity.
Qed.

Lemma ltb_not_geb a b : ltb a b = true -> geb a b = false.
Proof.
  destruct a as [x|], b as [y|]; cbn; try discriminate.
  intros H; apply Z.ltb_lt in H; apply Z.leb_gt; exact H.
Qed.

Lemma filter_drops {A} (f : A -> bool) l x :
  In x l -> f x = false -> (List.length (filter f l) < List.length l)%nat.
Proof.
  induction l as [|y l IH]; cbn; [contradiction|].
  intros [->|Hx] Hf.
  - rewrite Hf; pose proof (filter_length_le f l); lia.
  - specialize (IH Hx Hf); destruct (f y); cbn; lia.
Qed.

(** ** The exchanges a program begins with: facts *)

Section BeginsFacts.

Context {R : Type}.

Lemma Begins_observe (t u : itree rpcE R) tr :
  observe t = observe u -> Begins t tr -> Begins u tr.
Proof. unfold Begins; intros ->; auto. Qed.

(** A run that has ended is followed by no exchange. *)
Lemma RunsF_BeginsF_end (ot : itree' rpcE R) tr r :
  RunsF ot tr r -> forall more, BeginsF ot (tr ++ more) -> more = [].
Proof.
  induction 1 as [r|t tr r H IH|X e k x tr r H IH]; intros more H'.
  - cbn [app] in H'; inversion H'; congruence.
  - inversion H' as [ot E| |]; subst.
    + match goal with E : [] = _ |- _ => symmetry in E; apply app_eq_nil in E; tauto end.
    + auto.
  - cbn [app] in H'; dependent destruction H'; auto.
Qed.

(** After the same exchanges the same program raises the same event. *)
Lemma BeginsF_next (ot : itree' rpcE R) tr1 :
  BeginsF ot tr1 ->
  forall tr X (e : rpcE X) (x0 : X) en,
    tr1 = tr ++ [Answer e x0] ->
    BeginsF ot (tr ++ [en]) -> exists x, en = Answer e x.
Proof.
  induction 1 as [ot|t tr1 H IH|Y e1 k y tr1 H IH]; intros tr X e x0 en E H'.
  - destruct tr; discriminate.
  - inversion H'; subst; [destruct tr; discriminate|].
    eapply IH; eauto.
  - destruct tr as [|a tr]; cbn [app] in E, H'.
    + assert (E' : Answer e1 y = Answer e x0) by congruence.
      dependent destruction E'.
      dependent destruction H'; eauto.
    + assert (Ea : a = Answer e1 y) by congruence.
      assert (Et : tr1 = tr ++ [Answer e x0]) by congruence.
      subst a; dependent destruction H'.
      eapply IH; eauto.
Qed.

End BeginsFacts.

Lemma Begins_trigger {X} (e : rpcE X) (x : X) : Begins (ITree.trigger e) [Answer e x].
Proof. unfold Begins; cbn; constructor; cbn; constructor. Qed.

Section BeginsBind.

Context {T U : Type}.

Lemma Begins_bind_left (t : itree rpcE T) (k : T -> itree rpcE U) tr :
  Begins t tr -> Begins (ITree.bind t k) tr.
Proof.
  unfold Begins; intros H.
  remember (observe t) as ot eqn:Eo; revert t Eo.
  induction H as [ot|t' tr H IH|X e h y tr H IH]; intros t Eo.
  - constructor.
  - rewrite observe_bind, <- Eo; cbn; constructor; eapply IH; eauto.
  - rewrite observe_bind, <- Eo; cbn; constructor; eapply IH; eauto.
Qed.

Lemma Begins_bind (t : itree rpcE T) (k : T -> itree rpcE U) tr1 tr2 x :
  Runs t tr1 x -> Begins (k x) tr2 -> Begins (ITree.bind t k) (tr1 ++ tr2).
Proof.
  unfold Runs, Begins; intros H; revert k tr2.
  remember (observe t) as ot eqn:Eo; revert t Eo.
  induction H as [x|t' tr1 x H IH|X e h y tr1 x H IH]; intros t Eo k tr2 Hk;
    rewrite observe_bind, <- Eo; cbn.
  - exact Hk.
  - constructor; eapply IH; eauto.
  - constructor; eapply IH; eauto.
Qed.

End BeginsBind.

Section BeginsIter.

Context {I R : Type} (body : I -> itree rpcE (I + R)).

Lemma Begins_iter_left i tr : Begins (body i) tr -> Begins (ITree.iter body i) tr.
Proof.
  intros H.
  eapply Begins_observe; [symmetry; apply (unfold_aloop_ body i)|].
  apply Begins_bind_left; exact H.
Qed.

Lemma Begins_iter_again i i' tr1 tr2 :
  Runs (body i) tr1 (inl i') -> Begins (ITree.iter body i') tr2 ->
  Begins (ITree.iter body i) (tr1 ++ tr2).
Proof.
  intros H1 H2.
  eapply Begins_observe; [symmetry; apply (unfold_aloop_ body i)|].
  eapply Begins_bind; [exact H1|]; cbn.
  constructor; exact H2.
Qed.

End BeginsIter.

(** A call begins with an attempt, when the client has one to make. *)
Lemma makeRpcCall_begins this t method params x :
  ltb (Num 0) (retries (options this)) = true ->
  Begins (makeRpcCall this t method params) [Answer (ProviderSend t method params) x].
Proof.
  intros Hpos; unfold makeRpcCall.
  apply Begins_iter_left; unfold makeRpcCall_body; rewrite Hpos.
  apply Begins_bind_left, Begins_trigger.
Qed.

(** ** The backward traversal, page by page *)

Section BackwardShape.

Variable this : OtterscanClient.
Variable address : string.
Variable fromBlock : StringOrNumber.
Variable pageSize : number.

Local Notation "'body'" :=
  (getAllTransactionsForAddress_body this address fromBlock pageSize).

(** After pages that send it on, the loop asks for the page before the
    cursor it has come to. *)
Lemma backward_loop_begins cur l cur' :
  backward_turns this address fromBlock pageSize cur l cur' ->
  ltb (Num 0) (retries (options this)) = true ->
  forall acc x,
    Begins (ITree.iter body (acc, cur))
      (List.concat (map fst l)
         ++ [Answer (ProviderSend TPage "ots_searchTransactionsBefore"
                       [JString address; JString cur'; JNumber pageSize]) x]).
Proof.
  induction 1 as [cur|cur tr page front etx rest cur' Hreq Hgo Hlast Hrest IH];
    intros Hpos acc x.
  - cbn [map List.concat app].
    apply Begins_iter_left.
    unfold getAllTransactionsForAddress_body, searchTransactionsBefore; cbn [hexParam].
    apply Begins_bind_left.
    exact (@makeRpcCall_begins this TPage _ _ x Hpos).
  - cbn [map fst List.concat]; rewrite <- app_assoc.
    destruct Hgo as (_ & Hf & Hall).
    eapply Begins_iter_again; [|apply IH; exact Hpos].
    eapply backward_turn_again; eassumption.
Qed.

(** After pages that send it on, a page that stops it ends the loop. *)
Lemma backward_loop_run cur l cur' :
  backward_turns this address fromBlock pageSize cur l cur' ->
  forall trl last_page acc,
    Runs (searchTransactionsBefore this address (Str cur') pageSize) trl (inr last_page) ->
    page_stops fromBlock last_page ->
    Runs (ITree.iter body (acc, cur)) (List.concat (map fst l) ++ trl)
         (inr (acc ++ flat_map (kept fromBlock) (map snd l ++ [last_page]))).
Proof.
  induction 1 as [cur|cur tr page front etx rest cur' Hreq Hgo Hlast Hrest IH];
    intros trl last_page acc Hl Hstop.
  - cbn [map List.concat app flat_map]; rewrite app_nil_r.
    apply Runs_iter_stop.
    destruct Hstop as [Hempty|Hstop].
    + unfold kept; rewrite Hempty; cbn [filter]; rewrite app_nil_r.
      eapply backward_turn_empty; eassumption.
    + eapply backward_turn_stop; eassumption.
  - cbn [map fst snd List.concat app flat_map]; rewrite <- app_assoc.
    destruct Hgo as (_ & Hf & Hall).
    rewrite Hall, (app_assoc acc).
    eapply Runs_iter_again; [|apply IH; eassumption].
    eapply backward_turn_again; eassumption.
Qed.

(** Every run of the loop that ends with an aggregate is of this kind. *)
Lemma backward_loop_shape st tr r :
  Runs (ITree.iter body st) tr r ->
  forall acc cur res, st = (acc, cur) -> r = inr res ->
  exists l cur' trl last_page,
    backward_turns this address fromBlock pageSize cur l cur' /\
    Runs (searchTransactionsBefore this address (Str cur') pageSize) trl (inr last_page) /\
    page_stops fromBlock last_page /\
    tr = List.concat (map fst l) ++ trl /\
    res = acc ++ flat_map (kept fromBlock) (map snd l ++ [last_page]).
Proof.
  intros H; pattern st, tr, r; revert st tr r H; apply Runs_iter_ind.
  - intros st tr r H acc cur res -> ->.
    apply backward_turn_inv in H; destruct H as (rp & Hreq & Hres).
    destruct rp as [e|page]; [discriminate|].
    destruct Hres as [[Hempty Hres]|[(Hne & Hstop & Hres)|(_ & _ & _ & front & tx & _ & Hres)]];
      [| |discriminate]; inversion Hres; subst res; clear Hres;
      exists [], cur, tr, page; cbn [map List.concat app flat_map]; rewrite app_nil_r;
      (split; [constructor|]); (split; [exact Hreq|]).
    + split; [left; exact Hempty|]; split; [reflexivity|].
      unfold kept; rewrite Hempty, app_nil_r; reflexivity.
    + split; [right; exact Hstop|]; split; reflexivity.
  - intros st st' tr1 tr2 r H1 H2 IH acc cur res -> ->.
    apply backward_turn_inv in H1; destruct H1 as (rp & Hreq & Hres).
    destruct rp as [e|page]; [discriminate|].
    destruct Hres as [[_ Hres]|[(_ & _ & Hres)|(Hne & Hf & Hall & front & etx & Hlast & Hres)]];
      try discriminate.
    inversion Hres; subst st'; clear Hres.
    destruct (IH _ _ res eq_refl eq_refl) as (l & cur' & trl & last_page & Hl & Hlreq & Hstop & -> & ->).
    exists ((tr1, page) :: l), cur', trl, last_page.
    cbn [map fst snd List.concat app flat_map].
    split; [econstructor; [exact Hreq|repeat split; assumption|exact Hlast|exact Hl]|].
    split; [exact Hlreq|]; split; [exact Hstop|].
    split; [rewrite app_assoc; reflexivity|].
    rewrite Hall, app_assoc; reflexivity.
Qed.

End BackwardShape.

(** C4. When the backward traversal stops.  First part: every run of the
    traversal that returns is made of pages that send it on (not empty, not
    flagged as the first page, no record lost to the filter), each asked for
    with the cursor one below the last record of the page before, followed
    by one page that stops it (empty, or flagged as the first page, or with
    a record dropped by the filter); the exchanges of the run are those of
    these requests and no more.  Second part: conversely, after pages that
    send it on, the traversal returns with the page that stops it, and no
    exchange follows.  Third part: after pages that send it on, the
    traversal asks for the page before the cursor it has come to, and for
    nothing else, whether or not it ever ends.  Fourth part: the same
    condition turn by turn; a turn that fetched a page leaves the loop
    exactly when the page stops the traversal.  Fifth part: when the lower
    bound falls strictly inside the block range of the page, the turn leaves
    the loop with the filtered page appended, although [firstPage] is
    false.  Sixth part: when the first page is empty the traversal returns
    the empty sequence, and its exchanges are those of the first page
    request and no more. *)
Theorem C4_backward_termination (this : OtterscanClient) (address : string)
    (fromBlock : StringOrNumber) (pageSize : number) :
  (forall toBlock tr all,
      Runs (getAllTransactionsForAddress this address fromBlock toBlock pageSize)
           tr (inr all) ->
      exists l cur trl last_page,
        backward_turns this address fromBlock pageSize (hexParam toBlock) l cur /\
        Runs (searchTransactionsBefore this address (Str cur) pageSize) trl (inr last_page) /\
        page_stops fromBlock last_page /\
        tr = List.concat (map fst l) ++ trl /\
        all = Array_sort compareBlockNumber
                (flat_map (kept fromBlock) (map snd l ++ [last_page])))
  /\
  (forall toBlock l cur trl last_page,
      backward_turns this address fromBlock pageSize (hexParam toBlock) l cur ->
      Runs (searchTransactionsBefore this address (Str cur) pageSize) trl (inr last_page) ->
      page_stops fromBlock last_page ->
      Runs (getAllTransactionsForAddress this address fromBlock toBlock pageSize)
           (List.concat (map fst l) ++ trl)
           (inr (Array_sort compareBlockNumber
                   (flat_map (kept fromBlock) (map snd l ++ [last_page])))) /\
      forall more,
        Begins (getAllTransactionsForAddress this address fromBlock toBlock pageSize)
               ((List.concat (map fst l) ++ trl) ++ more) ->
        more = [])
  /\
  (forall toBlock l cur,
      backward_turns this address fromBlock pageSize (hexParam toBlock) l cur ->
      ltb (Num 0) (retries (options this)) = true ->
      (forall x,
          Begins (getAllTransactionsForAddress this address fromBlock toBlock pageSize)
                 (List.concat (map fst l)
                    ++ [Answer (ProviderSend TPage "ots_searchTransactionsBefore"
                                  [JString address; JString cur; JNumber pageSize]) x])) /\
      (forall en,
          Begins (getAllTransactionsForAddress this address fromBlock toBlock pageSize)
                 (List.concat (map fst l) ++ [en]) ->
          exists x,
            en = Answer (ProviderSend TPage "ots_searchTransactionsBefore"
                           [JString address; JString cur; JNumber pageSize]) x))
  /\
  (forall acc cur tr page out,
      Runs (searchTransactionsBefore this address (Str cur) pageSize) tr (inr page) ->
      Runs (getAllTransactionsForAddress_body this address fromBlock pageSize (acc, cur))
           tr out ->
      ((exists res, out = inr res) <->
       (txs page = [] \/ firstPage page = true \/
        (List.length (kept fromBlock page) < List.length (txs page))%nat)))
  /\
  (forall acc cur tr page low high,
      Runs (searchTransactionsBefore this address (Str cur) pageSize) tr (inr page) ->
      firstPage page = false ->
      In low (txs page) -> In high (txs page) ->
      ltb (blockNum low) (fromBlockNum fromBlock) = true ->
      ltb (fromBlockNum fromBlock) (blockNum high) = true ->
      Runs (getAllTransactionsForAddress_body this address fromBlock pageSize (acc, cur))
           tr (inr (inr (acc ++ kept fromBlock page))) /\
      In high (kept fromBlock page) /\ ~ In low (kept fromBlock page))
  /\
  (forall toBlock tr page,
      Runs (searchTransactionsBefore this address (Str (hexParam toBlock)) pageSize)
           tr (inr page) ->
      txs page = [] ->
      Runs (getAllTransactionsForAddress this address fromBlock toBlock pageSize)
           tr (inr []) /\
      forall more r,
        Runs (getAllTransactionsForAddress this address fromBlock toBlock pageSize)
             (tr ++ more) r ->
        more = [] /\ r = inr []).
Proof.
  assert (Hwhole : forall toBlock l cur trl last_page,
             backward_turns this address fromBlock pageSize (hexParam toBlock) l cur ->
             Runs (searchTransactionsBefore this address (Str cur) pageSize) trl
                  (inr last_page) ->
             page_stops fromBlock last_page ->
             Runs (getAllTransactionsForAddress this address fromBlock toBlock pageSize)
                  (List.concat (map fst l) ++ trl)
                  (inr (Array_sort compareBlockNumber
                          (flat_map (kept fromBlock) (map snd l ++ [last_page]))))).
  { intros toBlock l cur trl last_page Hl Hreq Hstop.
    apply (@getAllTransactionsForAddress_run this address fromBlock toBlock pageSize _
             (inr (flat_map (kept fromBlock) (map snd l ++ [last_page])))).
    exact (backward_loop_run Hl [] Hreq Hstop). }
  split; [|split; [|split; [|split; [|split]]]].
  - intros toBlock tr all H.
    apply getAllTransactionsForAddress_inv in H; destruct H as (lr & H & Hr).
    destruct lr as [e|res]; [discriminate|]; inversion Hr; subst all.
    destruct (backward_loop_shape H eq_refl eq_refl)
      as (l & cur & trl & last_page & Hl & Hreq & Hstop & -> & ->).
    exists l, cur, trl, last_page; auto.
  - intros toBlock l cur trl last_page Hl Hreq Hstop.
    pose proof (Hwhole toBlock l cur trl last_page Hl Hreq Hstop) as Hrun.
    split; [exact Hrun|].
    intros more Hmore; exact (RunsF_BeginsF_end Hrun Hmore).
  - intros toBlock l cur Hl Hpos.
    assert (Hask : forall x,
               Begins (getAllTransactionsForAddress this address fromBlock toBlock pageSize)
                 (List.concat (map fst l)
                    ++ [Answer (ProviderSend TPage "ots_searchTransactionsBefore"
                                  [JString address; JString cur; JNumber pageSize]) x])).
    { intros x; unfold getAllTransactionsForAddress, await.
      apply Begins_bind_left; exact (backward_loop_begins Hl Hpos [] x). }
    split; [exact Hask|].
    intros en Hen.
    exact (BeginsF_next (Hask (inl (mkError "Unknown error"))) eq_refl Hen).
  - intros acc cur tr page out Hreq Hturn.
    apply backward_turn_inv in Hturn; destruct Hturn as (rp & Hreq' & Hout).
    assert (rp = inr page) by (eapply RunsF_result_unique; eassumption); subst rp.
    destruct Hout as [[Hempty ->]|[(Hne & Hstop & ->)|(Hne & Hf & Hall & front & etx & _ & ->)]].
    + split; eauto.
    + split; [tauto|eauto].
    + split; [intros [res Hres]; discriminate|].
      intros [Hempty|[Hfirst|Hlt]]; [contradiction|congruence|].
      rewrite Hall in Hlt; lia.
  - intros acc cur tr page low high Hreq Hf Hlow Hhigh Hbelow Habove.
    split; [|split].
    + eapply backward_turn_stop; [exact Hreq|right].
      apply (filter_drops Hlow); unfold inRequestedRange.
      apply ltb_not_geb; exact Hbelow.
    + apply filter_In; split; [exact Hhigh|].
      unfold inRequestedRange; fold (blockNum high).
      destruct (blockNum high), (fromBlockNum fromBlock); cbn in *; try discriminate.
      apply Z.leb_le; apply Z.ltb_lt in Habove; lia.
    + intros Hin; apply kept_In in Hin; destruct Hin as [_ Hin].
      apply ltb_not_geb in Hbelow; congruence.
  - intros toBlock tr page Hreq Hempty.
    assert (Hrun : Runs (getAllTransactionsForAddress this address fromBlock toBlock pageSize)
                     tr (inr [])).
    { apply (@getAllTransactionsForAddress_run this address fromBlock toBlock pageSize
               tr (inr [])).
      apply Runs_iter_stop.
      eapply backward_turn_empty; [exact Hreq|exact Hempty]. }
    split; [exact Hrun|].
    intros more r Hmore.
    destruct (RunsF_prefix_unique _ _ _ Hrun _ _ Hmore) as [-> <-]; auto.
Qed.

(** The example, through the traversal: the page with blocks 180 and 150
    sends it on, to the cursor [0x95]; the page with blocks 140 and 90, with
    the lower bound at block 100, stops it; two requests are made and the
    records of blocks 140, 150 and 180 come back. *)
Lemma C4_backward_termination_witness :
  Runs (getAllTransactionsForAddress default_client "0xabc"
          (Number (Num 100)) (Number (Num 200)) (Num 2))
       [ Answer (ProviderSend TPage "ots_searchTransactionsBefore"
                   [JString "0xabc"; JString "0xc8"; JNumber (Num 2)])
                (inr (mkPage [tx180; tx150] false false));
         Answer (ProviderSend TPage "ots_searchTransactionsBefore"
                   [JString "0xabc"; JString "0x95"; JNumber (Num 2)])
                (inr (mkPage [tx140; tx90] false false)) ]
       (inr [tx140; tx150; tx180]).
Proof.
  refine (proj1 (proj1 (proj2 (C4_backward_termination default_client "0xabc"
                                 (Number (Num 100)) (Num 2)))
                   (Number (Num 200))
                   [ ([ Answer (ProviderSend TPage "ots_searchTransactionsBefore"
                                  [JString "0xabc"; JString "0xc8"; JNumber (Num 2)])
                               (inr (mkPage [tx180; tx150] false false)) ],
                      mkPage [tx180; tx150] false false) ]
                   "0x95"
                   [ Answer (ProviderSend TPage "ots_searchTransactionsBefore"
                               [JString "0xabc"; JString "0x95"; JNumber (Num 2)])
                            (inr (mkPage [tx140; tx90] false false)) ]
                   (mkPage [tx140; tx90] false false) _ _ _)).
  - apply (@backward_turns_cons default_client "0xabc" (Number (Num 100)) (Num 2)
             "0xc8" _ (mkPage [tx180; tx150] false false) [tx180] tx150 [] "0x95").
    + apply (@exec_sound _ 20 history_server []); vm_compute; reflexivity.
    + repeat split; discriminate.
    + reflexivity.
    + apply backward_turns_nil.
  - apply (@exec_sound _ 20 history_server []); vm_compute; reflexivity.
  - right; right; cbn; lia.
Defined.

Lemma NoDup_flat_map_disjoint {A B} (g : A -> list B) l :
  Forall (fun a => NoDup (g a)) l ->
  ForallOrdPairs (fun a b => forall x, In x (g a) -> ~ In x (g b)) l ->
  NoDup (flat_map g l).
Proof.
  intros Hn Hd; induction Hd as [|a l Ha Hd IH]; cbn; [constructor|].
  inversion Hn as [|? ? Hna Hnl]; subst.
  apply NoDup_app; [exact Hna|apply IH; exact Hnl|].
  intros x Hx Hx'; apply in_flat_map in Hx'; destruct Hx' as (b & Hb & Hxb).
  rewrite Forall_forall in Ha; exact (Ha b Hb x Hx Hxb).
Qed.

Lemma ForallOrdPairs_impl {A} (P Q : A -> A -> Prop) l :
  (forall a b, P a b -> Q a b) -> ForallOrdPairs P l -> ForallOrdPairs Q l.
Proof.
  intros HPQ H; induction H as [|a l Ha H IH]; constructor; auto.
  rewrite Forall_forall in Ha |- *; auto.
Qed.

(** C5, as the code has it.  The returned aggregate is sorted ascending by
    block number and is a rearrangement of the filtered pages, whatever the
    server answers.  The client removes no duplicate itself: it moves the
    cursor below the page it has just read, so that, for a server that
    honours the cursor and lists every page newest first (the ordering the
    algorithm assumes), no record of one page occurs in another page, and
    the aggregate has no duplicate unless a single page has one within
    itself. *)
Theorem C5_backward_sorted_nodup (this : OtterscanClient) (address : string)
    (fromBlock toBlock : StringOrNumber) (pageSize : number)
    (tr : list Entry) (all : list TransactionDetails) :
  Runs (getAllTransactionsForAddress this address fromBlock toBlock pageSize)
       tr (inr all) ->
  StronglySorted block_le all /\
  Permutation all (flat_map (kept fromBlock) (fetched_pages tr)) /\
  (Forall honours_cursor tr ->
   Forall descending (fetched_pages tr) ->
   ForallOrdPairs
     (fun p q => forall x, In x (kept fromBlock p) -> ~ In x (kept fromBlock q))
     (fetched_pages tr) /\
   (Forall (fun p => NoDup (txs p)) (fetched_pages tr) -> NoDup all)).
Proof.
  intros H.
  destruct (getAllTransactionsForAddress_result H) as [-> Hloop].
  split; [|split].
  - apply Array_sort_sorted.
    rewrite Forall_forall; intros tx Htx.
    apply in_flat_map in Htx; destruct Htx as (page & _ & Htx).
    apply kept_In in Htx; destruct Htx as [_ Htx].
    apply geb_numeric in Htx; destruct Htx as (b & _ & Hb & _); exists b; exact Hb.
  - apply Array_sort_perm.
  - intros Hh Hd.
    assert (Hpairs : ForallOrdPairs
              (fun p q => forall x, In x (kept fromBlock p) -> ~ In x (kept fromBlock q))
              (fetched_pages tr)).
    { eapply ForallOrdPairs_impl; [|exact (backward_loop_strict Hloop Hh Hd)].
      intros p q Hpq x Hp Hq; cbn beta in Hpq.
      apply kept_In in Hp, Hq.
      specialize (Hpq x x (proj1 Hp) (proj1 Hq)).
      destruct (blockNum x); cbn in Hpq; [|discriminate].
      apply Z.ltb_lt in Hpq; lia. }
    split; [exact Hpairs|].
    intros Hn.
    eapply Permutation_NoDup; [symmetry; apply Array_sort_perm|].
    apply NoDup_flat_map_disjoint; [|exact Hpairs].
    rewrite Forall_forall in Hn |- *; intros p Hp.
    apply NoDup_filter, Hn, Hp.
Qed.

Lemma history_descending : Forall descending (fetched_pages history_exchanges).
Proof.
  repeat (apply Forall_cons; [|try apply Forall_nil]);
    unfold descending; cbn; repeat constructor.
Qed.

Lemma C5_backward_sorted_nodup_witness :
  Runs (getAllTransactionsForAddress default_client "0xabc"
          (Number (Num 100)) (Number (Num 200)) (Num 2))
       history_exchanges (inr [tx140; tx150; tx180]) /\
  Forall honours_cursor history_exchanges /\
  Forall descending (fetched_pages history_exchanges) /\
  StronglySorted block_le [tx140; tx150; tx180] /\
  NoDup [tx140; tx150; tx180].
Proof.
  split; [exact history_run|]; split; [exact history_honours_cursor|].
  split; [exact history_descending|].
  destruct (C5_backward_sorted_nodup history_run) as (Hsorted & _ & Hpages).
  split; [exact Hsorted|].
  apply (Hpages history_honours_cursor history_descending).
  repeat (apply Forall_cons; [|try apply Forall_nil]); cbn;
    (apply NoDup_cons; [cbn; intros [E|E]; [discriminate E|exact E]|]);
    (apply NoDup_cons; [cbn; intros E; exact E|]);
    apply NoDup_nil.
Defined.

(** The claim as stated fails when the server lists a record again: the
    record of block 150 comes with the first page and, asked for the
    transactions before block 149, the server lists it once more; the
    aggregate holds it twice. *)
Lemma C5_counterexample :
  Runs (getAllTransactionsForAddress default_client "0xabc"
          (Str "earliest") (Str "latest") (Num 1))
       [ Answer (ProviderSend TPage "ots_searchTransactionsBefore"
                   [JString "0xabc"; JString "latest"; JNumber (Num 1)])
                (inr (mkPage [tx150] false false));
         Answer (ProviderSend TPage "ots_searchTransactionsBefore"
                   [JString "0xabc"; JString "0x95"; JNumber (Num 1)])
                (inr (mkPage [tx150] true false)) ]
       (inr [tx150; tx150]) /\
  ~ NoDup [tx150; tx150].
Proof.
  split.
  - pose (repeating_server := (fun _ X e =>
      match e in rpcE X return X with
      | ProviderSend t m ps =>
          match t return Error + denote t with
          | TPage =>
              match ps with
              | [_; JString cursor; _] =>
                  inr (mkPage [tx150] (negb (String.eqb cursor "latest")) false)
              | _ => inl (mkError "invalid params")
              end
          | _ => inl (mkError "method not found")
          end
      | ProviderGetTransaction _ => inl (mkError "method not found")
      | SetTimeout _ => tt
      end) : Oracle).
    apply (@exec_sound _ 20 repeating_server []); vm_compute; reflexivity.
  - intros H; inversion H as [|? ? Hin _]; apply Hin; left; reflexivity.
Qed.

(** ** The forward traversal *)

Section Forward.

Variable this : OtterscanClient.
Variable blockNumber : StringOrNumber.

Local Notation "'body'" := (getBlockWithTransactions_body this blockNumber).

Lemma forward_turn_inv acc pageNumber tr out :
  Runs (body (acc, pageNumber)) tr out ->
  exists rp, Runs (getBlockTransactions this blockNumber pageNumber (Num 100)) tr rp /\
    out = match rp with
          | inl e => inr (inl e)
          | inr page => if lastPage page then inr (inr (acc ++ txs page))
                        else inl (acc ++ txs page, add pageNumber (Num 1))
          end.
Proof.
  unfold getBlockWithTransactions_body; intros H; runs_inv.
  exists x; destruct x as [e|page]; runs_inv; [rewrite app_nil_r; auto|].
  destruct (lastPage page); runs_inv; rewrite app_nil_r; auto.
Qed.

Lemma forward_turn_run acc pageNumber tr rp :
  Runs (getBlockTransactions this blockNumber pageNumber (Num 100)) tr rp ->
  Runs (body (acc, pageNumber)) tr
       match rp with
       | inl e => inr (inl e)
       | inr page => if lastPage page then inr (inr (acc ++ txs page))
                     else inl (acc ++ txs page, add pageNumber (Num 1))
       end.
Proof.
  intros H; unfold getBlockWithTransactions_body.
  rewrite <- (app_nil_r tr); eapply Runs_bind; [exact H|].
  destruct rp as [e|page]; [apply Runs_ret|].
  cbn beta iota; destruct (lastPage page); apply Runs_ret.
Qed.

Lemma forward_loop_run l : forall i acc,
  page_fetches this blockNumber i l ->
  last_flagged (map snd l) ->
  Runs (ITree.iter body (acc, Num i)) (List.concat (map fst l))
       (inr (acc ++ flat_map txs (map snd l))).
Proof.
  induction l as [|[tr p] l IH]; intros i acc Hf Hl; [contradiction|].
  destruct Hf as [Hp Hf]; cbn [map fst snd List.concat flat_map] in *.
  pose proof (forward_turn_run acc Hp) as Hturn; cbn beta iota in Hturn.
  destruct l as [|[tr' p'] l].
  - cbn in Hl; rewrite Hl in Hturn; cbn; rewrite !app_nil_r.
    apply Runs_iter_stop; exact Hturn.
  - destruct Hl as [Hl Hl']; rewrite Hl in Hturn.
    rewrite app_assoc.
    eapply Runs_iter_again; [exact Hturn|].
    apply IH; assumption.
Qed.

Lemma forward_loop_inv st tr r :
  Runs (ITree.iter body st) tr r ->
  forall acc i res, st = (acc, Num i) -> r = inr res ->
  exists l, page_fetches this blockNumber i l /\ last_flagged (map snd l) /\
            tr = List.concat (map fst l) /\ res = acc ++ flat_map txs (map snd l).
Proof.
  intros H; pattern st, tr, r; revert st tr r H; apply Runs_iter_ind.
  - intros st tr r H acc i res -> ->.
    apply forward_turn_inv in H; destruct H as (rp & Hp & Hout).
    destruct rp as [e|page]; [discriminate|].
    destruct (lastPage page) eqn:El; [|discriminate].
    inversion Hout; subst res.
    exists [(tr, page)]; cbn; rewrite !app_nil_r; auto.
  - intros st st' tr1 tr2 r H1 H2 IH acc i res -> ->.
    apply forward_turn_inv in H1; destruct H1 as (rp & Hp & Hout).
    destruct rp as [e|page]; [discriminate|].
    destruct (lastPage page) eqn:El; [discriminate|].
    inversion Hout; subst st'.
    destruct (IH _ _ res eq_refl eq_refl) as (l & Hf & Hl & -> & ->).
    exists ((tr1, page) :: l); cbn [map fst snd List.concat flat_map page_fetches].
    rewrite app_assoc; repeat split; auto.
    destruct l as [|[tr' p'] l]; [contradiction|].
    cbn [map snd last_flagged] in *; auto.
Qed.

End Forward.

(** ** Claims about the forward traversal *)

(** C6. Forward traversal completeness.  First part: when the server
    delivers [N >= 1] pages of which only the last reports [lastPage], the
    traversal loop requests the pages at indices [0] to [N - 1] in this
    order, with page size 100, and ends with the concatenation of their
    records in the order the server gave them, nothing sorted and nothing
    dropped.  Second part: the same for [getBlockWithTransactions], which
    fetches the block details before it enters the loop.  Third part: every
    fulfilled run of [getBlockWithTransactions] has this shape.  Fourth
    part: the exchanges of the request for page [i] are attempts of
    [ots_getBlockTransactions] with the block, the index [i] and the size
    100, and delays between them; the one fulfilled attempt carries the
    page. *)
Theorem C6_forward_complete (this : OtterscanClient) (blockNumber : StringOrNumber) :
  (forall l,
      page_fetches this blockNumber 0 l ->
      last_flagged (map snd l) ->
      Runs (ITree.iter (getBlockWithTransactions_body this blockNumber) ([], Num 0))
           (List.concat (map fst l))
           (inr (List.concat (map (fun p => txs (snd p)) l))))
  /\
  (forall trb blockDetails l,
      Runs (getBlockDetails this blockNumber) trb (inr blockDetails) ->
      page_fetches this blockNumber 0 l ->
      last_flagged (map snd l) ->
      Runs (getBlockWithTransactions this blockNumber)
           (trb ++ List.concat (map fst l))
           (inr {| bwt_block := blockDetails;
                   bwt_transactions := List.concat (map (fun p => txs (snd p)) l) |}))
  /\
  (forall tr res,
      Runs (getBlockWithTransactions this blockNumber) tr (inr res) ->
      exists trb l,
        Runs (getBlockDetails this blockNumber) trb (inr (bwt_block res)) /\
        page_fetches this blockNumber 0 l /\
        last_flagged (map snd l) /\
        tr = trb ++ List.concat (map fst l) /\
        bwt_transactions res = List.concat (map (fun p => txs (snd p)) l))
  /\
  (forall i tr page,
      Runs (getBlockTransactions this blockNumber (Num i) (Num 100)) tr (inr page) ->
      Forall (fun en =>
                (exists x, en = Answer (ProviderSend TPage "ots_getBlockTransactions"
                                          [JString (hexParam blockNumber);
                                           JNumber (Num i); JNumber (Num 100)]) x) \/
                en = Answer (SetTimeout (retryDelay (options this))) tt) tr /\
      filter fulfilled tr =
        [Answer (ProviderSend TPage "ots_getBlockTransactions"
                   [JString (hexParam blockNumber); JNumber (Num i); JNumber (Num 100)])
                (inr page)]).
Proof.
  assert (E : forall l : list (list Entry * Page),
            flat_map txs (map snd l) = List.concat (map (fun p => txs (snd p)) l)).
  { intros l; rewrite flat_map_concat_map, map_map; reflexivity. }
  split; [|split; [|split]].
  - intros l Hf Hl.
    rewrite <- E; apply (forward_loop_run [] Hf Hl).
  - intros trb bd l Hb Hf Hl.
    unfold getBlockWithTransactions, await.
    eapply Runs_bind; [exact Hb|]; cbn beta iota.
    rewrite <- (app_nil_r (List.concat (map fst l))).
    eapply Runs_bind; [apply (forward_loop_run [] Hf Hl)|]; cbn beta iota.
    rewrite <- E; apply Runs_ret.
  - intros tr res H.
    unfold getBlockWithTransactions in H; unfold_async H; runs_inv.
    destruct x as [e|bd]; runs_inv.
    destruct x as [e|all]; runs_inv.
    match goal with
    | H : Runs (ITree.iter _ _) _ _ |- _ =>
        destruct (forward_loop_inv H eq_refl eq_refl) as (l & Hf & Hl & -> & ->)
    end.
    exists tr0, l; cbn; rewrite app_nil_r, <- E; auto.
  - intros i tr page H.
    exact (@makeRpcCall_outcome this TPage "ots_getBlockTransactions"
             [JString (hexParam blockNumber); JNumber (Num i); JNumber (Num 100)]
             tr (inr page) H).
Qed.

Lemma C6_forward_complete_witness :
  Runs (getBlockWithTransactions default_client (Number (Num 18500000)))
       [ Answer (ProviderSend TBlockDetails "ots_getBlockDetails" [JString "0x11a49a0"])
                (inr block_18500000);
         block_exchange 0 (mkPage [txB; txA] true false);
         block_exchange 1 (mkPage [txC] false true) ]
       (inr {| bwt_block := block_18500000; bwt_transactions := [txB; txA; txC] |}).
Proof.
  refine (proj1 (proj2 (C6_forward_complete default_client (Number (Num 18500000))))
            [_] block_18500000
            [ ([block_exchange 0 (mkPage [txB; txA] true false)],
               mkPage [txB; txA] true false);
              ([block_exchange 1 (mkPage [txC] false true)], mkPage [txC] false true) ]
            _ _ _).
  - apply (@exec_sound _ 20 block_server []); vm_compute; reflexivity.
  - repeat split; apply (@exec_sound _ 20 block_server []); vm_compute; reflexivity.
  - cbn; auto.
Defined.

(** ** Runs against an oracle that end *)

Section HaltsFacts.

Variable o : Oracle.

Lemma exec_observe {R} fuel hist (t u : itree rpcE R) :
  observe t = observe u -> exec fuel o hist t = exec fuel o hist u.
Proof. destruct fuel; cbn; [reflexivity|]; intros ->; reflexivity. Qed.

Lemma exec_more {R} fuel : forall hist (t : itree rpcE R) x,
  exec fuel o hist t = Some x -> forall k, exec (fuel + k) o hist t = Some x.
Proof.
  induction fuel as [|fuel IH]; intros hist t x H k; [discriminate|].
  cbn [Nat.add exec] in *.
  destruct (observe t) as [r|t'|X e h]; auto.
  destruct (exec fuel o _ (h (o hist e))) as [[tr r]|] eqn:E; [|discriminate].
  rewrite (IH _ _ _ E k); exact H.
Qed.

Lemma Halts_Runs {R} hist (t : itree rpcE R) tr r : Halts o hist t tr r -> Runs t tr r.
Proof. intros [fuel H]; eapply exec_sound; exact H. Qed.

Lemma Halts_ret {R} hist (r : R) : Halts o hist (Ret r) [] r.
Proof. exists 1%nat; reflexivity. Qed.


Lemma Halts_tau {R} hist (t : itree rpcE R) tr r :
  Halts o hist t tr r -> Halts o hist (Tau t) tr r.
Proof. intros [fuel H]; exists (S fuel); exact H. Qed.

Lemma Halts_trigger {X} hist (e : rpcE X) :
  Halts o hist (ITree.trigger e) [Answer e (o hist e)] (o hist e).
Proof. exists 2%nat; reflexivity. Qed.

Lemma Halts_observe {R} hist (t u : itree rpcE R) tr r :
  observe t = observe u -> Halts o hist t tr r -> Halts o hist u tr r.
Proof. intros E [fuel H]; exists fuel; rewrite <- (exec_observe fuel hist E); exact H. Qed.

Lemma Halts_bind {T U} hist (t : itree rpcE T) (k : T -> itree rpcE U) tr1 tr2 x r :
  Halts o hist t tr1 x -> Halts o (hist ++ tr1) (k x) tr2 r ->
  Halts o hist (ITree.bind t k) (tr1 ++ tr2) r.
Proof.
  intros [f1 H1] [f2 H2]; exists (f1 + f2)%nat.
  revert hist t tr1 H1 H2; induction f1 as [|f1 IH]; intros hist t tr1 H1 H2;
    [discriminate|].
  cbn [Nat.add exec] in *; rewrite observe_bind.
  destruct (observe t) as [x0|t'|X e h].
  - inversion H1; subst tr1 x0; rewrite app_nil_r in H2; cbn [app].
    change (exec (S (f1 + f2)) o hist (k x) = Some (tr2, r)).
    replace (S (f1 + f2)) with (f2 + S f1)%nat by lia.
    apply exec_more; exact H2.
  - cbn; apply IH; assumption.
  - cbn.
    destruct (exec f1 o _ (h (o hist e))) as [[tr1' x']|] eqn:E; [|discriminate].
    inversion H1; subst.
    rewrite (IH _ _ _ E); [reflexivity|].
    rewrite <- app_assoc; exact H2.
Qed.

Lemma Halts_iter_stop {I R} (body : I -> itree rpcE (I + R)) hist i tr r :
  Halts o hist (body i) tr (inr r) -> Halts o hist (ITree.iter body i) tr r.
Proof.
  intros H.
  eapply Halts_observe; [symmetry; apply (unfold_aloop_ body i)|].
  rewrite <- (app_nil_r tr).
  eapply Halts_bind; [exact H|apply Halts_ret].
Qed.

Lemma Halts_iter_again {I R} (body : I -> itree rpcE (I + R)) hist i i' tr1 tr2 r :
  Halts o hist (body i) tr1 (inl i') ->
  Halts o (hist ++ tr1) (ITree.iter body i') tr2 r ->
  Halts o hist (ITree.iter body i) (tr1 ++ tr2) r.
Proof.
  intros H1 H2.
  eapply Halts_observe; [symmetry; apply (unfold_aloop_ body i)|].
  eapply Halts_bind; [exact H1|apply Halts_tau; exact H2].
Qed.

(** The dispatcher ends against every oracle: the attempts are bounded. *)
Lemma makeRpcCall_halts this t method params hist :
  exists tr r, Halts o hist (makeRpcCall this t method params) tr r.
Proof.
  unfold makeRpcCall.
  generalize (mkError "Unknown error") as lastError.
  generalize 0 as a.
  destruct (retries (options this)) as [N|] eqn:EN.
  - intros a; remember (Z.to_nat (N - a)) as n eqn:En.
    revert a En hist; induction n as [|n IH]; intros a En hist lastError.
    + do 2 eexists; apply Halts_iter_stop; unfold makeRpcCall_body; rewrite EN; cbn [ltb].
      replace (a <? N) with false by (symmetry; apply Z.ltb_ge; lia).
      apply Halts_ret.
    + pose (x := o hist (ProviderSend t method params)).
      destruct x as [e|v] eqn:Ex.
      * pose (delay := if ltb (Num a) (sub (Num N) (Num 1))
                       then [Answer (SetTimeout (retryDelay (options this))) tt]
                       else []).
        destruct (IH (a + 1) ltac:(lia)
                    (hist ++ Answer (ProviderSend t method params) (inl e) :: delay) e)
          as (tr & r & Hrest).
        do 2 eexists; eapply Halts_iter_again; [|exact Hrest].
        unfold makeRpcCall_body; rewrite EN; cbn [ltb].
        replace (a <? N) with true by (symmetry; apply Z.ltb_lt; lia).
        change (Answer (ProviderSend t method params) (inl e) :: delay)
          with ([Answer (ProviderSend t method params) (inl e)] ++ delay).
        eapply Halts_bind; [rewrite <- Ex; apply Halts_trigger|]; fold x; rewrite Ex.
        rewrite <- (app_nil_r delay).
        eapply Halts_bind; [|apply Halts_ret].
        subst delay; cbn [ltb sub].
        destruct (a <? N - 1); [|apply Halts_ret].
        pose proof (Halts_trigger (hist ++ [Answer (ProviderSend t method params) (inl e)])
                      (SetTimeout (retryDelay (options this)))) as Hd.
        destruct (o _ (SetTimeout (retryDelay (options this)))); exact Hd.
      * do 2 eexists; apply Halts_iter_stop.
        unfold makeRpcCall_body; rewrite EN; cbn [ltb].
        replace (a <? N) with true by (symmetry; apply Z.ltb_lt; lia).
        eapply Halts_bind; [apply Halts_trigger|]; fold x; rewrite Ex.
        apply Halts_ret.
  - intros a lastError; do 2 eexists; apply Halts_iter_stop.
    unfold makeRpcCall_body; rewrite EN; cbn [ltb]; apply Halts_ret.
Qed.

End HaltsFacts.

(** ** Claims about the convenience operations *)

(** C10. [isContract] never raises: every run ends with a boolean, a
    rejection of the underlying [hasCode] call (the exhausted-retry failure
    of the dispatcher included) becomes [false], a fulfilled one is passed
    on, and against every environment the call ends. *)
Theorem C10_isContract_never_raises (this : OtterscanClient) (address : string)
    (blockNumber : StringOrNumber) :
  (forall tr r, Runs (isContract this address blockNumber) tr r -> exists b, r = inr b)
  /\
  (forall tr e,
      Runs (hasCode this address blockNumber) tr (inl e) ->
      Runs (isContract this address blockNumber) tr (inr false))
  /\
  (forall tr b,
      Runs (hasCode this address blockNumber) tr (inr b) ->
      Runs (isContract this address blockNumber) tr (inr b))
  /\
  (forall o : Oracle, exists tr b,
      Halts o [] (isContract this address blockNumber) tr (inr b)).
Proof.
  repeat split.
  - intros tr r H; unfold isContract in H; unfold_async H; runs_inv.
    destruct x; runs_inv; eauto.
  - intros tr e H; unfold isContract, try_catch.
    rewrite <- (app_nil_r tr); eapply Runs_bind; [exact H|apply Runs_ret].
  - intros tr b H; unfold isContract, try_catch.
    rewrite <- (app_nil_r tr); eapply Runs_bind; [exact H|apply Runs_ret].
  - intros o.
    destruct (makeRpcCall_halts o this TBoolean "ots_hasCode"
                [JString address; JString (hexParam blockNumber)] [])
      as (tr & r & H).
    exists (tr ++ []), (match r with inl _ => false | inr v => v end).
    unfold isContract, try_catch, hasCode.
    eapply Halts_bind; [exact H|].
    destruct r; apply Halts_ret.
Qed.

(** A node that is down: the three attempts of the default policy fail and
    [isContract] answers [false]. *)
Lemma C10_isContract_never_raises_witness :
  Runs (isContract default_client "0xdead" (Str "latest"))
       [ Answer (ProviderSend TBoolean "ots_hasCode" [JString "0xdead"; JString "latest"])
                (inl (mkError "connection refused"));
         Answer (SetTimeout (Num 1000)) tt;
         Answer (ProviderSend TBoolean "ots_hasCode" [JString "0xdead"; JString "latest"])
                (inl (mkError "connection refused"));
         Answer (SetTimeout (Num 1000)) tt;
         Answer (ProviderSend TBoolean "ots_hasCode" [JString "0xdead"; JString "latest"])
                (inl (mkError "connection refused")) ]
       (inr false).
Proof.
  refine (proj1 (proj2 (C10_isContract_never_raises default_client "0xdead"
                          (Str "latest"))) _
            (mkError "RPC call failed after 3 attempts: connection refused") _).
  apply (@exec_sound _ 20 node_down []); vm_compute; reflexivity.
Defined.



(** With the node down, the analysis still comes back, with the three
    defaults, after nine attempts. *)
Example analysis_node_down :
  option_map (fun x => (send_count (fst x), snd x))
    (exec 60 node_down [] (getTransactionAnalysis default_client "0xfeed"))
  = Some (9%nat, inr {| ta_trace := None; ta_internalOps := []; ta_error := None |}).
Proof. vm_compute. reflexivity. Qed.


(** ** Claims about the configuration *)

(** C8, as the code has it.  The constructor validates nothing: with
    [options.x || default] an absent, zero or [NaN] value is replaced by the
    default (30000, 3, 1000) and every other value is kept as supplied
    (first three parts, for every combination of options).  A negative value
    in particular is stored unchanged, neither rejected nor clamped (fourth
    part), and nothing checks it at call time either: with a negative
    attempt count every call is rejected without an attempt, and with a
    negative delay the timer between two attempts is set to that delay
    (fifth and sixth parts).  Hence the effective attempt count is at least
    1 when the supplied one is not negative, and the effective delay is not
    negative when the supplied one is not (last two parts). *)
Theorem C8_construction_defaults (rpcUrl : string) (o : OtterscanClientOptions) :
  let effective (supplied : option number) (default : Z) :=
    match supplied with
    | Some (Num z) => if z =? 0 then Num default else Num z
    | Some NaN | None => Num default
    end in
  let client := new_OtterscanClient rpcUrl o in
  timeout (options client) = effective (opt_timeout o) 30000 /\
  retries (options client) = effective (opt_retries o) 3 /\
  retryDelay (options client) = effective (opt_retryDelay o) 1000 /\
  (forall z, z < 0 ->
     (opt_timeout o = Some (Num z) -> timeout (options client) = Num z) /\
     (opt_retries o = Some (Num z) -> retries (options client) = Num z) /\
     (opt_retryDelay o = Some (Num z) -> retryDelay (options client) = Num z)) /\
  (forall z, z < 0 -> opt_retries o = Some (Num z) ->
     forall t method params tr r,
       Runs (makeRpcCall client t method params) tr r ->
       tr = [] /\
       r = inl (mkError ("RPC call failed after " ++ toString10 (Num z)
                         ++ " attempts: Unknown error"))) /\
  (forall z, z < 0 -> opt_retryDelay o = Some (Num z) ->
     forall t method params tr r,
       Runs (makeRpcCall client t method params) tr r ->
       forall ms, In (Answer (SetTimeout ms) tt) tr -> ms = Num z) /\
  ((forall z, opt_retries o = Some (Num z) -> 0 <= z) ->
   exists n, retries (options client) = Num n /\ 1 <= n) /\
  ((forall z, opt_retryDelay o = Some (Num z) -> 0 <= z) ->
   exists d, retryDelay (options client) = Num d /\ 0 <= d).
Proof.
  intros effective client.
  assert (E : forall s d, or_default s (Num d) = effective s d).
  { intros [[z|]|] d; cbn; [|reflexivity|reflexivity].
    destruct (z =? 0); reflexivity. }
  assert (Neg : forall s d z, z < 0 -> s = Some (Num z) -> or_default s (Num d) = Num z).
  { intros s d z Hz ->; cbn.
    destruct (Z.eqb_spec z 0); [lia|reflexivity]. }
  subst client; cbn [new_OtterscanClient options timeout retries retryDelay].
  split; [apply E|]; split; [apply E|]; split; [apply E|].
  split; [|split; [|split; [|split]]].
  - intros z Hz; repeat split; apply Neg; exact Hz.
  - intros z Hz Hr t method params tr r H.
    unfold makeRpcCall in H; apply Runs_iter_inv in H.
    destruct H as [H|(tr1 & tr2 & st' & -> & H & _)];
      unfold makeRpcCall_body in H;
      cbn [new_OtterscanClient options retries] in H;
      rewrite (Neg _ 3 z Hz Hr) in H; cbn [ltb sub] in H;
      replace (0 <? z) with false in H by (symmetry; apply Z.ltb_ge; lia);
      runs_inv; auto.
  - intros z Hz Hd t method params tr r H ms Hin.
    apply makeRpcCall_outcome in H; destruct H as [H _].
    rewrite Forall_forall in H; destruct (H _ Hin) as [[x Hx]|Hx].
    + inversion Hx.
    + dependent destruction Hx.
      cbn [new_OtterscanClient options retryDelay]; apply Neg; assumption.
  - intros Hr; rewrite E.
    destruct (opt_retries o) as [[z|]|]; cbn; [|exists 3; split; [reflexivity|lia]..].
    specialize (Hr z eq_refl).
    destruct (Z.eqb_spec z 0); [exists 3|exists z]; split; auto; lia.
  - intros Hd; rewrite E.
    destruct (opt_retryDelay o) as [[z|]|]; cbn; [|exists 1000; split; [reflexivity|lia]..].
    specialize (Hd z eq_refl).
    destruct (Z.eqb_spec z 0); [exists 1000|exists z]; split; auto; lia.
Qed.

(** Zero for the attempt count, a negative delay: the default is taken
    for the first, the second is kept as it is. *)
Lemma C8_construction_defaults_witness :
  retries (options (new_OtterscanClient "http://localhost:8545"
                      {| opt_timeout := None; opt_retries := Some (Num 0);
                         opt_retryDelay := Some (Num (-5)) |})) = Num 3 /\
  retryDelay (options (new_OtterscanClient "http://localhost:8545"
                         {| opt_timeout := None; opt_retries := Some (Num 0);
                            opt_retryDelay := Some (Num (-5)) |})) = Num (-5).
Proof.
  destruct (@C8_construction_defaults "http://localhost:8545"
              {| opt_timeout := None; opt_retries := Some (Num 0);
                 opt_retryDelay := Some (Num (-5)) |}) as (_ & H1 & _ & H2 & _).
  split; [exact H1|].
  exact (proj2 (proj2 (H2 (-5) ltac:(lia))) eq_refl).
Defined.

(** The claim as stated fails for negative values: [retries: -1] and
    [retryDelay: -5] are neither rejected nor clamped when the client is
    built, and nothing checks them at call time either: the call is rejected
    without a single attempt. *)
Lemma C8_counterexample :
  let client := new_OtterscanClient "http://localhost:8545"
                  {| opt_timeout := None; opt_retries := Some (Num (-1));
                     opt_retryDelay := Some (Num (-5)) |} in
  retries (options client) = Num (-1) /\
  retryDelay (options client) = Num (-5) /\
  Runs (getApiLevel client) []
       (inl (mkError "RPC call failed after -1 attempts: Unknown error")).
Proof.
  repeat split.
  apply (@exec_sound _ 20 node_down []); vm_compute; reflexivity.
Qed.

(** C9, against the claim.  The timeout of the options is stored by the
    constructor and read by nothing: two clients that differ only in the
    timeout supplied are the same dispatcher, and the only timer a call ever
    sets is the delay between two attempts. *)
Theorem C9_timeout_ignored (rpcUrl : string) (timeout1 timeout2 retries0 delay0 : option number)
    (t : ResultType) (method : string) (params : list Json) :
  makeRpcCall (new_OtterscanClient rpcUrl
                 {| opt_timeout := timeout1; opt_retries := retries0;
                    opt_retryDelay := delay0 |}) t method params
  = makeRpcCall (new_OtterscanClient rpcUrl
                   {| opt_timeout := timeout2; opt_retries := retries0;
                      opt_retryDelay := delay0 |}) t method params
  /\
  forall tr r,
    Runs (makeRpcCall (new_OtterscanClient rpcUrl
                         {| opt_timeout := timeout1; opt_retries := retries0;
                            opt_retryDelay := delay0 |}) t method params) tr r ->
    forall ms, In (Answer (SetTimeout ms) tt) tr -> ms = or_default delay0 (Num 1000).
Proof.
  split; [reflexivity|].
  intros tr r H ms Hin.
  apply makeRpcCall_outcome in H; destruct H as [H _].
  rewrite Forall_forall in H; destruct (H _ Hin) as [[x Hx]|Hx].
  - inversion Hx.
  - dependent destruction Hx; reflexivity.
Qed.

(** A timeout of one millisecond changes nothing: the call waits for the
    transport as long as it takes and the answer is returned. *)
Example timeout_of_one_millisecond :
  let client := new_OtterscanClient "http://localhost:8545"
                  {| opt_timeout := Some (Num 1); opt_retries := None;
                     opt_retryDelay := None |} in
  timeout (options client) = Num 1 /\
  Runs (getApiLevel client)
       [Answer (ProviderSend TNumber "ots_getApiLevel" []) (inr (Num 8))]
       (inr (Num 8)).
Proof.
  split; [reflexivity|].
  pose (slow := (fun _ X e =>
    match e in rpcE X return X with
    | ProviderSend t m ps =>
        match t return Error + denote t with
        | TNumber => inr (Num 8)
        | _ => inl (mkError "method not found")
        end
    | ProviderGetTransaction _ => inl (mkError "method not found")
    | SetTimeout _ => tt
    end) : Oracle).
  apply (@exec_sound _ 20 slow []); vm_compute; reflexivity.
Qed.

(** * Further properties of the client *)

(** ** The dispatcher: the call that is fulfilled *)

Lemma send_count_app tr1 tr2 : send_count (tr1 ++ tr2) = (send_count tr1 + send_count tr2)%nat.
Proof. unfold send_count; rewrite filter_app, length_app; reflexivity. Qed.

Lemma delay_count_app tr1 tr2 :
  delay_count (tr1 ++ tr2) = (delay_count tr1 + delay_count tr2)%nat.
Proof. unfold delay_count; rewrite filter_app, length_app; reflexivity. Qed.

Section DispatcherSuccess.

Variable this : OtterscanClient.
Variable t : ResultType.
Variable method : string.
Variable params : list Json.

Lemma send_count_retried_attempts errors :
  send_count (retried_attempts this t method params errors) = List.length errors.
Proof.
  induction errors as [|e rest IH]; [reflexivity|].
  unfold send_count in *; cbn in *; rewrite IH; reflexivity.
Qed.

Lemma delay_count_retried_attempts errors :
  delay_count (retried_attempts this t method params errors) = List.length errors.
Proof.
  induction errors as [|e rest IH]; [reflexivity|].
  unfold delay_count in *; cbn in *; rewrite IH; reflexivity.
Qed.

Lemma delay_count_failed_attempts errors :
  delay_count (failed_attempts this t method params errors) = Nat.pred (List.length errors).
Proof.
  induction errors as [|e rest IH]; [reflexivity|].
  destruct rest as [|e' rest]; [reflexivity|].
  unfold delay_count in *; cbn in *; rewrite IH; reflexivity.
Qed.

Lemma no_fulfilled_forallb tr :
  filter fulfilled tr = [] -> forallb (fun en => negb (fulfilled en)) tr = true.
Proof.
  induction tr as [|en tr IH]; cbn; [reflexivity|].
  destruct (fulfilled en); [discriminate|]; exact IH.
Qed.

Section Attempts.

Variable N : Z.
Hypothesis retries_N : retries (options this) = Num N.

(** From attempt [a]: the attempts that fail with [errors], each followed by
    a delay, then the attempt that is fulfilled. *)
Lemma makeRpcCall_success_run errors v : forall a lastError,
  0 <= a -> a + Z.of_nat (List.length errors) < N ->
  Runs (ITree.iter (makeRpcCall_body this t method params) (Num a, lastError))
       (retried_attempts this t method params errors
          ++ [Answer (ProviderSend t method params) (inr v)])
       (inr v).
Proof.
  induction errors as [|e rest IH]; intros a lastError Ha Hlen; cbn [List.length] in Hlen.
  - apply Runs_iter_stop.
    rewrite (makeRpcCall_body_eq this t method params N retries_N).
    replace (a <? N) with true by (symmetry; apply Z.ltb_lt; lia).
    apply Runs_trigger_bind, Runs_ret.
  - change (retried_attempts this t method params (e :: rest)
              ++ [Answer (ProviderSend t method params) (inr v)])
      with ([Answer (ProviderSend t method params) (inl e);
             Answer (SetTimeout (retryDelay (options this))) tt]
              ++ (retried_attempts this t method params rest
                    ++ [Answer (ProviderSend t method params) (inr v)])).
    eapply Runs_iter_again; [|apply (IH (a + 1) e); lia].
    rewrite (makeRpcCall_body_eq this t method params N retries_N).
    replace (a <? N) with true by (symmetry; apply Z.ltb_lt; lia).
    apply Runs_trigger_bind.
    replace (a <? N - 1) with true by (symmetry; apply Z.ltb_lt; lia).
    apply Runs_trigger_bind, Runs_ret.
Qed.

Lemma makeRpcCall_success_inv : forall st tr r,
  Runs (ITree.iter (makeRpcCall_body this t method params) st) tr r ->
  forall a lastError v, st = (Num a, lastError) -> 0 <= a -> r = inr v ->
  exists errors,
    a + Z.of_nat (List.length errors) < N /\
    tr = retried_attempts this t method params errors
           ++ [Answer (ProviderSend t method params) (inr v)].
Proof.
  intros st tr r H.
  pattern st, tr, r.
  revert st tr r H; apply Runs_iter_ind.
  - intros st tr r H a lastError v -> Ha ->.
    rewrite (makeRpcCall_body_eq this t method params N retries_N) in H.
    destruct (Z.ltb_spec a N) as [Hlt|Hge]; runs_inv.
    destruct x as [e|v']; runs_inv.
    exists []; cbn [List.length retried_attempts app]; split; [lia|reflexivity].
  - intros st st' tr1 tr2 r H1 H2 IH a lastError v -> Ha ->.
    rewrite (makeRpcCall_body_eq this t method params N retries_N) in H1.
    destruct (Z.ltb_spec a N) as [Hlt|Hge]; [|runs_inv].
    runs_inv. destruct x as [e|v']; runs_inv.
    rewrite app_nil_r.
    destruct (Z.ltb_spec a (N - 1)) as [Hlt'|Hge']; runs_inv;
      repeat match goal with u : unit |- _ => destruct u end;
      destruct (IH (a + 1) e v eq_refl ltac:(lia) eq_refl) as (errors & Hlen & ->).
    + exists (e :: errors); cbn [List.length]; split; [lia|reflexivity].
    + lia.
Qed.

End Attempts.

End DispatcherSuccess.

Section DispatcherShape.

Variable this : OtterscanClient.
Variable t : ResultType.
Variable method : string.
Variable params : list Json.

(** Without an attempt to make, the call is rejected at once. *)
Lemma makeRpcCall_no_attempt tr r :
  ltb (Num 0) (retries (options this)) = false ->
  Runs (makeRpcCall this t method params) tr r ->
  tr = [] /\ r = inl (exhausted this (mkError "Unknown error")).
Proof.
  unfold makeRpcCall; intros Hno H.
  apply Runs_iter_inv in H.
  destruct H as [H|(tr1 & tr2 & st' & -> & H & _)]; unfold makeRpcCall_body in H;
    rewrite Hno in H; runs_inv; auto.
Qed.


(** The two shapes of a call: some failures, each followed by a delay, then
    the fulfilled attempt; or as many failures as there are attempts, with a
    delay between two of them. *)
Lemma makeRpcCall_shape tr r :
  Runs (makeRpcCall this t method params) tr r ->
  (exists errors v,
      ltb (Num (Z.of_nat (List.length errors))) (retries (options this)) = true /\
      tr = retried_attempts this t method params errors
             ++ [Answer (ProviderSend t method params) (inr v)] /\
      r = inr v)
  \/
  (exists errors,
      match retries (options this) with
      | Num N => Z.of_nat (List.length errors) = Z.max N 0
      | NaN => errors = []
      end /\
      tr = failed_attempts this t method params errors /\
      r = inl (exhausted this (last errors (mkError "Unknown error")))).
Proof.
  intros H.
  destruct (ltb (Num 0) (retries (options this))) eqn:Hpos.
  - destruct (retries (options this)) as [N|] eqn:EN; [|discriminate].
    cbn in Hpos; apply Z.ltb_lt in Hpos.
    destruct r as [e|v].
    + right.
      pose proof (makeRpcCall_outcome H) as [_ Hnone].
      apply no_fulfilled_forallb in Hnone.
      destruct (@makeRpcCall_no_success_inv this t method params N EN _ tr _ H
                  0 _ eq_refl ltac:(lia) Hnone) as (errors & Hlen & -> & Hr).
      exists errors; repeat split; auto; lia.
    + left.
      destruct (@makeRpcCall_success_inv this t method params N EN _ tr _ H
                  0 _ v eq_refl ltac:(lia) eq_refl) as (errors & Hlen & ->).
      exists errors, v; cbn [ltb]; repeat split; auto.
      apply Z.ltb_lt; lia.
  - right; exists [].
    destruct (makeRpcCall_no_attempt Hpos H) as [-> ->].
    repeat split.
    destruct (retries (options this)) as [N|]; [|reflexivity].
    cbn in *; apply Z.ltb_ge in Hpos; lia.
Qed.

End DispatcherShape.

(** X1. The dispatcher returns the first fulfilled attempt.  First part:
    when the attempts fail with [errors], fewer than [retries] of them, and
    the next attempt is fulfilled with [v], the call sends the same request
    once per failure, waits [retryDelay] after each failure, sends it once
    more and returns [v] as the transport gave it; no attempt is made after
    the fulfilled one.  Second part: every run of the dispatcher that
    returns a value has this shape. *)
Theorem X1_first_success (this : OtterscanClient) (t : ResultType) (method : string)
    (params : list Json) :
  (forall (errors : list Error) (v : denote t),
      ltb (Num (Z.of_nat (List.length errors))) (retries (options this)) = true ->
      Runs (makeRpcCall this t method params)
           (retried_attempts this t method params errors
              ++ [Answer (ProviderSend t method params) (inr v)])
           (inr v))
  /\
  (forall tr (v : denote t),
      Runs (makeRpcCall this t method params) tr (inr v) ->
      exists errors : list Error,
        ltb (Num (Z.of_nat (List.length errors))) (retries (options this)) = true /\
        tr = retried_attempts this t method params errors
               ++ [Answer (ProviderSend t method params) (inr v)]).
Proof.
  split.
  - intros errors v Hlt.
    destruct (retries (options this)) as [N|] eqn:EN; [|discriminate].
    cbn in Hlt; apply Z.ltb_lt in Hlt.
    apply (@makeRpcCall_success_run this t method params N EN errors v 0
             (mkError "Unknown error")); lia.
  - intros tr v H.
    destruct (makeRpcCall_shape H) as [(errors & v' & Hlt & -> & Hr)|(errors & _ & _ & Hr)];
      [|discriminate].
    inversion Hr; subst v'.
    exists errors; auto.
Qed.

(** One refused attempt, then the answer. *)
Lemma X1_first_success_witness :
  Runs (getApiLevel default_client)
       [ Answer (ProviderSend TNumber "ots_getApiLevel" []) (inl (mkError "timeout"));
         Answer (SetTimeout (Num 1000)) tt;
         Answer (ProviderSend TNumber "ots_getApiLevel" []) (inr (Num 8)) ]
       (inr (Num 8)).
Proof.
  exact (proj1 (X1_first_success default_client TNumber "ots_getApiLevel" [])
           [mkError "timeout"] (Num 8) eq_refl).
Defined.

(** X2. The attempts of a call are bounded.  In every run of the
    dispatcher each exchange is the same request, sent again unchanged, or a
    delay of [retryDelay]; the delays are one fewer than the requests, one
    between two successive attempts and none after the last; the transport
    is invoked at most [retries] times, and not at all when [retries] is
    not positive.  Against every environment the call ends. *)
Theorem X2_attempts_bounded (this : OtterscanClient) (t : ResultType) (method : string)
    (params : list Json) :
  (forall tr r,
      Runs (makeRpcCall this t method params) tr r ->
      Forall (fun en => (exists x, en = Answer (ProviderSend t method params) x) \/
                        en = Answer (SetTimeout (retryDelay (options this))) tt) tr /\
      delay_count tr = Nat.pred (send_count tr) /\
      match retries (options this) with
      | Num N => Z.of_nat (send_count tr) <= Z.max N 0
      | NaN => send_count tr = 0%nat
      end)
  /\
  (forall (o : Oracle) (hist : list Entry),
      exists tr r, Halts o hist (makeRpcCall this t method params) tr r).
Proof.
  split; [|intros o hist; apply makeRpcCall_halts].
  intros tr r H.
  split; [exact (proj1 (makeRpcCall_outcome H))|].
  destruct (makeRpcCall_shape H) as [(errors & v & Hlt & -> & _)|(errors & Hlen & -> & _)].
  - rewrite send_count_app, delay_count_app.
    rewrite send_count_retried_attempts, delay_count_retried_attempts.
    change (send_count [Answer (ProviderSend t method params) (inr v)]) with 1%nat.
    change (delay_count [Answer (ProviderSend t method params) (inr v)]) with 0%nat.
    split; [lia|].
    destruct (retries (options this)) as [N|]; [|discriminate].
    cbn in Hlt; apply Z.ltb_lt in Hlt; lia.
  - rewrite send_count_failed_attempts, delay_count_failed_attempts.
    split; [reflexivity|].
    destruct (retries (options this)) as [N|]; [lia|subst errors; reflexivity].
Qed.



(** ** Block parameters *)

Lemma hex_digit_not_zero d : 0 < d < 16 -> hex_digit d <> "0"%char.
Proof.
  intros Hd.
  assert (D : d = 1 \/ d = 2 \/ d = 3 \/ d = 4 \/ d = 5 \/ d = 6 \/ d = 7 \/
              d = 8 \/ d = 9 \/ d = 10 \/ d = 11 \/ d = 12 \/ d = 13 \/ d = 14 \/ d = 15)
    by lia.
  repeat (destruct D as [->|D]; [discriminate|]); subst; discriminate.
Qed.

Lemma hex_digits_head fuel : forall n rest,
  0 < n < 2 ^ Z.of_nat (S fuel) ->
  exists c s, hex_digits (S fuel) n rest = String c s /\ c <> "0"%char.
Proof.
  induction fuel as [|fuel IH]; intros n rest Hn.
  - change (2 ^ Z.of_nat 1) with 2 in Hn.
    assert (n = 1) by lia; subst n.
    exists (hex_digit 1), rest; split; [reflexivity|discriminate].
  - change (hex_digits (S (S fuel)) n rest) with
      (if n / 16 =? 0 then String (hex_digit (n mod 16)) rest
       else hex_digits (S fuel) (n / 16) (String (hex_digit (n mod 16)) rest)).
    destruct (Z.eqb_spec (n / 16) 0) as [Hq|Hq].
    + exists (hex_digit (n mod 16)), rest; split; [reflexivity|].
      apply hex_digit_not_zero.
      pose proof (Z.div_mod n 16 ltac:(lia)) as Hdm.
      pose proof (Z.mod_pos_bound n 16 ltac:(lia)); lia.
    + apply IH; split.
      * pose proof (Z.div_pos n 16 ltac:(lia) ltac:(lia)); lia.
      * apply Z.div_lt_upper_bound; [lia|].
        rewrite (Nat2Z.inj_succ (S fuel)), Z.pow_succ_r in Hn by lia. lia.
Qed.

(** X4. The encoding of a block or nonce argument.  A string is passed on
    as it is.  A non-negative number [z] is passed as [0x] followed by its
    hexadecimal digits, which [parseInt(_, 16)] reads back as [z]: two
    different numbers are never given the same parameter; zero is [0x0] and
    the digits of a positive number do not start with [0].  A negative
    number is written with the sign after the prefix, as in [0x-1], which
    reads back as [NaN]. *)
Theorem X4_block_parameter :
  (forall s, hexParam (Str s) = s) /\
  (forall z, 0 <= z -> parseInt16 (hexParam (Number (Num z))) = Num z) /\
  (forall a b, 0 <= a -> 0 <= b ->
               hexParam (Number (Num a)) = hexParam (Number (Num b)) -> a = b) /\
  hexParam (Number (Num 0)) = "0x0" /\
  (forall z, 0 < z ->
             exists c s, hexParam (Number (Num z)) = String "0" (String "x" (String c s)) /\
                         c <> "0"%char) /\
  (forall z, z < 0 ->
             hexParam (Number (Num z)) = ("0x-" ++ toString16 (Num (- z)))%string /\
             parseInt16 (hexParam (Number (Num z))) = NaN).
Proof.
  assert (Hround : forall z, 0 <= z -> parseInt16 (hexParam (Number (Num z))) = Num z).
  { intros z Hz; rewrite parseInt16_hexParam.
    replace (z <? 0) with false by (symmetry; apply Z.ltb_ge; exact Hz).
    reflexivity. }
  split; [reflexivity|]; split; [exact Hround|]; split; [|split; [reflexivity|split]].
  - intros a b Ha Hb E.
    pose proof (Hround a Ha) as Ea; rewrite E, (Hround b Hb) in Ea.
    inversion Ea; reflexivity.
  - intros z Hz; unfold hexParam, toString16.
    replace (z <? 0) with false by (symmetry; apply Z.ltb_ge; lia).
    destruct (@hex_digits_head (Z.to_nat (Z.log2 z)) z "") as (c & s & E & Hc).
    { split; [exact Hz|].
      rewrite Nat2Z.inj_succ, Z2Nat.id by apply Z.log2_nonneg.
      apply Z.log2_spec; exact Hz. }
    exists c, s; split; [|exact Hc].
    unfold hex_of_nonneg; rewrite E; reflexivity.
  - intros z Hz; split.
    + unfold hexParam, toString16.
      replace (z <? 0) with true by (symmetry; apply Z.ltb_lt; exact Hz).
      replace (- z <? 0) with false by (symmetry; apply Z.ltb_ge; lia).
      reflexivity.
    + rewrite parseInt16_hexParam.
      replace (z <? 0) with true by (symmetry; apply Z.ltb_lt; exact Hz).
      reflexivity.
Qed.

(** ** The constructor *)

(** X5. What the constructor leaves in the options.  None of the three
    values is ever zero or [NaN]; building a client again from the values a
    client holds gives the same client; and the client makes no attempt at
    all exactly when a negative [retries] was supplied. *)
Theorem X5_constructor_invariants (rpcUrl : string) (o : OtterscanClientOptions) :
  let client := new_OtterscanClient rpcUrl o in
  truthy (timeout (options client)) = true /\
  truthy (retries (options client)) = true /\
  truthy (retryDelay (options client)) = true /\
  new_OtterscanClient rpcUrl
    {| opt_timeout := Some (timeout (options client));
       opt_retries := Some (retries (options client));
       opt_retryDelay := Some (retryDelay (options client)) |} = client /\
  (ltb (Num 0) (retries (options client)) = false <->
   exists z, opt_retries o = Some (Num z) /\ z < 0).
Proof.
  assert (T : forall s d, d <> 0 -> truthy (or_default s (Num d)) = true).
  { intros [[z|]|] d Hd; cbn; try (apply negb_true_iff, Z.eqb_neq; exact Hd).
    destruct (Z.eqb_spec z 0) as [E|E]; cbn; apply negb_true_iff, Z.eqb_neq; assumption. }
  assert (I : forall s d, d <> 0 ->
            or_default (Some (or_default s (Num d))) (Num d) = or_default s (Num d)).
  { intros s d Hd; unfold or_default at 1; rewrite (T s d Hd); reflexivity. }
  cbn zeta; cbn [new_OtterscanClient options timeout retries retryDelay].
  repeat split; try (apply T; lia).
  - unfold new_OtterscanClient; cbn [opt_timeout opt_retries opt_retryDelay].
    rewrite !I by lia; reflexivity.
  - destruct (opt_retries o) as [[z|]|]; cbn; try discriminate.
    destruct (Z.eqb_spec z 0) as [E|E]; cbn; [discriminate|].
    intros H; apply Z.ltb_ge in H; exists z; split; [reflexivity|lia].
  - intros (z & -> & Hz); cbn.
    destruct (Z.eqb_spec z 0) as [E|E]; [lia|]; cbn.
    apply Z.ltb_ge; lia.
Qed.

(** ** The backward traversal: requests and failures *)

Section BackwardRequests.

Variable this : OtterscanClient.
Variable address : string.
Variable fromBlock : StringOrNumber.
Variable pageSize : number.

Local Notation "'body'" :=
  (getAllTransactionsForAddress_body this address fromBlock pageSize).

Lemma request_exchanges cur tr rp :
  Runs (searchTransactionsBefore this address (Str cur) pageSize) tr rp ->
  Forall (backward_exchange this address pageSize) tr.
Proof.
  unfold searchTransactionsBefore; cbn [hexParam]; intros H.
  pose proof (@makeRpcCall_outcome this TPage _ _ tr rp H) as [Hall _].
  eapply Forall_impl; [|exact Hall].
  intros en [[x Hx]|Hx]; subst en; [left; eauto|right; reflexivity].
Qed.

Lemma backward_loop_exchanges st tr r :
  Runs (ITree.iter body st) tr r ->
  Forall (backward_exchange this address pageSize) tr.
Proof.
  intros H; pattern st, tr, r; revert st tr r H; apply Runs_iter_ind.
  - intros [acc cur] tr r H.
    apply backward_turn_inv in H; destruct H as (rp & Hreq & _).
    exact (request_exchanges Hreq).
  - intros [acc cur] st' tr1 tr2 r H1 _ IH.
    apply backward_turn_inv in H1; destruct H1 as (rp & Hreq & _).
    apply Forall_app; split; [exact (request_exchanges Hreq)|exact IH].
Qed.

(** The loop starts with a request for the page before its cursor. *)
Lemma backward_loop_first acc cur tr r :
  Runs (ITree.iter body (acc, cur)) tr r ->
  if ltb (Num 0) (retries (options this))
  then exists x rest,
         tr = Answer (ProviderSend TPage "ots_searchTransactionsBefore"
                        [JString address; JString cur; JNumber pageSize]) x :: rest
  else tr = [].
Proof.
  intros H.
  assert (Hturn : exists tr1 tr2 out, tr = tr1 ++ tr2 /\ Runs (body (acc, cur)) tr1 out /\
                                      (tr1 = [] -> tr2 = [])).
  { apply Runs_iter_inv in H.
    destruct H as [H|(tr1 & tr2 & st' & -> & H & Hnext)].
    - exists tr, [], (inr r); rewrite app_nil_r; auto.
    - exists tr1, tr2, (inl st'); repeat split; auto.
      intros ->.
      apply backward_turn_inv in H; destruct H as (rp & Hreq & Hout).
      pose proof (@makeRpcCall_first_exchange this TPage _ _ [] rp Hreq) as Hfirst.
      destruct (ltb (Num 0) (retries (options this)));
        [destruct Hfirst as (x & rest & Hx); discriminate|].
      destruct Hfirst as (_ & e & ->); discriminate. }
  destruct Hturn as (tr1 & tr2 & out & -> & Hturn & Hnil).
  apply backward_turn_inv in Hturn; destruct Hturn as (rp & Hreq & _).
  pose proof (@makeRpcCall_first_exchange this TPage _ _ tr1 rp Hreq) as Hfirst.
  destruct (ltb (Num 0) (retries (options this))).
  - destruct Hfirst as (x & rest & ->); exists x, (rest ++ tr2); reflexivity.
  - destruct Hfirst as [-> _]; rewrite (Hnil eq_refl); reflexivity.
Qed.

(** A loop that ends with a rejection ends with a page request that was
    rejected. *)
Lemma backward_loop_rejects st tr r :
  Runs (ITree.iter body st) tr r ->
  forall e, r = inl e ->
  exists tr0 tr1 cur,
    tr = tr0 ++ tr1 /\
    Runs (searchTransactionsBefore this address (Str cur) pageSize) tr1 (inl e).
Proof.
  intros H; pattern st, tr, r; revert st tr r H; apply Runs_iter_ind.
  - intros [acc cur] tr r H e ->.
    apply backward_turn_inv in H; destruct H as (rp & Hreq & Hres).
    destruct rp as [e'|page].
    + inversion Hres; subst e'; exists [], tr, cur; auto.
    + destruct Hres as [[_ Hres]|[(_ & _ & Hres)|(_ & _ & _ & front & tx & _ & Hres)]];
        discriminate.
  - intros [acc cur] st' tr1 tr2 r _ _ IH e ->.
    destruct (IH e eq_refl) as (tr0 & tr1' & cur' & -> & Hreq).
    exists (tr1 ++ tr0), tr1', cur'; rewrite app_assoc; auto.
Qed.

Lemma backward_turn_rejected acc cur tr e :
  Runs (searchTransactionsBefore this address (Str cur) pageSize) tr (inl e) ->
  Runs (body (acc, cur)) tr (inr (inl e)).
Proof.
  intros H; unfold getAllTransactionsForAddress_body.
  rewrite <- (app_nil_r tr); eapply Runs_bind; [exact H|]; cbn beta iota.
  apply Runs_ret.
Qed.

End BackwardRequests.

(** X6. What the backward traversal asks for.  Every exchange of a run of
    [getAllTransactionsForAddress] is a request of
    [ots_searchTransactionsBefore] for the same address and the same page
    size, only the cursor changes, or a delay before a request is sent
    again: no other method is called.  The first request, when the client
    has an attempt to make, is for the page before [toBlock], a number
    written in hexadecimal and a string passed as it is. *)
Theorem X6_backward_requests (this : OtterscanClient) (address : string)
    (fromBlock toBlock : StringOrNumber) (pageSize : number) (tr : list Entry)
    (r : Error + list TransactionDetails) :
  Runs (getAllTransactionsForAddress this address fromBlock toBlock pageSize) tr r ->
  Forall (backward_exchange this address pageSize) tr /\
  if ltb (Num 0) (retries (options this))
  then exists x rest,
         tr = Answer (ProviderSend TPage "ots_searchTransactionsBefore"
                        [JString address; JString (hexParam toBlock); JNumber pageSize]) x
                :: rest
  else tr = [].
Proof.
  intros H; apply getAllTransactionsForAddress_inv in H.
  destruct H as (lr & H & _); split.
  - exact (backward_loop_exchanges H).
  - exact (backward_loop_first H).
Qed.

(** The two requests of the example: same address, same page size. *)
Lemma X6_backward_requests_witness :
  Runs (getAllTransactionsForAddress default_client "0xabc"
          (Number (Num 100)) (Number (Num 200)) (Num 2))
       history_exchanges (inr [tx140; tx150; tx180]) /\
  Forall (backward_exchange default_client "0xabc" (Num 2)) history_exchanges /\
  exists x rest,
    history_exchanges
    = Answer (ProviderSend TPage "ots_searchTransactionsBefore"
                [JString "0xabc"; JString "0xc8"; JNumber (Num 2)]) x :: rest.
Proof.
  split; [exact history_run|].
  exact (X6_backward_requests history_run).
Defined.

Section BackwardCursors.

Variable this : OtterscanClient.
Variable address : string.
Variable fromBlock toBlock : StringOrNumber.
Variable pageSize : number.

Local Notation "'body'" :=
  (getAllTransactionsForAddress_body this address fromBlock pageSize).



End BackwardCursors.



(** X8. A failure in the middle of the backward traversal.  First part:
    a run of [getAllTransactionsForAddress] that is rejected ends with a
    page request all of whose attempts failed, and the rejection is the one
    of the dispatcher for that request.  Second part: whatever the loop has
    gathered so far, a rejected page request ends the loop with the
    rejection; the records of the pages read before are not returned. *)
Theorem X8_backward_failure (this : OtterscanClient) (address : string)
    (fromBlock toBlock : StringOrNumber) (pageSize : number) :
  (forall tr e,
      Runs (getAllTransactionsForAddress this address fromBlock toBlock pageSize)
           tr (inl e) ->
      exists tr0 cursor errors,
        tr = tr0 ++ failed_attempts this TPage "ots_searchTransactionsBefore"
                      [JString address; JString cursor; JNumber pageSize] errors /\
        e = exhausted this (last errors (mkError "Unknown error")))
  /\
  (forall acc cursor tr1 e,
      Runs (searchTransactionsBefore this address (Str cursor) pageSize) tr1 (inl e) ->
      Runs (ITree.iter (getAllTransactionsForAddress_body this address fromBlock pageSize)
              (acc, cursor)) tr1 (inl e)).
Proof.
  split.
  - intros tr e H; apply getAllTransactionsForAddress_inv in H.
    destruct H as (lr & H & Hr).
    destruct lr as [e'|all]; [|discriminate]; inversion Hr; subst e'.
    destruct (backward_loop_rejects H eq_refl) as (tr0 & tr1 & cur & -> & Hreq).
    unfold searchTransactionsBefore in Hreq; cbn [hexParam] in Hreq.
    destruct (@makeRpcCall_shape this TPage _ _ tr1 (inl e) Hreq)
      as [(errors & v & _ & _ & Hr')|(errors & _ & -> & Hr')]; [discriminate|].
    inversion Hr'; subst e.
    exists tr0, cur, errors; auto.
  - intros acc cursor tr1 e Hreq.
    apply Runs_iter_stop, backward_turn_rejected, Hreq.
Qed.

(** The node is lost after the first page: the records of blocks 180 and
    150, which the client has read, are not returned. *)
Lemma X8_backward_failure_witness :
  Runs (getAllTransactionsForAddress default_client "0xabc"
          (Str "earliest") (Number (Num 200)) (Num 2))
       [ Answer (ProviderSend TPage "ots_searchTransactionsBefore"
                   [JString "0xabc"; JString "0xc8"; JNumber (Num 2)])
                (inr (mkPage [tx180; tx150] false false));
         Answer (ProviderSend TPage "ots_searchTransactionsBefore"
                   [JString "0xabc"; JString "0x95"; JNumber (Num 2)])
                (inl (mkError "connection lost"));
         Answer (SetTimeout (Num 1000)) tt;
         Answer (ProviderSend TPage "ots_searchTransactionsBefore"
                   [JString "0xabc"; JString "0x95"; JNumber (Num 2)])
                (inl (mkError "connection lost"));
         Answer (SetTimeout (Num 1000)) tt;
         Answer (ProviderSend TPage "ots_searchTransactionsBefore"
                   [JString "0xabc"; JString "0x95"; JNumber (Num 2)])
                (inl (mkError "connection lost")) ]
       (inl (mkError "RPC call failed after 3 attempts: connection lost")).
Proof.
  change
    (Runs (getAllTransactionsForAddress default_client "0xabc"
             (Str "earliest") (Number (Num 200)) (Num 2))
          ([ Answer (ProviderSend TPage "ots_searchTransactionsBefore"
                       [JString "0xabc"; JString "0xc8"; JNumber (Num 2)])
                    (inr (mkPage [tx180; tx150] false false)) ]
             ++ failed_attempts default_client TPage "ots_searchTransactionsBefore"
                  [JString "0xabc"; JString "0x95"; JNumber (Num 2)]
                  [mkError "connection lost"; mkError "connection lost";
                   mkError "connection lost"])
          (inl (mkError "RPC call failed after 3 attempts: connection lost"))).
  apply (@getAllTransactionsForAddress_run default_client "0xabc" (Str "earliest")
           (Number (Num 200)) (Num 2) _
           (inl (mkError "RPC call failed after 3 attempts: connection lost"))).
  eapply Runs_iter_again.
  - apply (@exec_sound _ 20 dropping_server []); vm_compute; reflexivity.
  - apply (proj2 (X8_backward_failure default_client "0xabc" (Str "earliest")
                    (Number (Num 200)) (Num 2))).
    apply (@exec_sound _ 20 dropping_server [Answer (SetTimeout (Num 1000)) tt]);
      vm_compute; reflexivity.
Defined.

(** ** The backward traversal: the lower bound and the order *)

Lemma kept_unreadable fromBlock page :
  fromBlockNum fromBlock = NaN -> kept fromBlock page = [].
Proof.
  intros Hnan; unfold kept.
  induction (txs page) as [|tx l IH]; [reflexivity|]; cbn [filter].
  unfold inRequestedRange at 1; rewrite Hnan.
  destruct (parseInt16 (blockNumber tx)); exact IH.
Qed.

(** X9. A lower bound that is not a block number.  When [fromBlock] is
    neither [earliest] nor a string that starts with a hexadecimal number
    ([latest], [pending] and [safe] are such strings), nor a number other
    than [NaN], the comparison with it fails for every record: a traversal
    that returns has read one page and returns the empty sequence, whatever
    the page holds. *)
Theorem X9_unreadable_lower_bound (this : OtterscanClient) (address : string)
    (fromBlock toBlock : StringOrNumber) (pageSize : number) (tr : list Entry)
    (all : list TransactionDetails) :
  fromBlockNum fromBlock = NaN ->
  Runs (getAllTransactionsForAddress this address fromBlock toBlock pageSize)
       tr (inr all) ->
  all = [] /\ exists page, fetched_pages tr = [page].
Proof.
  intros Hnan H.
  destruct (getAllTransactionsForAddress_result H) as [-> Hloop].
  split.
  - assert (E : forall pages, flat_map (kept fromBlock) pages = []).
    { induction pages as [|p l IH]; [reflexivity|].
      cbn [flat_map]; rewrite (kept_unreadable p Hnan), IH; reflexivity. }
    rewrite E; reflexivity.
  - apply Runs_iter_inv in Hloop.
    destruct Hloop as [Hturn|(tr1 & tr2 & st' & -> & Hturn & _)];
      apply backward_turn_inv in Hturn; destruct Hturn as (rp & Hreq & Hres);
      destruct (request_page Hreq) as [Hp _]; destruct rp as [e|page]; try discriminate.
    + exists page; exact Hp.
    + destruct Hres as [[_ Hres]|[(_ & _ & Hres)|(Hne & _ & Hall & _)]]; try discriminate.
      rewrite (kept_unreadable page Hnan) in Hall; congruence.
Qed.

(** With [latest] as the lower bound, the page with the records of blocks
    180 and 150 is read and nothing is returned. *)
Lemma X9_unreadable_lower_bound_witness :
  fromBlockNum (Str "latest") = NaN /\
  Runs (getAllTransactionsForAddress default_client "0xabc"
          (Str "latest") (Number (Num 200)) (Num 2))
       [ Answer (ProviderSend TPage "ots_searchTransactionsBefore"
                   [JString "0xabc"; JString "0xc8"; JNumber (Num 2)])
                (inr (mkPage [tx180; tx150] false false)) ]
       (inr []) /\
  exists page,
    fetched_pages
      [ Answer (ProviderSend TPage "ots_searchTransactionsBefore"
                  [JString "0xabc"; JString "0xc8"; JNumber (Num 2)])
               (inr (mkPage [tx180; tx150] false false)) ] = [page].
Proof.
  assert (H : Runs (getAllTransactionsForAddress default_client "0xabc"
                      (Str "latest") (Number (Num 200)) (Num 2))
                [ Answer (ProviderSend TPage "ots_searchTransactionsBefore"
                            [JString "0xabc"; JString "0xc8"; JNumber (Num 2)])
                         (inr (mkPage [tx180; tx150] false false)) ]
                (inr [])).
  { apply (@exec_sound _ 20 history_server []); vm_compute; reflexivity. }
  split; [reflexivity|]; split; [exact H|].
  exact (proj2 (@X9_unreadable_lower_bound default_client "0xabc" (Str "latest")
                  (Number (Num 200)) (Num 2) _ _ eq_refl H)).
Defined.

(** X10. A range with its bounds the wrong way round.  When [toBlock] is
    below [fromBlock], both numbers, and the server lists no record above
    the cursor, the traversal that returns has read one page and returns
    the empty sequence: every record of the page is below the lower bound,
    which stops the loop after the first page. *)
Theorem X10_empty_range (this : OtterscanClient) (address : string) (f t : Z)
    (pageSize : number) (tr : list Entry) (all : list TransactionDetails) :
  t < f ->
  Forall honours_cursor tr ->
  Runs (getAllTransactionsForAddress this address (Number (Num f)) (Number (Num t))
          pageSize) tr (inr all) ->
  all = [] /\ exists page, fetched_pages tr = [page].
Proof.
  intros Htf Hh H.
  destruct (getAllTransactionsForAddress_result H) as [-> Hloop].
  assert (Hnone : forall tr1 page,
             Runs (searchTransactionsBefore this address (Str (hexParam (Number (Num t))))
                     pageSize) tr1 (inr page) ->
             Forall honours_cursor tr1 ->
             kept (Number (Num f)) page = []).
  { intros tr1 page Hreq Hh1.
    destruct (request_page Hreq) as [_ Hb].
    destruct (Hb Hh1 page eq_refl) as [Hl|Hbound];
      [exfalso; exact (@hexParam_not_latest (Num t) Hl)|].
    rewrite parseInt16_hexParam in Hbound.
    unfold kept.
    induction (txs page) as [|tx l IH]; [reflexivity|]; cbn [filter].
    pose proof (Hbound tx (or_introl eq_refl)) as Htx.
    unfold inRequestedRange at 1; fold (blockNum tx); cbn [fromBlockNum].
    destruct (t <? 0); apply leb_numeric in Htx;
      destruct Htx as (b & c & Hb' & Hc & Hbc); [discriminate|].
    inversion Hc; subst c; rewrite Hb'; cbn [geb].
    replace (f <=? b) with false by (symmetry; apply Z.leb_gt; lia).
    apply IH; intros tx' Htx'; apply Hbound; right; exact Htx'. }
  apply Runs_iter_inv in Hloop.
  destruct Hloop as [Hturn|(tr1 & tr2 & st' & -> & Hturn & _)];
    apply backward_turn_inv in Hturn; destruct Hturn as (rp & Hreq & Hres);
    destruct (request_page Hreq) as [Hp _]; destruct rp as [e|page]; try discriminate.
  - rewrite Hp; cbn [flat_map]; rewrite app_nil_r.
    rewrite (Hnone _ _ Hreq Hh).
    split; [reflexivity|exists page; reflexivity].
  - destruct Hres as [[_ Hres]|[(_ & _ & Hres)|(Hne & _ & Hall & _)]]; try discriminate.
    apply Forall_app in Hh; destruct Hh as [Hh1 _].
    rewrite (Hnone _ _ Hreq Hh1) in Hall; congruence.
Qed.

(** The records before block 200, asked for from block 300 on. *)
Lemma X10_empty_range_witness :
  200 < 300 /\
  Forall honours_cursor
    [ Answer (ProviderSend TPage "ots_searchTransactionsBefore"
                [JString "0xabc"; JString "0xc8"; JNumber (Num 2)])
             (inr (mkPage [tx180; tx150] false false)) ] /\
  Runs (getAllTransactionsForAddress default_client "0xabc"
          (Number (Num 300)) (Number (Num 200)) (Num 2))
       [ Answer (ProviderSend TPage "ots_searchTransactionsBefore"
                   [JString "0xabc"; JString "0xc8"; JNumber (Num 2)])
                (inr (mkPage [tx180; tx150] false false)) ]
       (inr []) /\
  exists page,
    fetched_pages
      [ Answer (ProviderSend TPage "ots_searchTransactionsBefore"
                  [JString "0xabc"; JString "0xc8"; JNumber (Num 2)])
               (inr (mkPage [tx180; tx150] false false)) ] = [page].
Proof.
  assert (Hh : Forall honours_cursor
                 [ Answer (ProviderSend TPage "ots_searchTransactionsBefore"
                             [JString "0xabc"; JString "0xc8"; JNumber (Num 2)])
                          (inr (mkPage [tx180; tx150] false false)) ]).
  { apply Forall_cons; [|apply Forall_nil].
    intros a c ps p E; cbn in E; inversion E; subst; clear E.
    right; cbn; intros tx Htx;
      repeat (destruct Htx as [<-|Htx]; [reflexivity|]); contradiction. }
  assert (H : Runs (getAllTransactionsForAddress default_client "0xabc"
                      (Number (Num 300)) (Number (Num 200)) (Num 2))
                [ Answer (ProviderSend TPage "ots_searchTransactionsBefore"
                            [JString "0xabc"; JString "0xc8"; JNumber (Num 2)])
                         (inr (mkPage [tx180; tx150] false false)) ]
                (inr [])).
  { apply (@exec_sound _ 20 history_server []); vm_compute; reflexivity. }
  split; [lia|]; split; [exact Hh|]; split; [exact H|].
  exact (proj2 (@X10_empty_range default_client "0xabc" 300 200 (Num 2) _ _
                  ltac:(lia) Hh H)).
Defined.

Lemma sort_insert_in_block b x l :
  filter (in_block b) (sort_insert compareBlockNumber x l) = filter (in_block b) (x :: l).
Proof.
  induction l as [|y l IH]; [reflexivity|].
  cbn [sort_insert].
  destruct (cmp_positive (compareBlockNumber x y)) eqn:Hc; [|reflexivity].
  cbn [filter] in *; rewrite IH.
  unfold compareBlockNumber in Hc; fold (blockNum x) (blockNum y) in Hc.
  unfold in_block.
  destruct (blockNum x) as [bx|], (blockNum y) as [cy|]; cbn in Hc; try discriminate.
  apply Z.ltb_lt in Hc.
  destruct (Z.eqb_spec bx b), (Z.eqb_spec cy b); try reflexivity; lia.
Qed.

Lemma Array_sort_in_block b l :
  filter (in_block b) (Array_sort compareBlockNumber l) = filter (in_block b) l.
Proof.
  induction l as [|x l IH]; [reflexivity|].
  change (Array_sort compareBlockNumber (x :: l))
    with (sort_insert compareBlockNumber x (Array_sort compareBlockNumber l)).
  rewrite sort_insert_in_block; cbn [filter]; rewrite IH; reflexivity.
Qed.

(** X11. The order inside a block.  The final sort compares block numbers
    only and is stable: the records of one block come back in the order in
    which the server delivered them, page after page, and are not put in
    the order of their position in the block. *)
Theorem X11_order_within_block (this : OtterscanClient) (address : string)
    (fromBlock toBlock : StringOrNumber) (pageSize : number) (tr : list Entry)
    (all : list TransactionDetails) :
  Runs (getAllTransactionsForAddress this address fromBlock toBlock pageSize)
       tr (inr all) ->
  forall b,
    filter (in_block b) all
    = filter (in_block b) (flat_map (kept fromBlock) (fetched_pages tr)).
Proof.
  intros H b.
  destruct (getAllTransactionsForAddress_result H) as [-> _].
  apply Array_sort_in_block.
Qed.

(** The two records of block 140 keep the order of the page. *)
Lemma X11_order_within_block_witness :
  Runs (getAllTransactionsForAddress default_client "0xabc"
          (Str "earliest") (Str "latest") (Num 25))
       [ Answer (ProviderSend TPage "ots_searchTransactionsBefore"
                   [JString "0xabc"; JString "latest"; JNumber (Num 25)])
                (inr (mkPage [tx150; tx140b; tx140] true false)) ]
       (inr [tx140b; tx140; tx150]) /\
  filter (in_block 140) [tx140b; tx140; tx150] = [tx140b; tx140].
Proof.
  assert (H : Runs (getAllTransactionsForAddress default_client "0xabc"
                      (Str "earliest") (Str "latest") (Num 25))
                [ Answer (ProviderSend TPage "ots_searchTransactionsBefore"
                            [JString "0xabc"; JString "latest"; JNumber (Num 25)])
                         (inr (mkPage [tx150; tx140b; tx140] true false)) ]
                (inr [tx140b; tx140; tx150])).
  { apply (@exec_sound _ 20 same_block_server []); vm_compute; reflexivity. }
  split; [exact H|].
  exact (eq_trans (X11_order_within_block H 140) eq_refl).
Defined.

(** ** Runs against a server: where the answers come from *)

Lemma exec_from_oracle {R} (o : Oracle) fuel : forall hist (t : itree rpcE R) tr r,
  exec fuel o hist t = Some (tr, r) -> Forall (from_oracle o) tr.
Proof.
  induction fuel as [|fuel IH]; cbn; intros hist t tr r H; [discriminate|].
  destruct (observe t) as [r0|t'|X e k].
  - inversion H; constructor.
  - eapply IH; exact H.
  - destruct (exec fuel o _ (k (o hist X e))) as [[tr' r']|] eqn:E; [|discriminate].
    inversion H; subst.
    constructor; [exists hist; reflexivity|eapply IH; exact E].
Qed.

Lemma Halts_from_oracle {R} (o : Oracle) hist (t : itree rpcE R) tr r :
  Halts o hist t tr r -> Forall (from_oracle o) tr.
Proof. intros [fuel H]; eapply exec_from_oracle; exact H. Qed.

(** The page a call returns is an answer of the server to the request of
    the call. *)
Lemma page_from_oracle (o : Oracle) this method params tr page :
  Runs (makeRpcCall this TPage method params) tr (inr page) ->
  Forall (from_oracle o) tr ->
  exists hist, o hist _ (ProviderSend TPage method params) = inr page.
Proof.
  intros H Ho.
  destruct (makeRpcCall_page H) as [_ Hin].
  rewrite Forall_forall in Ho.
  destruct (Ho _ (Hin page eq_refl)) as [hist Hx].
  exists hist; symmetry; exact Hx.
Qed.

(** ** The backward traversal against a server *)

Lemma Halts_bind_ret {T U} (o : Oracle) hist (t : itree rpcE T) (k : T -> itree rpcE U)
    tr x r :
  Halts o hist t tr x -> k x = Ret r -> Halts o hist (ITree.bind t k) tr r.
Proof.
  intros H E; rewrite <- (app_nil_r tr).
  eapply Halts_bind; [exact H|rewrite E; apply Halts_ret].
Qed.

Section BackwardHalts.

Variable o : Oracle.
Variable this : OtterscanClient.
Variable address : string.
Variable fromBlock : StringOrNumber.
Variable pageSize : number.

Local Notation "'body'" :=
  (getAllTransactionsForAddress_body this address fromBlock pageSize).

(** A turn of the loop ends: the request does, and what follows it asks
    for nothing. *)
Lemma backward_turn_halts hist acc cur :
  exists tr res, Halts o hist (body (acc, cur)) tr res.
Proof.
  destruct (makeRpcCall_halts o this TPage "ots_searchTransactionsBefore"
              [JString address; JString cur; JNumber pageSize] hist) as (tr & rp & H).
  unfold getAllTransactionsForAddress_body, searchTransactionsBefore; cbn [hexParam].
  match goal with
  | |- exists tr res, Halts _ _ (ITree.bind _ ?k) tr res =>
      assert (HK : exists res, k rp = Ret res)
  end.
  { destruct rp as [e|page]; cbn beta iota zeta; [eexists; reflexivity|].
    repeat match goal with
           | |- context [if ?c then _ else _] => destruct c
           | |- context [match ?c with Some _ => _ | None => _ end] => destruct c
           end; eexists; reflexivity. }
  destruct HK as [res HK].
  exists tr, res; eapply Halts_bind_ret; [exact H|exact HK].
Qed.

Hypothesis honest : cursor_honest o.

(** From a cursor that names the block [c] the loop ends: the last record
    of a page is not above the cursor, so the next cursor is below it, and
    below block zero there is no record. *)
Lemma backward_loop_halts_numeric : forall n c, c < Z.of_nat n -> forall hist acc,
  exists tr r,
    Halts o hist (ITree.iter body (acc, hexParam (Number (Num c)))) tr r.
Proof.
  induction n as [|n IH]; intros c Hc hist acc;
    destruct (backward_turn_halts hist acc (hexParam (Number (Num c))))
      as (tr1 & res & Hturn);
    (destruct res as [[acc' cur']|r];
     [|exists tr1, r; apply Halts_iter_stop; exact Hturn]);
    pose proof (Halts_Runs Hturn) as Hrun;
    pose proof (Halts_from_oracle Hturn) as Hfrom;
    apply backward_turn_inv in Hrun; destruct Hrun as (rp & Hreq & Hres);
    (destruct rp as [e|page]; [discriminate|]);
    destruct Hres as [[_ Hres]|[(_ & _ & Hres)|(Hne & Hf & Hall & front & etx & Hlast & Hres)]];
    try discriminate;
    inversion Hres; subst acc' cur'; clear Hres;
    unfold searchTransactionsBefore in Hreq; cbn [hexParam] in Hreq;
    destruct (page_from_oracle Hreq Hfrom) as [h Hanswer];
    apply honest in Hanswer;
    (destruct Hanswer as [Hl|Hbound]; [cbn in Hl; discriminate|]);
    assert (He : In etx (txs page))
      by (rewrite Hlast; apply in_or_app; right; left; reflexivity);
    specialize (Hbound etx He);
    change ("0x" ++ toString16 (Num c))%string with (hexParam (Number (Num c)))
      in Hbound;
    rewrite parseInt16_hexParam in Hbound;
    (destruct (Z.ltb_spec c 0) as [Hneg|Hpos]; apply leb_numeric in Hbound;
     destruct Hbound as (m & c' & Hm & Hc' & Hmc); [discriminate|]);
    inversion Hc'; subst c'.
  - lia.
  - rewrite Hm in Hturn; cbn [sub] in Hturn.
    destruct (IH (m - 1) ltac:(lia) (hist ++ tr1) (acc ++ txs page)) as (tr2 & r & Hrest).
    exists (tr1 ++ tr2), r.
    eapply Halts_iter_again; [exact Hturn|exact Hrest].
Qed.

Lemma backward_loop_halts hist acc cur :
  exists tr r, Halts o hist (ITree.iter body (acc, cur)) tr r.
Proof.
  destruct (backward_turn_halts hist acc cur) as (tr1 & res & Hturn).
  destruct res as [[acc' cur']|r];
    [|exists tr1, r; apply Halts_iter_stop; exact Hturn].
  pose proof (Halts_Runs Hturn) as Hrun.
  apply backward_turn_inv in Hrun; destruct Hrun as (rp & Hreq & Hres).
  destruct rp as [e|page]; [discriminate|].
  destruct Hres as [[_ Hres]|[(_ & _ & Hres)|(Hne & Hf & Hall & front & etx & Hlast & Hres)]];
    try discriminate.
  inversion Hres; subst acc' cur'; clear Hres.
  assert (He : In etx (kept fromBlock page))
    by (rewrite Hall, Hlast; apply in_or_app; right; left; reflexivity).
  apply kept_In in He; destruct He as [_ He].
  apply geb_numeric in He; destruct He as (m & f & Hm & _ & _).
  rewrite Hm in Hturn; cbn [sub] in Hturn.
  destruct (@backward_loop_halts_numeric (Z.to_nat (Z.max m 0)) (m - 1) ltac:(lia)
              (hist ++ tr1) (acc ++ txs page)) as (tr2 & r & Hrest).
  exists (tr1 ++ tr2), r.
  eapply Halts_iter_again; [exact Hturn|exact Hrest].
Qed.

End BackwardHalts.

(** X12. The backward traversal ends against a server that keeps to the
    cursor.  When the server never lists a record above the cursor it is
    asked for, [getAllTransactionsForAddress] ends for every address, every
    range and every page size, after whatever exchanges came before: with
    the aggregate, or with the rejection of a page request.  Neither the
    order inside a page nor the flag [firstPage] is needed for that. *)
Theorem X12_backward_terminates (o : Oracle) (this : OtterscanClient) (address : string)
    (fromBlock toBlock : StringOrNumber) (pageSize : number) (hist : list Entry) :
  cursor_honest o ->
  exists tr r,
    Halts o hist (getAllTransactionsForAddress this address fromBlock toBlock pageSize)
          tr r.
Proof.
  intros honest.
  destruct (@backward_loop_halts o this address fromBlock pageSize honest hist []
              (hexParam toBlock)) as (tr & lr & H).
  exists tr, (match lr with
              | inl e => inl e
              | inr all => inr (Array_sort compareBlockNumber all)
              end).
  unfold getAllTransactionsForAddress, await.
  eapply Halts_bind_ret; [exact H|].
  destruct lr; reflexivity.
Qed.

Lemma history_server_honest : cursor_honest history_server.
Proof.
  intros hist address cursor pageSize page H.
  unfold history_server in H.
  destruct (String.eqb cursor "0xc8") eqn:E1.
  - apply String.eqb_eq in E1; subst cursor; inversion H; subst page.
    right; intros tx [<-|[<-|[]]]; reflexivity.
  - destruct (String.eqb cursor "0x95") eqn:E2.
    + apply String.eqb_eq in E2; subst cursor; inversion H; subst page.
      right; intros tx [<-|[<-|[]]]; reflexivity.
    + inversion H; subst page.
      right; intros tx [].
Qed.

(** The server of the example keeps to the cursor. *)
Lemma X12_backward_terminates_witness :
  cursor_honest history_server /\
  exists tr r,
    Halts history_server []
          (getAllTransactionsForAddress default_client "0xabc"
             (Number (Num 100)) (Number (Num 200)) (Num 2)) tr r.
Proof.
  split; [exact history_server_honest|].
  exact (@X12_backward_terminates history_server default_client "0xabc"
           (Number (Num 100)) (Number (Num 200)) (Num 2) [] history_server_honest).
Defined.

Section BackwardBound.

Variable this : OtterscanClient.
Variable address : string.
Variable fromBlock : StringOrNumber.
Variable pageSize : number.

Local Notation "'body'" :=
  (getAllTransactionsForAddress_body this address fromBlock pageSize).

(** Each page read takes the cursor down by one block at least. *)
Lemma backward_pages_bounded st tr r :
  Runs (ITree.iter body st) tr r ->
  Forall honours_cursor tr ->
  forall acc c, st = (acc, hexParam (Number (Num c))) ->
  Z.of_nat (List.length (fetched_pages tr)) <= Z.max c (-1) + 2.
Proof.
  intros H; pattern st, tr, r; revert st tr r H; apply Runs_iter_ind.
  - intros st tr r H Hh acc c ->.
    apply backward_turn_inv in H; destruct H as (rp & Hreq & _).
    destruct (request_page Hreq) as [Hp _]; rewrite Hp.
    destruct rp; cbn [List.length]; lia.
  - intros st st' tr1 tr2 r H1 H2 IH Hh acc c ->.
    apply Forall_app in Hh; destruct Hh as [Hh1 Hh2].
    apply backward_turn_inv in H1; destruct H1 as (rp & Hreq & Hres).
    destruct (request_page Hreq) as [Hp Hb].
    rewrite fetched_pages_app, length_app, Hp.
    destruct rp as [e|page]; [discriminate|].
    destruct (Hb Hh1 _ eq_refl) as [Hl|Hbound];
      [exfalso; exact (@hexParam_not_latest (Num c) Hl)|].
    destruct Hres as [[_ Hres]|[(_ & _ & Hres)|(_ & _ & _ & front & etx & Hlast & Hres)]];
      try discriminate.
    inversion Hres; subst st'; clear Hres.
    assert (He : In etx (txs page))
      by (rewrite Hlast; apply in_or_app; right; left; reflexivity).
    specialize (Hbound etx He); rewrite parseInt16_hexParam in Hbound.
    destruct (Z.ltb_spec c 0) as [Hneg|Hpos]; apply leb_numeric in Hbound;
      destruct Hbound as (m & c' & Hm & Hc' & Hmc); [discriminate|].
    inversion Hc'; subst c'.
    specialize (IH Hh2 (acc ++ txs page) (m - 1)).
    rewrite Hm in IH; specialize (IH eq_refl).
    cbn [List.length]; lia.
Qed.

End BackwardBound.

(** X13. How many pages the backward traversal reads.  With a numeric
    [toBlock] and a server that lists no record above the cursor, a run of
    [getAllTransactionsForAddress] holds at most [toBlock + 2] delivered
    pages (one page when [toBlock] is negative): every page that does not
    end the traversal moves the cursor down by one block at least, and no
    record can be delivered below block zero. *)
Theorem X13_backward_page_bound (this : OtterscanClient) (address : string)
    (fromBlock : StringOrNumber) (t : Z) (pageSize : number) (tr : list Entry)
    (r : Error + list TransactionDetails) :
  Forall honours_cursor tr ->
  Runs (getAllTransactionsForAddress this address fromBlock (Number (Num t)) pageSize)
       tr r ->
  Z.of_nat (List.length (fetched_pages tr)) <= Z.max t (-1) + 2.
Proof.
  intros Hh H; apply getAllTransactionsForAddress_inv in H.
  destruct H as (lr & H & _).
  exact (backward_pages_bounded H Hh eq_refl).
Qed.

(** The example reads two pages, with [toBlock] at block 200. *)
Lemma X13_backward_page_bound_witness :
  Forall honours_cursor history_exchanges /\
  Runs (getAllTransactionsForAddress default_client "0xabc"
          (Number (Num 100)) (Number (Num 200)) (Num 2))
       history_exchanges (inr [tx140; tx150; tx180]) /\
  Z.of_nat (List.length (fetched_pages history_exchanges)) <= Z.max 200 (-1) + 2.
Proof.
  split; [exact history_honours_cursor|]; split; [exact history_run|].
  exact (X13_backward_page_bound history_honours_cursor history_run).
Defined.

Section BackwardNeverFirst.

Variable o : Oracle.
Variable this : OtterscanClient.
Variable address : string.
Variable fromBlock : StringOrNumber.
Variable pageSize : number.

Hypothesis attempts : ltb (Num 0) (retries (options this)) = true.
Hypothesis endless : never_first fromBlock o.

Local Notation "'body'" :=
  (getAllTransactionsForAddress_body this address fromBlock pageSize).

(** No run of the loop is a run against such a server: no turn can be the
    last one. *)
Lemma backward_loop_never_ends st tr r :
  Runs (ITree.iter body st) tr r -> Forall (from_oracle o) tr -> False.
Proof.
  intros H; pattern st, tr, r; revert st tr r H; apply Runs_iter_ind.
  - intros [acc cur] tr r H Hfrom.
    apply backward_turn_inv in H; destruct H as (rp & Hreq & Hres).
    unfold searchTransactionsBefore in Hreq; cbn [hexParam] in Hreq.
    destruct rp as [e|page].
    + pose proof (@makeRpcCall_first_exchange this TPage _ _ tr (inl e) Hreq) as Hfirst.
      rewrite attempts in Hfirst; destruct Hfirst as (x & rest & ->).
      pose proof (@makeRpcCall_outcome this TPage _ _ _ (inl e) Hreq) as [_ Hnone].
      apply Forall_inv in Hfrom; destruct Hfrom as [h Hx].
      destruct (endless h [JString address; JString cur; JNumber pageSize])
        as (page & Hanswer & _).
      rewrite Hanswer in Hx; subst x.
      discriminate Hnone.
    + destruct (page_from_oracle Hreq Hfrom) as [h Hanswer].
      destruct (endless h [JString address; JString cur; JNumber pageSize])
        as (page' & Hanswer' & Hne & Hf & Hall).
      rewrite Hanswer in Hanswer'; inversion Hanswer'; subst page'.
      destruct Hres as [[Hempty _]|[(_ & [Hfirst|Hlt] & _)|(_ & _ & _ & front & tx & _ & Hres)]].
      * contradiction.
      * congruence.
      * rewrite Hall in Hlt; lia.
      * discriminate.
  - intros st st' tr1 tr2 r _ _ IH Hfrom.
    apply Forall_app in Hfrom; destruct Hfrom as [_ Hfrom]; exact (IH Hfrom).
Qed.

End BackwardNeverFirst.

(** X14. The backward traversal has no bound of its own on the number of
    pages.  Against a server that answers every page request with a page
    that has records, all of them at or above [fromBlock], and that never
    flags a page as the first one (a server that ignores the cursor and
    repeats a page is one), [getAllTransactionsForAddress] does not come
    back: whatever the number of steps it is given, it has not ended. *)
Theorem X14_backward_no_page_cap (o : Oracle) (this : OtterscanClient) (address : string)
    (fromBlock toBlock : StringOrNumber) (pageSize : number) :
  ltb (Num 0) (retries (options this)) = true ->
  never_first fromBlock o ->
  forall fuel hist,
    exec fuel o hist (getAllTransactionsForAddress this address fromBlock toBlock pageSize)
    = None.
Proof.
  intros Hattempts Hendless fuel hist.
  destruct (exec fuel o hist _) as [[tr r]|] eqn:E; [exfalso|reflexivity].
  pose proof (exec_sound _ _ _ _ _ _ E) as Hrun.
  pose proof (exec_from_oracle E) as Hfrom.
  apply getAllTransactionsForAddress_inv in Hrun; destruct Hrun as (lr & Hloop & _).
  exact (backward_loop_never_ends Hattempts Hendless Hloop Hfrom).
Qed.

Lemma looping_server_never_first : never_first (Str "earliest") looping_server.
Proof.
  intros hist params; exists (mkPage [tx150] false false).
  repeat split; discriminate.
Qed.

(** The server repeats the record of block 150: after a thousand steps
    the traversal is still asking. *)
Lemma X14_backward_no_page_cap_witness :
  ltb (Num 0) (retries (options default_client)) = true /\
  never_first (Str "earliest") looping_server /\
  exec 1000 looping_server []
       (getAllTransactionsForAddress default_client "0xabc"
          (Str "earliest") (Str "latest") (Num 25))
  = None.
Proof.
  split; [reflexivity|]; split; [exact looping_server_never_first|].
  exact (@X14_backward_no_page_cap looping_server default_client "0xabc"
           (Str "earliest") (Str "latest") (Num 25) eq_refl looping_server_never_first
           1000%nat []).
Defined.

(** ** The forward traversal: failures, and runs against a server *)

(** A call whose request the server always answers is not rejected, when
    the client has an attempt to make. *)
Lemma makeRpcCall_answered (o : Oracle) this t method params tr e :
  ltb (Num 0) (retries (options this)) = true ->
  (forall hist, exists v, o hist _ (ProviderSend t method params) = inr v) ->
  Runs (makeRpcCall this t method params) tr (inl e) ->
  Forall (from_oracle o) tr -> False.
Proof.
  intros Hattempts Hanswered H Hfrom.
  pose proof (makeRpcCall_first_exchange H) as Hfirst.
  rewrite Hattempts in Hfirst; destruct Hfirst as (x & rest & ->).
  pose proof (makeRpcCall_outcome H) as [_ Hnone].
  apply Forall_inv in Hfrom; destruct Hfrom as [h Hx].
  destruct (Hanswered h) as [v Hv].
  rewrite Hv in Hx; subst x.
  discriminate Hnone.
Qed.

Section ForwardMore.

Variable this : OtterscanClient.
Variable blockNumber : StringOrNumber.

Local Notation "'body'" := (getBlockWithTransactions_body this blockNumber).

(** A loop that ends with a rejection: pages that are not the last one,
    then a page request that is rejected. *)
Lemma forward_loop_rejects st tr r :
  Runs (ITree.iter body st) tr r ->
  forall acc i e, st = (acc, Num i) -> r = inl e ->
  exists l trp,
    page_fetches this blockNumber i l /\
    Forall (fun p => lastPage p = false) (map snd l) /\
    tr = List.concat (map fst l) ++ trp /\
    Runs (getBlockTransactions this blockNumber (Num (i + Z.of_nat (List.length l)))
            (Num 100)) trp (inl e).
Proof.
  intros H; pattern st, tr, r; revert st tr r H; apply Runs_iter_ind.
  - intros st tr r H acc i e -> ->.
    apply forward_turn_inv in H; destruct H as (rp & Hp & Hout).
    destruct rp as [e'|page]; [|destruct (lastPage page); discriminate].
    inversion Hout; subst e'.
    exists [], tr; cbn [map List.concat List.length app Z.of_nat].
    rewrite Z.add_0_r; repeat split; auto.
  - intros st st' tr1 tr2 r H1 H2 IH acc i e -> ->.
    apply forward_turn_inv in H1; destruct H1 as (rp & Hp & Hout).
    destruct rp as [e'|page]; [discriminate|].
    destruct (lastPage page) eqn:El; [discriminate|].
    inversion Hout; subst st'.
    destruct (IH _ (i + 1) e eq_refl eq_refl) as (l & trp & Hf & Hl & -> & Hreq).
    exists ((tr1, page) :: l), trp.
    cbn [map fst snd List.concat List.length page_fetches].
    rewrite <- app_assoc; repeat split; auto.
    replace (i + Z.of_nat (S (List.length l))) with (i + 1 + Z.of_nat (List.length l))
      by lia.
    exact Hreq.
Qed.

End ForwardMore.

(** X15. A failure in the forward traversal.  First part: when the block
    details cannot be read, [getBlockWithTransactions] is rejected with
    that failure and no page is asked for.  Second part: every rejected run
    is of one of two kinds; either the exchanges are the failed attempts to
    read the block details, or the block details were read, some pages, none
    of them the last, were read at the indices from 0 on, and the request
    for the next index failed on every attempt; the rejection is the one of
    the dispatcher, and neither the block details nor the records of the
    pages read so far are returned. *)
Theorem X15_forward_failure (this : OtterscanClient) (blockNumber : StringOrNumber) :
  (forall tr e,
      Runs (getBlockDetails this blockNumber) tr (inl e) ->
      Runs (getBlockWithTransactions this blockNumber) tr (inl e))
  /\
  (forall tr e,
      Runs (getBlockWithTransactions this blockNumber) tr (inl e) ->
      (exists errors,
          tr = failed_attempts this TBlockDetails "ots_getBlockDetails"
                 [JString (hexParam blockNumber)] errors /\
          e = exhausted this (last errors (mkError "Unknown error")))
      \/
      (exists trb blockDetails l errors,
          Runs (getBlockDetails this blockNumber) trb (inr blockDetails) /\
          page_fetches this blockNumber 0 l /\
          Forall (fun p => lastPage p = false) (map snd l) /\
          tr = trb ++ List.concat (map fst l)
                   ++ failed_attempts this TPage "ots_getBlockTransactions"
                        [JString (hexParam blockNumber);
                         JNumber (Num (Z.of_nat (List.length l))); JNumber (Num 100)]
                        errors /\
          e = exhausted this (last errors (mkError "Unknown error")))).
Proof.
  split.
  - intros tr e H; unfold getBlockWithTransactions, await.
    rewrite <- (app_nil_r tr); eapply Runs_bind; [exact H|apply Runs_ret].
  - intros tr e H.
    unfold getBlockWithTransactions in H; unfold_async H; runs_inv.
    destruct x as [e'|bd]; runs_inv.
    + left; rewrite app_nil_r.
      match goal with
      | H : Runs (getBlockDetails _ _) _ _ |- _ =>
          unfold getBlockDetails in H;
          destruct (@makeRpcCall_shape this TBlockDetails _ _ _ _ H)
            as [(errors & v & _ & _ & Hr)|(errors & _ & -> & Hr)]; [discriminate|]
      end.
      inversion Hr; exists errors; auto.
    + right.
      destruct x as [e'|all]; runs_inv.
      match goal with
      | H : Runs (ITree.iter _ _) _ _ |- _ =>
          destruct (forward_loop_rejects H eq_refl eq_refl)
            as (l & trp & Hf & Hl & -> & Hreq)
      end.
      unfold getBlockTransactions in Hreq; cbn [Z.add] in Hreq.
      destruct (@makeRpcCall_shape this TPage _ _ _ _ Hreq)
        as [(errors & v & _ & _ & Hr)|(errors & _ & -> & Hr)]; [discriminate|].
      inversion Hr.
      exists tr0, bd, l, errors; rewrite app_nil_r; repeat split; auto.
Qed.

(** With the node down, the three attempts to read the block details are
    all there is. *)
Lemma X15_forward_failure_witness :
  Runs (getBlockWithTransactions default_client (Number (Num 18500000)))
       [ Answer (ProviderSend TBlockDetails "ots_getBlockDetails" [JString "0x11a49a0"])
                (inl (mkError "connection refused"));
         Answer (SetTimeout (Num 1000)) tt;
         Answer (ProviderSend TBlockDetails "ots_getBlockDetails" [JString "0x11a49a0"])
                (inl (mkError "connection refused"));
         Answer (SetTimeout (Num 1000)) tt;
         Answer (ProviderSend TBlockDetails "ots_getBlockDetails" [JString "0x11a49a0"])
                (inl (mkError "connection refused")) ]
       (inl (mkError "RPC call failed after 3 attempts: connection refused")).
Proof.
  apply (proj1 (X15_forward_failure default_client (Number (Num 18500000)))).
  apply (@exec_sound _ 20 node_down []); vm_compute; reflexivity.
Defined.

Section ForwardServer.

Variable o : Oracle.
Variable this : OtterscanClient.
Variable blockNumber : StringOrNumber.

Local Notation "'body'" := (getBlockWithTransactions_body this blockNumber).

Lemma forward_turn_halts hist acc pageNumber :
  exists tr res, Halts o hist (body (acc, pageNumber)) tr res.
Proof.
  destruct (makeRpcCall_halts o this TPage "ots_getBlockTransactions"
              [JString (hexParam blockNumber); JNumber pageNumber; JNumber (Num 100)] hist)
    as (tr & rp & H).
  unfold getBlockWithTransactions_body, getBlockTransactions.
  match goal with
  | |- exists tr res, Halts _ _ (ITree.bind _ ?k) tr res =>
      assert (HK : exists res, k rp = Ret res)
  end.
  { destruct rp as [e|page]; cbn beta iota zeta; [eexists; reflexivity|].
    destruct (lastPage page); eexists; reflexivity. }
  destruct HK as [res HK].
  exists tr, res; eapply Halts_bind_ret; [exact H|exact HK].
Qed.

(** The loop ends when the pages from some index on are flagged as the
    last one. *)
Lemma forward_loop_halts K : last_from K o ->
  forall n i, K - i <= Z.of_nat n -> forall hist acc,
  exists tr r, Halts o hist (ITree.iter body (acc, Num i)) tr r.
Proof.
  intros Hlast.
  induction n as [|n IH]; intros i Hi hist acc;
    destruct (forward_turn_halts hist acc (Num i)) as (tr1 & res & Hturn);
    (destruct res as [[acc' i']|r];
     [|exists tr1, r; apply Halts_iter_stop; exact Hturn]);
    pose proof (Halts_Runs Hturn) as Hrun;
    pose proof (Halts_from_oracle Hturn) as Hfrom;
    apply forward_turn_inv in Hrun; destruct Hrun as (rp & Hreq & Hout);
    (destruct rp as [e|page]; [discriminate|]);
    (destruct (lastPage page) eqn:El; [discriminate|]);
    inversion Hout; subst acc' i'; clear Hout;
    unfold getBlockTransactions in Hreq;
    destruct (page_from_oracle Hreq Hfrom) as [h Hanswer];
    assert (Hlt : i < K)
      by (destruct (Z.lt_ge_cases i K) as [Hlt|Hge]; [exact Hlt|];
          pose proof (Hlast _ _ _ _ _ Hge Hanswer); congruence).
  - cbn in Hi; lia.
  - cbn [add] in Hturn.
    destruct (IH (i + 1) ltac:(lia) (hist ++ tr1) (acc ++ txs page)) as (tr2 & r & Hrest).
    exists (tr1 ++ tr2), r.
    eapply Halts_iter_again; [exact Hturn|exact Hrest].
Qed.

Hypothesis attempts : ltb (Num 0) (retries (options this)) = true.
Hypothesis endless : never_last o.

(** Against a server that never flags a page as the last one no turn of
    the loop can be the last one. *)
Lemma forward_loop_never_ends st tr r :
  Runs (ITree.iter body st) tr r -> Forall (from_oracle o) tr -> False.
Proof.
  intros H; pattern st, tr, r; revert st tr r H; apply Runs_iter_ind.
  - intros [acc pageNumber] tr r H Hfrom.
    apply forward_turn_inv in H; destruct H as (rp & Hreq & Hout).
    unfold getBlockTransactions in Hreq.
    destruct rp as [e|page].
    + refine (@makeRpcCall_answered o this TPage _ _ _ _ attempts _ Hreq Hfrom).
      intros h; destruct (proj2 endless h
                            [JString (hexParam blockNumber); JNumber pageNumber;
                             JNumber (Num 100)]) as (page & Hanswer & _).
      exists page; exact Hanswer.
    + destruct (page_from_oracle Hreq Hfrom) as [h Hanswer].
      destruct (proj2 endless h
                  [JString (hexParam blockNumber); JNumber pageNumber; JNumber (Num 100)])
        as (page' & Hanswer' & Hl).
      rewrite Hanswer in Hanswer'; inversion Hanswer'; subst page'.
      rewrite Hl in Hout; discriminate.
  - intros st st' tr1 tr2 r _ _ IH Hfrom.
    apply Forall_app in Hfrom; destruct Hfrom as [_ Hfrom]; exact (IH Hfrom).
Qed.

End ForwardServer.

(** X16. The forward traversal has no bound of its own on the number of
    pages either: the loop stops on [lastPage] and on nothing else, the
    transaction count of the block details is not looked at.  Against a
    server that delivers the block details and never flags a page as the
    last one, [getBlockWithTransactions] does not come back, whatever the
    number of steps it is given. *)
Theorem X16_forward_no_page_cap (o : Oracle) (this : OtterscanClient)
    (blockNumber : StringOrNumber) :
  ltb (Num 0) (retries (options this)) = true ->
  never_last o ->
  forall fuel hist,
    exec fuel o hist (getBlockWithTransactions this blockNumber) = None.
Proof.
  intros Hattempts Hendless fuel hist.
  destruct (exec fuel o hist _) as [[tr r]|] eqn:E; [exfalso|reflexivity].
  pose proof (exec_sound _ _ _ _ _ _ E) as Hrun.
  pose proof (exec_from_oracle E) as Hfrom.
  unfold getBlockWithTransactions in Hrun; unfold_async Hrun; runs_inv.
  apply Forall_app in Hfrom; destruct Hfrom as [Hfrom1 Hfrom2].
  destruct x as [e|bd]; runs_inv.
  - match goal with
    | H : Runs (getBlockDetails _ _) _ _ |- _ =>
        unfold getBlockDetails in H;
        refine (@makeRpcCall_answered o this TBlockDetails _ _ _ _ Hattempts _ H Hfrom1)
    end.
    intros h; exact (proj1 Hendless h [JString (hexParam blockNumber)]).
  - apply Forall_app in Hfrom2; destruct Hfrom2 as [Hfrom2 _].
    match goal with
    | H : Runs (ITree.iter _ _) _ _ |- _ =>
        exact (forward_loop_never_ends Hattempts Hendless H Hfrom2)
    end.
Qed.

Lemma endless_block_server_never_last : never_last endless_block_server.
Proof.
  split; intros hist params.
  - exists block_18500000; reflexivity.
  - exists (mkPage [txA] true false); split; reflexivity.
Qed.

(** The server never flags a page as the last one: after a thousand steps
    the traversal is still asking. *)
Lemma X16_forward_no_page_cap_witness :
  ltb (Num 0) (retries (options default_client)) = true /\
  never_last endless_block_server /\
  exec 1000 endless_block_server []
       (getBlockWithTransactions default_client (Number (Num 18500000)))
  = None.
Proof.
  split; [reflexivity|]; split; [exact endless_block_server_never_last|].
  exact (@X16_forward_no_page_cap endless_block_server default_client
           (Number (Num 18500000)) eq_refl endless_block_server_never_last 1000%nat []).
Defined.

(** X17. The forward traversal ends against a server that flags the last
    page.  When every page the server delivers at an index from [K] on is
    flagged as the last one, [getBlockWithTransactions] ends, after
    whatever exchanges came before: with the block and its records, or with
    the rejection of a request. *)
Theorem X17_forward_terminates (o : Oracle) (this : OtterscanClient)
    (blockNumber : StringOrNumber) (K : Z) (hist : list Entry) :
  last_from K o ->
  exists tr r, Halts o hist (getBlockWithTransactions this blockNumber) tr r.
Proof.
  intros Hlast.
  destruct (makeRpcCall_halts o this TBlockDetails "ots_getBlockDetails"
              [JString (hexParam blockNumber)] hist) as (trb & rb & Hb).
  unfold getBlockWithTransactions, await, getBlockDetails.
  destruct rb as [e|bd].
  - exists trb, (inl e); eapply Halts_bind_ret; [exact Hb|reflexivity].
  - destruct (@forward_loop_halts o this blockNumber K Hlast (Z.to_nat (Z.max K 0)) 0
                ltac:(lia) (hist ++ trb) []) as (tr & lr & Hloop).
    exists (trb ++ tr),
      (match lr with
       | inl e => inl e
       | inr all => inr {| bwt_block := bd; bwt_transactions := all |}
       end).
    eapply Halts_bind; [exact Hb|]; cbn beta iota.
    eapply Halts_bind_ret; [exact Hloop|].
    destruct lr; reflexivity.
Qed.

Lemma block_server_last_from : last_from 1 block_server.
Proof.
  intros hist block i pageSize page Hi H.
  unfold block_server in H.
  destruct i as [|p|p]; [lia| |lia].
  destruct p; try discriminate.
  inversion H; reflexivity.
Qed.

(** The block served in two pages: the page at index 1 is the last. *)
Lemma X17_forward_terminates_witness :
  last_from 1 block_server /\
  exists tr r,
    Halts block_server [] (getBlockWithTransactions default_client (Number (Num 18500000)))
          tr r.
Proof.
  split; [exact block_server_last_from|].
  exact (@X17_forward_terminates block_server default_client (Number (Num 18500000)) 1 []
           block_server_last_from).
Defined.

(** ** The deployment of a contract *)

Lemma makeRpcCall_no_getTransaction this t method params tr r :
  Runs (makeRpcCall this t method params) tr r -> filter is_getTransaction tr = [].
Proof.
  intros H; pose proof (makeRpcCall_outcome H) as [Hall _]; clear H.
  induction Hall as [|en tr' Hen _ IH]; [reflexivity|].
  destruct Hen as [[x ->]| ->]; exact IH.
Qed.

Lemma no_getTransaction_In tr h x :
  filter is_getTransaction tr = [] -> ~ In (Answer (ProviderGetTransaction h) x) tr.
Proof.
  intros Hnone Hin.
  assert (Hf : In (Answer (ProviderGetTransaction h) x) (filter is_getTransaction tr))
    by (apply filter_In; split; [exact Hin|reflexivity]).
  rewrite Hnone in Hf; exact Hf.
Qed.

(** X18. The transaction fetch of [getContractDeployment] goes to the
    provider directly, not through the dispatcher: it is made once, for the
    hash the creator lookup returned, and is never made again; when it is
    rejected the field is [null] at once, while the two dispatcher calls
    around it are retried.  It is not made at all when the creator lookup
    fails.  Against every environment the operation ends. *)
Theorem X18_deployment_fetch (this : OtterscanClient) (contractAddress : string) :
  (forall tr r,
      Runs (getContractDeployment this contractAddress) tr r ->
      List.length (filter is_getTransaction tr)
      = match r with inr _ => 1%nat | inl _ => 0%nat end /\
      forall h x,
        In (Answer (ProviderGetTransaction h) x) tr ->
        exists d,
          r = inr d /\ h = cc_hash (cd_creator d) /\
          cd_transaction d = match x with inr v => v | inl _ => None end)
  /\
  (forall (o : Oracle) (hist : list Entry),
      exists tr r, Halts o hist (getContractDeployment this contractAddress) tr r).
Proof.
  split.
  - intros tr r H.
    unfold getContractDeployment, getContractCreator, traceTransaction in H.
    unfold_async H; runs_inv.
    destruct x as [e|creator]; runs_inv.
    + rewrite app_nil_r.
      match goal with
      | H : Runs (makeRpcCall _ ?t ?m ?ps) ?tr ?r |- _ =>
          pose proof (@makeRpcCall_no_getTransaction this t m ps tr r H) as N0
      end.
      rewrite N0; split; [reflexivity|].
      intros h x Hin; exfalso; exact (no_getTransaction_In N0 Hin).
    + runs_cases; rewrite !app_nil_r.
      repeat match goal with
      | H : Runs (makeRpcCall _ ?t ?m ?ps) ?tr ?r |- _ =>
          apply (@makeRpcCall_no_getTransaction this t m ps tr r) in H
      end.
      split.
      * rewrite filter_app; cbn [app filter is_getTransaction].
        repeat match goal with
        | H : filter is_getTransaction _ = [] |- _ => rewrite H; clear H
        end.
        reflexivity.
      * intros h x Hin.
        apply in_app_or in Hin; destruct Hin as [Hin|[Hin|Hin]].
        -- exfalso; eapply no_getTransaction_In; [|exact Hin]; assumption.
        -- dependent destruction Hin; eexists; repeat split.
        -- exfalso; eapply no_getTransaction_In; [|exact Hin]; assumption.
  - intros o hist.
    destruct (makeRpcCall_halts o this TContractCreator "ots_getContractCreator"
                [JString contractAddress] hist) as (tr0 & r0 & H0).
    unfold getContractDeployment, getContractCreator, traceTransaction, await, allSettled2,
      resolve, throw.
    destruct r0 as [e|creator].
    + exists tr0, (inl e); eapply Halts_bind_ret; [exact H0|reflexivity].
    + pose (x1 := o (hist ++ tr0) _ (ProviderGetTransaction (cc_hash creator))).
      destruct (makeRpcCall_halts o this TTraceOperation "ots_traceTransaction"
                  [JString (cc_hash creator)]
                  ((hist ++ tr0) ++ [Answer (ProviderGetTransaction (cc_hash creator)) x1]))
        as (trt & rt & Ht).
      assert (Hsettled :
                Halts o (hist ++ tr0)
                  (allSettled2 (ITree.trigger (ProviderGetTransaction (cc_hash creator)))
                               (traceTransaction this (cc_hash creator)))
                  ([Answer (ProviderGetTransaction (cc_hash creator)) x1] ++ trt)
                  (inr (x1, rt))).
      { unfold allSettled2, traceTransaction, resolve.
        eapply Halts_bind; [apply Halts_trigger|].
        eapply Halts_bind_ret; [exact Ht|reflexivity]. }
      exists (tr0 ++ [Answer (ProviderGetTransaction (cc_hash creator)) x1] ++ trt),
        (inr {| cd_creator := creator;
                cd_transaction := match x1 with inr v => v | inl _ => None end;
                cd_trace := match rt with inr v => Some v | inl _ => None end |}).
      eapply Halts_bind; [exact H0|]; cbn beta iota.
      eapply Halts_bind_ret; [exact Hsettled|reflexivity].
Qed.

(** The node has pruned the transaction: the fetch is made once and the
    deployment comes back with [null] for it, between the two dispatcher
    calls. *)
Lemma X18_deployment_fetch_witness :
  Runs (getContractDeployment default_client "0xc0de")
       [ Answer (ProviderSend TContractCreator "ots_getContractCreator" [JString "0xc0de"])
                (inr {| cc_hash := "0x7a"; cc_creator := "0xdeb" |});
         Answer (ProviderGetTransaction "0x7a") (inl (mkError "transaction not found"));
         Answer (ProviderSend TTraceOperation "ots_traceTransaction" [JString "0x7a"])
                (inr (mkTraceOperation "CREATE" "0xdeb" "0xc0de" "0x0" "0x0" "0x" "0x" "0x0"
                        None None)) ]
       (inr {| cd_creator := {| cc_hash := "0x7a"; cc_creator := "0xdeb" |};
               cd_transaction := None;
               cd_trace := Some (mkTraceOperation "CREATE" "0xdeb" "0xc0de" "0x0" "0x0"
                                   "0x" "0x" "0x0" None None) |}) /\
  List.length
    (filter is_getTransaction
       [ Answer (ProviderSend TContractCreator "ots_getContractCreator" [JString "0xc0de"])
                (inr {| cc_hash := "0x7a"; cc_creator := "0xdeb" |});
         Answer (ProviderGetTransaction "0x7a") (inl (mkError "transaction not found"));
         Answer (ProviderSend TTraceOperation "ots_traceTransaction" [JString "0x7a"])
                (inr (mkTraceOperation "CREATE" "0xdeb" "0xc0de" "0x0" "0x0" "0x" "0x" "0x0"
                        None None)) ])
  = 1%nat.
Proof.
  assert (H : Runs (getContractDeployment default_client "0xc0de")
       [ Answer (ProviderSend TContractCreator "ots_getContractCreator" [JString "0xc0de"])
                (inr {| cc_hash := "0x7a"; cc_creator := "0xdeb" |});
         Answer (ProviderGetTransaction "0x7a") (inl (mkError "transaction not found"));
         Answer (ProviderSend TTraceOperation "ots_traceTransaction" [JString "0x7a"])
                (inr (mkTraceOperation "CREATE" "0xdeb" "0xc0de" "0x0" "0x0" "0x" "0x" "0x0"
                        None None)) ]
       (inr {| cd_creator := {| cc_hash := "0x7a"; cc_creator := "0xdeb" |};
               cd_transaction := None;
               cd_trace := Some (mkTraceOperation "CREATE" "0xdeb" "0xc0de" "0x0" "0x0"
                                   "0x" "0x" "0x0" None None) |})).
  { apply (@exec_sound _ 20 pruned_server []); vm_compute; reflexivity. }
  split; [exact H|].
  exact (proj1 (proj1 (X18_deployment_fetch default_client "0xc0de") _ _ H)).
Defined.
